(** * Settlement and leaderboard engine of the weekly pick'em contest

    A shallow embedding of the Cloud Functions of [functions/index.js]
    ([getCurrentNFLWeekInfo], [getNFLOdds], [syncNflDataAndSettle]) and the
    properties of the settlement engine, the game merge, the week clock and
    the leaderboard builder.

    Conventions of the embedding.
    - A JavaScript number that holds money is an exact rational or NaN
      ([number]); the rounding of binary floating point is not modelled.
    - An object iterated with [for .. in] is the list of its entries in
      iteration order; an object only indexed by key is a [gmap].
    - [null]/[undefined] fields are [option]s; a thrown [TypeError] is the
      [Throw] result of the [Result] monad.
    - Instants ([Date] values and ISO strings of instants) are milliseconds
      since the epoch.  The Cloud Functions read their fields in UTC, the
      zone of their runtime; the components of the client read them on the
      wall clock of the browser ([wallClock]). *)

From stdpp Require Import base strings gmap list.
From Stdlib Require Import ZArith QArith Qcanon Lia Ascii DecimalString DecimalZ.
From Stdlib Require Import Sorted Permutation.

Local Open Scope Z_scope.

(* ===================================================================== *)
(** * Part I: the embedding                                               *)
(* ===================================================================== *)

(** ** JavaScript numbers *)

(** A finite number (exact rational) or NaN. *)
Inductive number := NaN | Num (q : Qc).

Definition ofZ (z : Z) : number := Num (Qc_of_Z z).

(** [a + b] *)
Definition nadd (a b : number) : number :=
  match a, b with Num x, Num y => Num (x + y)%Qc | _, _ => NaN end.

(** [a - b] *)
Definition nsub (a b : number) : number :=
  match a, b with Num x, Num y => Num (x - y)%Qc | _, _ => NaN end.

(** [a * b] *)
Definition nmul (a b : number) : number :=
  match a, b with Num x, Num y => Num (x * y)%Qc | _, _ => NaN end.

Definition Qc_ltb (x y : Qc) : bool :=
  match (x ?= y)%Qc with Lt => true | _ => false end.

Definition Qc_eqb (x y : Qc) : bool :=
  match (x ?= y)%Qc with Eq => true | _ => false end.

(** [a > b]: false as soon as one side is NaN. *)
Definition ngt (a b : number) : bool :=
  match a, b with Num x, Num y => Qc_ltb y x | _, _ => false end.

(** [a !== b] on numbers: NaN differs from everything, itself included. *)
Definition nne (a b : number) : bool :=
  match a, b with Num x, Num y => negb (Qc_eqb x y) | _, _ => true end.

(** [a || 0]: the falsy numbers are 0 and NaN. *)
Definition orZero (a : number) : number :=
  match a with Num x => Num x | NaN => ofZ 0 end.

(** ** Data model *)

(** [game.score]: both sides are [null] until a score record is merged. *)
Record Score := { home : option Z; away : option Z }.

(** [game.odds].  [getNFLOdds] builds [{ moneyline: {...} }]; the append step
    of [syncNflDataAndSettle] puts the team prices on the object itself. *)
Record Odds := {
  moneyline : option (gmap string Z);
  ownPrices : gmap string Z
}.

Record Game := {
  game_id : string;
  homeTeam : string;
  awayTeam : string;
  commenceTime : Z;
  odds : Odds;
  score : Score;
  completed : bool
}.

Inductive Outcome := pending | win | loss.

Record Pick := {
  pick : string;
  tier : Z;
  gameId : string;
  outcome : Outcome;
  winnings : number
}.

(** The predictions document of one user for one week. *)
Record Submission := {
  userId : string;
  weekId : string;
  picks : list (string * Pick);
  tieBreakerPoints : Z;
  submittedAt : Z;
  sub_tier : Z;
  isSettled : bool;
  totalCorrectPicks : Z;
  totalWinnerBucksWon : number
}.

(** ** Settlement engine ([syncNflDataAndSettle], the per-user loop) *)

(** [const payoutMultiplier = { 25: 0.1, 50: 0.12, 100: 0.15 }]; any other key
    is [undefined]. *)
Definition payoutMultiplier (t : Z) : option Qc :=
  if t =? 25 then Some (Q2Qc (1 # 10))
  else if t =? 50 then Some (Q2Qc (12 # 100))
  else if t =? 100 then Some (Q2Qc (15 # 100))
  else None.

(** [userPick.tier * payoutMultiplier[userPick.tier]]; a product with
    [undefined] is NaN. *)
Definition payout (t : Z) : number :=
  match payoutMultiplier t with
  | Some m => nmul (ofZ t) (Num m)
  | None => NaN
  end.

(** [parseInt] of a stored score: [parseInt(null)] is NaN, written [None]. *)
Definition parseInt (v : option Z) : option Z := v.

(** [x > y] on parsed scores. *)
Definition scoreGt (x y : option Z) : bool :=
  match x, y with Some a, Some b => b <? a | _, _ => false end.

(** [let winner = null; if (homeScore > awayScore) winner = homeTeam;
    else if (awayScore > homeScore) winner = awayTeam;] *)
Definition winnerOf (g : Game) : option string :=
  let homeScore := parseInt (home (score g)) in
  let awayScore := parseInt (away (score g)) in
  if scoreGt homeScore awayScore then Some (homeTeam g)
  else if scoreGt awayScore homeScore then Some (awayTeam g)
  else None.

(** Truthiness of [winner]: [null] and the empty string are falsy. *)
Definition truthy (w : option string) : bool :=
  match w with Some s => negb (String.eqb s "") | None => false end.

(** [winner && userPick.pick === winner ? 'win' : winner ? 'loss' : 'pending'] *)
Definition decide_outcome (userPick : Pick) (winner : option string) : Outcome :=
  if truthy winner && (match winner with
                       | Some w => String.eqb (pick userPick) w
                       | None => false
                       end)
  then win
  else if truthy winner then loss else pending.

(** The three running variables of the loop over the picks. *)
Record Tally := {
  correct : Z;                 (* totalCorrectPicks *)
  won : number;                (* totalWinnerBucksWonForThisEntry *)
  allCompleted : bool          (* allGamesInThisSubmissionCompleted *)
}.

Definition tally0 : Tally :=
  {| correct := 0; won := ofZ 0; allCompleted := true |}.

Definition findGame (games : list Game) (gid : string) : option Game :=
  find (fun g => String.eqb (game_id g) gid) games.

(** One iteration of [for (const gameId in updatedPicks)]. *)
Definition settlePick (games : list Game) (gid : string) (userPick : Pick)
    (acc : Tally) : Pick * Tally :=
  match findGame games gid with
  | Some g =>
      if completed g then
        match outcome userPick with
        | pending =>
            let o := decide_outcome userPick (winnerOf g) in
            let w := match o with win => payout (tier userPick) | _ => ofZ 0 end in
            let p := {| pick := pick userPick; tier := tier userPick;
                        gameId := gameId userPick; outcome := o; winnings := w |} in
            match o with
            | win => (p, {| correct := correct acc + 1;
                            won := nadd (won acc) w;
                            allCompleted := allCompleted acc |})
            | _ => (p, acc)
            end
        | win =>
            (userPick, {| correct := correct acc + 1;
                          won := nadd (won acc) (winnings userPick);
                          allCompleted := allCompleted acc |})
        | loss => (userPick, acc)
        end
      else
        (userPick, {| correct := correct acc; won := won acc; allCompleted := false |})
  | None =>
      (userPick, {| correct := correct acc; won := won acc; allCompleted := false |})
  end.

(** The whole loop, over the entries of [picks] in iteration order. *)
Fixpoint settlePicks (games : list Game) (ps : list (string * Pick))
    (acc : Tally) : list (string * Pick) * Tally :=
  match ps with
  | [] => ([], acc)
  | (gid, userPick) :: rest =>
      let '(p, acc1) := settlePick games gid userPick acc in
      let '(rest', acc2) := settlePicks games rest acc1 in
      ((gid, p) :: rest', acc2)
  end.

(** [predictionUpdates], merged into the predictions document by
    [userPredictionUpdatesBatch.update]. *)
Definition applyUpdates (s : Submission) (r : list (string * Pick) * Tally)
    : Submission :=
  {| userId := userId s; weekId := weekId s;
     picks := fst r;
     tieBreakerPoints := tieBreakerPoints s;
     submittedAt := submittedAt s;
     sub_tier := sub_tier s;
     isSettled := allCompleted (snd r);
     totalCorrectPicks := correct (snd r);
     totalWinnerBucksWon := won (snd r) |}.

(** The settlement engine on one predictions document: the document as it is
    after the batch commit. *)
Definition settle (games : list Game) (s : Submission) : Submission :=
  applyUpdates s (settlePicks games (picks s) tally0).

(** [netWinnings], when the profile is credited at all:
    [if (allGamesInThisSubmissionCompleted &&
         totalWinnerBucksWonForThisEntry > (predictionData.totalWinnerBucksWon || 0))]. *)
Definition creditOf (predictionData settled : Submission) : option number :=
  let prev := orZero (totalWinnerBucksWon predictionData) in
  if isSettled settled && ngt (totalWinnerBucksWon settled) prev
  then Some (nsub (totalWinnerBucksWon settled) prev)
  else None.

(** One user as the loop sees it: the predictions document of the week (if it
    exists) and the [winnerBucks] balance of the profile. *)
Record UserState := {
  predictions : option Submission;
  winnerBucks : number
}.

(** [FieldValue.increment(netWinnings)] *)
Definition increment (balance : number) (c : option number) : number :=
  match c with Some n => nadd balance n | None => balance end.

(** The body of [for (const userDoc of usersSnapshot.docs)] followed by the
    two batch commits, for one user. *)
Definition settleUser (games : list Game) (u : UserState) : UserState :=
  match predictions u with
  | Some predictionData =>
      if negb (isSettled predictionData) then
        let settled := settle games predictionData in
        {| predictions := Some settled;
           winnerBucks := increment (winnerBucks u) (creditOf predictionData settled) |}
      else u
  | None => u
  end.

(** What one pass credits to the profile of [u]. *)
Definition creditedBy (games : list Game) (u : UserState) : option number :=
  match predictions u with
  | Some predictionData =>
      if negb (isSettled predictionData)
      then creditOf predictionData (settle games predictionData)
      else None
  | None => None
  end.


(** ** Week clock ([getCurrentNFLWeekInfo]) *)

(** *** The built-in [Date], in UTC *)

Definition msPerDay : Z := 86400000.

(** Days since 1970-01-01 of an instant. *)
Definition dayNumber (t : Z) : Z := t / msPerDay.

(** [getDay()]: 0 is Sunday; 1970-01-01 was a Thursday. *)
Definition getDay (t : Z) : Z := (dayNumber t + 4) mod 7.

(** Proleptic Gregorian year, month (1..12) and day of month of a day number,
    by eras of 400 years that start on 1 March. *)
Definition dayOfEra (z : Z) : Z := (z + 719468) mod 146097.
Definition eraOf (z : Z) : Z := (z + 719468) / 146097.
Definition yearOfEra (doe : Z) : Z :=
  (doe - doe / 1460 + doe / 36524 - doe / 146096) / 365.
Definition dayOfYear (doe : Z) : Z :=
  let yoe := yearOfEra doe in doe - (365 * yoe + yoe / 4 - yoe / 100).
Definition monthIndex (doy : Z) : Z := (5 * doy + 2) / 153.

Definition civilMonth (z : Z) : Z :=
  let mp := monthIndex (dayOfYear (dayOfEra z)) in
  if mp <? 10 then mp + 3 else mp - 9.

Definition civilDay (z : Z) : Z :=
  let doy := dayOfYear (dayOfEra z) in
  doy - (153 * monthIndex doy + 2) / 5 + 1.

Definition civilYear (z : Z) : Z :=
  yearOfEra (dayOfEra z) + eraOf z * 400 + (if civilMonth z <=? 2 then 1 else 0).

Definition getFullYear (t : Z) : Z := civilYear (dayNumber t).
(** [getMonth()] counts from 0. *)
Definition getMonth (t : Z) : Z := civilMonth (dayNumber t) - 1.
Definition getDate (t : Z) : Z := civilDay (dayNumber t).

(** [d.setDate(n)]: the day of the month becomes [n]; a value past the end of
    the month runs on into the following months, so the instant moves by
    [n - getDate()] whole days. *)
Definition setDate (t n : Z) : Z := t + (n - getDate t) * msPerDay.

(** [d.setHours(h, m, s, ms)]: same day, given time of day. *)
Definition setHours (t h m s ms : Z) : Z :=
  dayNumber t * msPerDay + h * 3600000 + m * 60000 + s * 1000 + ms.

(** Conversion of an integer to its decimal string, as a template literal
    does. *)
Definition showZ (z : Z) : string := NilZero.string_of_int (Z.to_int z).

(** *** The clock *)

Record WeekInfo := {
  wi_weekId : string;
  bettingWindowStart : Z;
  bettingWindowEnd : Z;
  picksRevealTime : Z;
  wi_tieBreakerGameId : option string
}.

(** [tuesday]: the copy of [now] moved to the upcoming Tuesday (today, on a
    Tuesday) at 00:01. *)
Definition upcomingTuesday (now : Z) : Z :=
  let currentDay := getDay now in
  let tuesday := setDate now (getDate now + (2 + 7 - currentDay) mod 7) in
  setHours tuesday 0 1 0 0.

Definition getCurrentNFLWeekInfo (now : Z) : WeekInfo :=
  let tuesday := upcomingTuesday now in
  let thursday5PM := setHours (setDate tuesday (getDate tuesday + 2)) 17 0 0 0 in
  let fridayNoon := setHours (setDate thursday5PM (getDate thursday5PM + 1)) 12 0 0 0 in
  {| wi_weekId := "week-" +:+ showZ (getFullYear tuesday) +:+ "-"
                  +:+ showZ (getMonth tuesday + 1) +:+ "-"
                  +:+ showZ (getDate tuesday);
     bettingWindowStart := tuesday;
     bettingWindowEnd := thursday5PM;
     picksRevealTime := fridayNoon;
     wi_tieBreakerGameId := None |}.

(** ** Provider records (The Odds API) *)

(** The records are read with the fields that the provider documents: a
    bookmaker has its list of markets and a market its list of outcomes.  *)

(** One outcome of a market: a team name and its American price. *)
Record PriceOutcome := { name : string; price : Z }.

Record Market := { key : string; outcomes : list PriceOutcome }.

Record Bookmaker := { markets : list Market }.

(** A record of the odds endpoint.  The [bookmakers] field may be absent. *)
Record OddsEvent := {
  event_id : string;
  home_team : string;
  away_team : string;
  commence_time : Z;
  bookmakers : option (list Bookmaker)
}.

(** One entry of [scores]; the provider's numeral string is the integer it
    denotes. *)
Record TeamScore := { team : string; points : Z }.

(** A record of the scores endpoint; [scores] is [null] before kick-off. *)
Record ScoreEvent := {
  score_id : string;
  score_completed : bool;
  scores : option (list TeamScore)
}.

(** ** Results of code that may throw *)

Inductive Result (A : Type) := Ok (a : A) | Throw.
Arguments Ok {A} a.
Arguments Throw {A}.

(** Sequencing: a throw skips the rest. *)
#[global] Instance Result_bind : MBind Result :=
  fun A B (k : A -> Result B) (r : Result A) =>
    match r with Ok a => k a | Throw => Throw end.

(** ** [Array.prototype.sort] *)

(** The sort is stable, and a comparator result that is positive puts the
    first argument after the second; zero and NaN leave the pair in place.
    For a consistent comparator the result is the unique stable ordering,
    computed here by insertion from the right.  For a comparator that is not
    consistent (one that returns NaN for some pairs only) the language leaves
    the order to the engine, which may order otherwise than this insertion;
    the properties of an order are therefore stated for lists on which the
    comparator is consistent, and an order with NaN in it is only read off a
    list that the engine, too, leaves as it is. *)
Section Sort.

Context {A : Type} (cmp : A -> A -> number).

Fixpoint insertBy (x : A) (l : list A) : list A :=
  match l with
  | [] => [x]
  | y :: r => if ngt (cmp x y) (ofZ 0) then y :: insertBy x r else x :: y :: r
  end.

Definition sortBy (l : list A) : list A := foldr insertBy [] l.

End Sort.

(** ** Odds normalizer and [getNFLOdds] *)

(** The price object built from the outcomes of a market: each outcome's name
    is assigned its price, a later outcome overwriting an earlier one. *)
Definition priceMap (outs : list PriceOutcome) : gmap string Z :=
  fold_left (fun acc o => <[name o := price o]> acc) outs ∅.

(** [markets.find(m => m.key === 'h2h')] *)
Definition findH2H (ms : list Market) : option Market :=
  find (fun m => String.eqb (key m) "h2h") ms.

(** The callback of [oddsResponse.data.map] in [getNFLOdds]. *)
Definition normalizeEvent (event : OddsEvent) : Game :=
  let moneylineOdds :=
    match bookmakers event with
    | Some (firstBookmaker :: _) =>
        match findH2H (markets firstBookmaker) with
        | Some h2hMarket => priceMap (outcomes h2hMarket)
        | None => ∅
        end
    | _ => ∅
    end in
  {| game_id := event_id event;
     homeTeam := home_team event;
     awayTeam := away_team event;
     commenceTime := commence_time event;
     odds := {| moneyline := Some moneylineOdds; ownPrices := ∅ |};
     score := {| home := None; away := None |};
     completed := false |}.

(** The week document of the [nflWeeks] collection. *)
Record WeekDoc := {
  wd_weekId : string;
  wd_bettingWindowStart : Z;
  wd_bettingWindowEnd : Z;
  wd_picksRevealTime : Z;
  tieBreakerGameId : option string;
  games : list Game;
  actualTieBreakerTotalPoints : option Z
}.

(** [sortedGames.length > 0 ? sortedGames[sortedGames.length - 1].id : null]
    with [sortedGames] ordered by commence time. *)
Definition lastGameId (gs : list Game) : option string :=
  let sortedGames :=
    sortBy (fun a b => ofZ (commenceTime a - commenceTime b)) gs in
  game_id <$> last sortedGames.

(** The document written by [getNFLOdds]: every field of the week document is
    given, so the merge-write replaces them all. *)
Definition oddsWeekDoc (weekInfo : WeekInfo) (events : list OddsEvent) : WeekDoc :=
  let gs := map normalizeEvent events in
  {| wd_weekId := wi_weekId weekInfo;
     wd_bettingWindowStart := bettingWindowStart weekInfo;
     wd_bettingWindowEnd := bettingWindowEnd weekInfo;
     wd_picksRevealTime := picksRevealTime weekInfo;
     tieBreakerGameId := lastGameId gs;
     games := gs;
     actualTieBreakerTotalPoints := None |}.

(** ** Game merge ([syncNflDataAndSettle], first phase) *)

(** [parseInt(scores.find(s => s.name === team)?.score || 0)] *)
Definition teamPoints (ss : list TeamScore) (t : string) : Z :=
  match find (fun s => String.eqb (team s) t) ss with
  | Some s => points s
  | None => 0
  end.

(** [liveOddsData.bookmakers[0]?.markets.find(m => m.key === 'h2h')]:
    indexing an absent [bookmakers] throws. *)
Definition firstH2H (e : OddsEvent) : Result (option Market) :=
  match bookmakers e with
  | None => Throw
  | Some [] => Ok None
  | Some (b :: _) => Ok (findH2H (markets b))
  end.

(** The fresh score record of a game, if the provider sent one:
    [apiScoresData.find(s => s.id === game.id)]. *)
Definition liveScore (apiScoresData : list ScoreEvent) (game : Game) : option ScoreEvent :=
  find (fun s => String.eqb (score_id s) (game_id game)) apiScoresData.

(** [v === null] *)
Definition isNull {A} (v : option A) : bool :=
  match v with None => true | Some _ => false end.

(** [game.id === currentWeekTieBreakerGameId] *)
Definition isTieBreaker (g : Game) (tb : option string) : bool :=
  match tb with Some i => String.eqb (game_id g) i | None => false end.

(** The callback of [currentWeekGames.map]; [actual] is the variable
    [actualTieBreakerTotalPoints] it assigns. *)
Definition mergeGame (apiScoresData : list ScoreEvent) (apiOddsData : list OddsEvent)
    (tb : option string) (game : Game) (actual : option Z)
    : Result (Game * option Z) :=
  let liveScoreData := liveScore apiScoresData game in
  let liveOddsData := find (fun o => String.eqb (event_id o) (game_id game)) apiOddsData in
  '(game1, actual1) ←
    match liveScoreData with
    | Some s =>
        if score_completed s then
          match scores s with
          | None => Throw
          | Some ss =>
              let homeScore := teamPoints ss (homeTeam game) in
              let awayScore := teamPoints ss (awayTeam game) in
              Ok ({| game_id := game_id game; homeTeam := homeTeam game;
                     awayTeam := awayTeam game; commenceTime := commenceTime game;
                     odds := odds game;
                     score := {| home := Some homeScore; away := Some awayScore |};
                     completed := true |},
                  if isTieBreaker game tb && isNull actual
                  then Some (homeScore + awayScore) else actual)
          end
        else
          match scores s with
          | Some ss =>
              let homeScore := teamPoints ss (homeTeam game) in
              let awayScore := teamPoints ss (awayTeam game) in
              Ok ({| game_id := game_id game; homeTeam := homeTeam game;
                     awayTeam := awayTeam game; commenceTime := commenceTime game;
                     odds := odds game;
                     score := {| home := Some homeScore; away := Some awayScore |};
                     completed := false |}, actual)
          | None => Ok (game, actual)
          end
    | None => Ok (game, actual)
    end;
  match liveOddsData with
  | Some o =>
      h2hMarket ← firstH2H o;
      match h2hMarket with
      | Some m =>
          Ok ({| game_id := game_id game1; homeTeam := homeTeam game1;
                 awayTeam := awayTeam game1; commenceTime := commenceTime game1;
                 odds := {| moneyline := Some (priceMap (outcomes m));
                            ownPrices := ownPrices (odds game1) |};
                 score := score game1; completed := completed game1 |}, actual1)
      | None => Ok (game1, actual1)
      end
  | None => Ok (game1, actual1)
  end.

(** [currentWeekGames.map(...)], threading [actual] through the callbacks in
    array order. *)
Fixpoint mergeGames (apiScoresData : list ScoreEvent) (apiOddsData : list OddsEvent)
    (tb : option string) (gs : list Game) (actual : option Z)
    : Result (list Game * option Z) :=
  match gs with
  | [] => Ok ([], actual)
  | game :: rest =>
      '(g1, a1) ← mergeGame apiScoresData apiOddsData tb game actual;
      '(rest1, a2) ← mergeGames apiScoresData apiOddsData tb rest a1;
      Ok (g1 :: rest1, a2)
  end.

(** The game pushed for a provider record with no stored counterpart.  Its
    [odds] is the price object itself (or [{}]), without a [moneyline]
    field. *)
Definition newGame (apiGame : OddsEvent) : Result Game :=
  h2hMarket ← firstH2H apiGame;
  Ok {| game_id := event_id apiGame;
        homeTeam := home_team apiGame;
        awayTeam := away_team apiGame;
        commenceTime := commence_time apiGame;
        odds := {| moneyline := None;
                   ownPrices := match h2hMarket with
                                | Some m => priceMap (outcomes m)
                                | None => ∅
                                end |};
        score := {| home := None; away := None |};
        completed := false |}.

(** [apiOddsData.forEach(apiGame => { if (!updatedWeekGames.some(...)) push })] *)
Fixpoint appendNewGames (apiOddsData : list OddsEvent) (updatedWeekGames : list Game)
    : Result (list Game) :=
  match apiOddsData with
  | [] => Ok updatedWeekGames
  | apiGame :: rest =>
      if existsb (fun g => String.eqb (game_id g) (event_id apiGame)) updatedWeekGames
      then appendNewGames rest updatedWeekGames
      else g ← newGame apiGame;
           appendNewGames rest (updatedWeekGames ++ [g])
  end.

(** [stored.actualTieBreakerTotalPoints || null]: a stored 0 reads as null. *)
Definition orNull (v : option Z) : option Z :=
  match v with Some 0 => None | _ => v end.

(** Game Merge: the stored games updated from both endpoints, then the new
    fixtures appended; with the tie-breaker total. *)
Definition gameMerge (apiOddsData : list OddsEvent) (apiScoresData : list ScoreEvent)
    (currentWeekFirestoreData : WeekDoc) : Result (list Game * option Z) :=
  '(updated, actual) ←
    mergeGames apiScoresData apiOddsData
      (tieBreakerGameId currentWeekFirestoreData)
      (games currentWeekFirestoreData)
      (orNull (actualTieBreakerTotalPoints currentWeekFirestoreData));
  updatedWeekGames ← appendNewGames apiOddsData updated;
  Ok (updatedWeekGames, actual).

(** The document after [weekDocRef.update({...weekInfo, games, actualTieBreakerTotalPoints})]:
    the spread of [weekInfo] carries its [tieBreakerGameId: null]. *)
Definition syncedWeekDoc (weekInfo : WeekInfo) (updatedWeekGames : list Game)
    (actual : option Z) : WeekDoc :=
  {| wd_weekId := wi_weekId weekInfo;
     wd_bettingWindowStart := bettingWindowStart weekInfo;
     wd_bettingWindowEnd := bettingWindowEnd weekInfo;
     wd_picksRevealTime := picksRevealTime weekInfo;
     tieBreakerGameId := wi_tieBreakerGameId weekInfo;
     games := updatedWeekGames;
     actualTieBreakerTotalPoints := actual |}.

(** ** Store *)

(** The fields of a user document that the leaderboard phase reads:
    [userDoc.data().profile?.data.username] and
    [userDoc.data().predictions?.[weekId]]. *)
Record UserDocData := {
  doc_username : option string;
  doc_predictions : gmap string Submission
}.

(** One user: the user document, the documents of the [predictions]
    sub-collection by week id, and the [winnerBucks] of the profile. *)
Record User := {
  user_id : string;
  userDocData : UserDocData;
  predictionDocs : gmap string Submission;
  profileWinnerBucks : number
}.

Record Entry := {
  entry_id : string;
  username : string;
  entry_totalCorrectPicks : Z;
  entry_totalWinnerBucksWon : number;
  entry_tieBreakerPoints : Z
}.

Record Leaderboard := {
  lb_weekId : string;
  entries : list Entry;
  lb_actualTieBreakerTotalPoints : option Z
}.

Record Store := {
  nflWeeks : gmap string WeekDoc;
  users : list User;
  leaderboards : gmap string Leaderboard
}.

(** ** Settlement phase over the users *)

(** The loop body on the documents of user [u] for week [wk]. *)
Definition settleUserDocs (wk : string) (updatedWeekGames : list Game) (u : User) : User :=
  let st := settleUser updatedWeekGames
              {| predictions := predictionDocs u !! wk;
                 winnerBucks := profileWinnerBucks u |} in
  {| user_id := user_id u;
     userDocData := userDocData u;
     predictionDocs := match predictions st with
                       | Some s => <[wk := s]> (predictionDocs u)
                       | None => predictionDocs u
                       end;
     profileWinnerBucks := winnerBucks st |}.

(** ** Leaderboard builder *)

(** The comparator of [leaderboardEntries.sort]. *)
Definition compareEntries (actualTotal : Z) (a b : Entry) : number :=
  if negb (entry_totalCorrectPicks b =? entry_totalCorrectPicks a)
  then ofZ (entry_totalCorrectPicks b - entry_totalCorrectPicks a)
  else if nne (entry_totalWinnerBucksWon b) (entry_totalWinnerBucksWon a)
  then nsub (entry_totalWinnerBucksWon b) (entry_totalWinnerBucksWon a)
  else
    let diffA := Z.abs (entry_tieBreakerPoints a - actualTotal) in
    let diffB := Z.abs (entry_tieBreakerPoints b - actualTotal) in
    ofZ (diffA - diffB).

Definition sortLeaderboard (actualTotal : Z) (es : list Entry) : list Entry :=
  sortBy (compareEntries actualTotal) es.

(** [profileData.username || `User_${userId.substring(0, 4)}`] *)
Definition usernameOf (u : User) : string :=
  match doc_username (userDocData u) with
  | Some n => if String.eqb n "" then "User_" +:+ String.substring 0 4 (user_id u) else n
  | None => "User_" +:+ String.substring 0 4 (user_id u)
  end.

(** The entry pushed for a user whose [predictionsData] is settled. *)
Definition entryOf (wk : string) (u : User) : option Entry :=
  match doc_predictions (userDocData u) !! wk with
  | Some predictionsData =>
      if isSettled predictionsData then
        Some {| entry_id := user_id u;
                username := usernameOf u;
                entry_totalCorrectPicks := totalCorrectPicks predictionsData;
                entry_totalWinnerBucksWon := totalWinnerBucksWon predictionsData;
                entry_tieBreakerPoints := tieBreakerPoints predictionsData |}
      else None
  | None => None
  end.

(** The leaderboard phase on the week document read back after the update:
    the document to write, if the guard lets it be written. *)
Definition leaderboardPhase (weekInfo : WeekInfo) (updatedWeekData : WeekDoc)
    (us : list User) : option Leaderboard :=
  let allGamesInWeekCompleted := forallb completed (games updatedWeekData) in
  match actualTieBreakerTotalPoints updatedWeekData with
  | Some actualTotal =>
      if allGamesInWeekCompleted then
        Some {| lb_weekId := wi_weekId weekInfo;
                entries := sortLeaderboard actualTotal (omap (entryOf (wi_weekId weekInfo)) us);
                lb_actualTieBreakerTotalPoints := Some actualTotal |}
      else None
  | None => None
  end.

(** ** The scheduled pass and the on-demand fetch *)

(** What a pass leaves: the store, and the leaderboard document it wrote, if
    it wrote one. *)
Record PassResult := {
  after : Store;
  leaderboardWritten : option Leaderboard
}.

Definition unchanged (st : Store) : PassResult :=
  {| after := st; leaderboardWritten := None |}.

(** [syncNflDataAndSettle] at instant [now].  [apiKey] tells whether the
    provider key is configured; a response is [None] when its request
    fails.  Every failure before the first write leaves the store as it
    is. *)
Definition syncNflDataAndSettle (apiKey : bool) (now : Z)
    (oddsResponse : option (list OddsEvent))
    (scoresResponse : option (list ScoreEvent)) (st : Store) : PassResult :=
  if negb apiKey then unchanged st else
  let weekInfo := getCurrentNFLWeekInfo now in
  match nflWeeks st !! wi_weekId weekInfo with
  | None => unchanged st
  | Some currentWeekFirestoreData =>
      match oddsResponse, scoresResponse with
      | Some apiOddsData, Some apiScoresData =>
          match gameMerge apiOddsData apiScoresData currentWeekFirestoreData with
          | Throw => unchanged st
          | Ok (updatedWeekGames, actual) =>
              let updatedWeekData := syncedWeekDoc weekInfo updatedWeekGames actual in
              let settledUsers :=
                map (settleUserDocs (wi_weekId weekInfo) updatedWeekGames) (users st) in
              let written := leaderboardPhase weekInfo updatedWeekData settledUsers in
              {| after :=
                   {| nflWeeks := <[wi_weekId weekInfo := updatedWeekData]> (nflWeeks st);
                      users := settledUsers;
                      leaderboards :=
                        match written with
                        | Some lb => <[wi_weekId weekInfo := lb]> (leaderboards st)
                        | None => leaderboards st
                        end |};
                 leaderboardWritten := written |}
          end
      | _, _ => unchanged st
      end
  end.

(** [getNFLOdds] at instant [now]: on success the week document is
    rewritten from the fetched list. *)
Definition getNFLOdds (apiKey : bool) (now : Z)
    (oddsResponse : option (list OddsEvent)) (st : Store) : Store :=
  if negb apiKey then st else
  let weekInfo := getCurrentNFLWeekInfo now in
  match oddsResponse with
  | Some events =>
      {| nflWeeks := <[wi_weekId weekInfo := oddsWeekDoc weekInfo events]> (nflWeeks st);
         users := users st;
         leaderboards := leaderboards st |}
  | None => st
  end.

(** Successive scheduled passes, each with its clock reading and provider
    responses. *)
Record PassInput := {
  in_apiKey : bool;
  in_now : Z;
  in_odds : option (list OddsEvent);
  in_scores : option (list ScoreEvent)
}.

Definition runPass (st : Store) (i : PassInput) : Store :=
  after (syncNflDataAndSettle (in_apiKey i) (in_now i) (in_odds i) (in_scores i) st).

Definition runPasses (ins : list PassInput) (st : Store) : Store :=
  fold_left runPass ins st.

(** ** Vocabulary of the properties *)

(** The strings without the separator ['-'] of the week identifier. *)
Fixpoint noDash (s : string) : bool :=
  match s with
  | EmptyString => true
  | String c r => negb (Ascii.eqb c "-"%char) && noDash r
  end.

(** An instant that is a Wednesday at 00:00:00.000. *)
Definition wednesdayMidnight (w : Z) : Prop :=
  getDay w = 3 /\ w mod msPerDay = 0.

(** An instant that is a Tuesday at 00:01:00.000. *)
Definition tuesdayOneAM (w : Z) : Prop :=
  getDay w = 2 /\ w mod msPerDay = 60000.

(** Day number of the Tuesday that [getCurrentNFLWeekInfo] computes. *)
Definition tuesdayDay (now : Z) : Z :=
  dayNumber now + (2 + 7 - getDay now) mod 7.

(** The reduced fraction of a finite number. *)
Definition toQ (n : number) : option Q :=
  match n with Num q => Some (this q) | NaN => None end.

(** The value of a result that did not throw. *)
Definition okValue {A} (r : Result A) : option A :=
  match r with Ok a => Some a | Throw => None end.


Definition isFinite (n : number) : Prop :=
  match n with Num _ => True | NaN => False end.

(** [a] is strictly below [b], both finite. *)
Definition numLt (a b : number) : Prop :=
  match a, b with Num x, Num y => (x < y)%Qc | _, _ => False end.

(** The three-level ranking: more correct picks first, then more winnings,
    then the tie-breaker guess closer to the actual total. *)
Definition ranksBefore (actualTotal : Z) (a b : Entry) : Prop :=
  entry_totalCorrectPicks b < entry_totalCorrectPicks a \/
  (entry_totalCorrectPicks a = entry_totalCorrectPicks b /\
   (numLt (entry_totalWinnerBucksWon b) (entry_totalWinnerBucksWon a) \/
    (entry_totalWinnerBucksWon a = entry_totalWinnerBucksWon b /\
     Z.abs (entry_tieBreakerPoints a - actualTotal)
       <= Z.abs (entry_tieBreakerPoints b - actualTotal)))).

Definition finiteEntry (e : Entry) : Prop := isFinite (entry_totalWinnerBucksWon e).

(** ** Sample data *)

(** Instants used to probe the clock: Tuesday 2024-09-10 at 00:01 and at
    10:00, Wednesday 2024-09-11 at 10:00 and at 00:00. *)
Definition tue_0001 : Z := 19976 * msPerDay + 60000.
Definition tue_1000 : Z := 19976 * msPerDay + 10 * 3600000.
Definition wed_1000 : Z := 19977 * msPerDay + 10 * 3600000.
Definition wed_0000 : Z := 19977 * msPerDay.

Definition sampleGame (i h a : string) (hs as_ : option Z) (c : bool) : Game :=
  {| game_id := i; homeTeam := h; awayTeam := a; commenceTime := 0;
     odds := {| moneyline := Some ∅; ownPrices := ∅ |};
     score := {| home := hs; away := as_ |}; completed := c |}.

Definition samplePick (g p : string) (t : Z) : Pick :=
  {| pick := p; tier := t; gameId := g; outcome := pending; winnings := ofZ 0 |}.

Definition sampleSubmission (ps : list (string * Pick)) : Submission :=
  {| userId := "u1"; weekId := "week-2024-9-10"; picks := ps;
     tieBreakerPoints := 45; submittedAt := 0; sub_tier := 50;
     isSettled := false; totalCorrectPicks := 0; totalWinnerBucksWon := ofZ 0 |}.

(** Scenario A of the specification: game 1 ends 24-10, game 2 ends 14-20;
    the user picked the home team of game 1 at tier 50 and the away team of
    game 2 at tier 25. *)
Definition gamesA : list Game :=
  [sampleGame "g1" "Bears" "Lions" (Some 24) (Some 10) true;
   sampleGame "g2" "Jets" "Bills" (Some 14) (Some 20) true].

(** Scenario B: game 2 has not finished yet. *)
Definition gamesB : list Game :=
  [sampleGame "g1" "Bears" "Lions" (Some 24) (Some 10) true;
   sampleGame "g2" "Jets" "Bills" None None false].

Definition picksA : list (string * Pick) :=
  [("g1", samplePick "g1" "Bears" 50); ("g2", samplePick "g2" "Bills" 25)].

Definition userA : UserState :=
  {| predictions := Some (sampleSubmission picksA); winnerBucks := ofZ 1 |}.

(** A game that ended 20-20 and a pending pick on its home team. *)
Definition tiedGames : list Game :=
  [sampleGame "g1" "Bears" "Lions" (Some 20) (Some 20) true].

Definition tiedPick : Pick := samplePick "g1" "Bears" 25.


(** Scenario D of the specification: two users with 2 correct picks and 8.5
    won; the actual tie-breaker total is 50, X guessed 48 and Y guessed 55. *)
Definition userX : Entry :=
  {| entry_id := "x"; username := "X"; entry_totalCorrectPicks := 2;
     entry_totalWinnerBucksWon := Num (Q2Qc (17 # 2)); entry_tieBreakerPoints := 48 |}.

Definition userY : Entry :=
  {| entry_id := "y"; username := "Y"; entry_totalCorrectPicks := 2;
     entry_totalWinnerBucksWon := Num (Q2Qc (17 # 2)); entry_tieBreakerPoints := 55 |}.

Definition sampleMarket (h a : string) : Market :=
  {| key := "h2h";
     outcomes := [ {| name := h; price := -150 |}; {| name := a; price := 130 |} ] |}.

Definition sampleEvent (i h a : string) (ct : Z) : OddsEvent :=
  {| event_id := i; home_team := h; away_team := a; commence_time := ct;
     bookmakers := Some [ {| markets := [sampleMarket h a] |} ] |}.

Definition sampleEvents : list OddsEvent :=
  [sampleEvent "g1" "Bears" "Lions" 1000; sampleEvent "g2" "Jets" "Bills" 2000].

(** A later fetch in which the provider lists one more, later fixture. *)
Definition laterEvents : list OddsEvent :=
  sampleEvents ++ [sampleEvent "g3" "Colts" "Rams" 3000].

(** A provider record without a [bookmakers] field, and one whose list of
    bookmakers is empty. *)
Definition noBookmakersEvent : OddsEvent :=
  {| event_id := "g7"; home_team := "Colts"; away_team := "Rams";
     commence_time := 3000; bookmakers := None |}.

Definition emptyBookmakersEvent : OddsEvent :=
  {| event_id := "g8"; home_team := "Colts"; away_team := "Rams";
     commence_time := 3000; bookmakers := Some [] |}.

Definition scoreRecord (i : string) (done : bool) (h : string) (hs : Z)
    (a : string) (as_ : Z) : ScoreEvent :=
  {| score_id := i; score_completed := done;
     scores := Some [ {| team := h; points := hs |}; {| team := a; points := as_ |} ] |}.

Definition finalScores : list ScoreEvent :=
  [scoreRecord "g1" true "Bears" 24 "Lions" 10;
   scoreRecord "g2" true "Jets" 14 "Bills" 20].


Definition emptyStore : Store :=
  {| nflWeeks := ∅; users := []; leaderboards := ∅ |}.

(** The store after the first on-demand fetch of the week of 2024-09-10. *)
Definition fetchedStore : Store :=
  getNFLOdds true tue_1000 (Some sampleEvents) emptyStore.

Definition sampleWeekId : string := "week-2024-9-10".

(** The week document with both games of scenario A completed. *)
Definition finishedWeek : WeekDoc :=
  {| wd_weekId := sampleWeekId; wd_bettingWindowStart := 0;
     wd_bettingWindowEnd := 0; wd_picksRevealTime := 0;
     tieBreakerGameId := Some "g2"; games := gamesA;
     actualTieBreakerTotalPoints := Some 34 |}.

(** The week document of [sampleWeekId] in a store. *)
Definition sampleWeekDoc (st : Store) : option WeekDoc := nflWeeks st !! sampleWeekId.


(* ===================================================================== *)
(** * Part I, continued: further vocabulary and the client                *)
(* ===================================================================== *)

(** ** Vocabulary of the settlement properties *)

Definition isWin (o : Outcome) : bool :=
  match o with win => true | _ => false end.

(** The game of the pick with key [gid] is stored and completed. *)
Definition gameCompleted (games : list Game) (gid : string) : bool :=
  match findGame games gid with Some g => completed g | None => false end.

(** The entries that count for the aggregates: wins on completed games. *)
Definition countedWins (games : list Game) (ps : list (string * Pick))
    : list (string * Pick) :=
  List.filter (fun e => gameCompleted games (fst e) && isWin (outcome (snd e))) ps.

(** The winnings of a list of entries added up from the left, as the loop
    adds them. *)
Definition sumWinnings (ps : list (string * Pick)) (start : number) : number :=
  fold_left (fun acc e => nadd acc (winnings (snd e))) ps start.

(** A pick that is not a win carries no winnings. *)
Definition noWinningsUnlessWin (p : Pick) : Prop :=
  outcome p <> win -> winnings p = ofZ 0.

(** The profile updates of successive passes: for each pass the amount of
    the [increment] it issues for the user, if it issues one. *)
Fixpoint creditsOfPasses (passes : list (list Game)) (u : UserState)
    : list (option number) :=
  match passes with
  | [] => []
  | games :: rest => creditedBy games u :: creditsOfPasses rest (settleUser games u)
  end.

(** The balance after each of successive passes. *)
Fixpoint balancesAfter (passes : list (list Game)) (u : UserState) : list number :=
  match passes with
  | [] => []
  | games :: rest =>
      winnerBucks (settleUser games u) :: balancesAfter rest (settleUser games u)
  end.

(** ** Vocabulary of the merge properties *)

(** A completed game has both scores. *)
Definition scoresPresent (g : Game) : Prop :=
  completed g = true -> is_Some (home (score g)) /\ is_Some (away (score g)).

(** The provider marks the game complete. *)
Definition liveCompleted (apiScoresData : list ScoreEvent) (g : Game) : bool :=
  match liveScore apiScoresData g with
  | Some s => score_completed s
  | None => false
  end.

(** The sum of the two final scores of the first stored tie-breaker game
    that the provider marks complete. *)
Definition tieBreakerTotal (apiScoresData : list ScoreEvent) (tb : option string)
    (gs : list Game) : option Z :=
  match find (fun g => isTieBreaker g tb && liveCompleted apiScoresData g) gs with
  | Some g =>
      match liveScore apiScoresData g with
      | Some s =>
          match scores s with
          | Some ss => Some (teamPoints ss (homeTeam g) + teamPoints ss (awayTeam g))
          | None => None
          end
      | None => None
      end
  | None => None
  end.

(** The week document is in the state in which no tie-breaker total can be
    computed any more: the tie-breaker game id is null and the total reads as
    null. *)
Definition tieBreakerLost (d : WeekDoc) : Prop :=
  tieBreakerGameId d = None /\ orNull (actualTieBreakerTotalPoints d) = None.

(** The week document written by the first fetch of the sample week. *)
Definition fetchedWeek : WeekDoc :=
  oddsWeekDoc (getCurrentNFLWeekInfo tue_1000) sampleEvents.

(** The identity of a fixture: what a merge must not touch. *)
Definition sameFixture (g g' : Game) : Prop :=
  game_id g' = game_id g /\ homeTeam g' = homeTeam g /\
  awayTeam g' = awayTeam g /\ commenceTime g' = commenceTime g.

(** A game as the append step creates it from a provider record that was not
    stored before. *)
Definition freshlyAppended (apiOddsData : list OddsEvent) (stored : list Game)
    (g : Game) : Prop :=
  In (game_id g) (map event_id apiOddsData) /\
  ~ In (game_id g) (map game_id stored) /\
  completed g = false /\
  score g = {| home := None; away := None |} /\
  moneyline (odds g) = None.

(** ** Vocabulary of the store properties *)

(** [u'] is [u] except, possibly, for the predictions document of week [wk]
    and the balance; a user without such a document is left alone. *)
Definition sameOutsideWeek (wk : string) (u u' : User) : Prop :=
  user_id u' = user_id u /\
  userDocData u' = userDocData u /\
  (forall k, k <> wk -> predictionDocs u' !! k = predictionDocs u !! k) /\
  (predictionDocs u !! wk = None -> u' = u).

(** The store after one scheduled pass on the fetched sample week in which
    the provider reports no scores. *)
Definition afterFirstPass : Store :=
  after (syncNflDataAndSettle true tue_1000 (Some sampleEvents) (Some []) fetchedStore).

(** Two further passes of the same week that bring the final scores. *)
Definition finalPasses : list PassInput :=
  [ {| in_apiKey := true; in_now := tue_1000;
       in_odds := Some sampleEvents; in_scores := Some finalScores |};
    {| in_apiKey := true; in_now := tue_1000 + 3600000;
       in_odds := Some sampleEvents; in_scores := Some finalScores |} ].

(** ** Vocabulary of the fetch and leaderboard properties *)

(** The comparator of the sort in [getNFLOdds]. *)
Definition byCommenceTime (a b : Game) : number :=
  ofZ (commenceTime a - commenceTime b).

(** Equality of two numbers as values (NaN counted equal to NaN). *)
Definition numEqb (a b : number) : bool :=
  match a, b with
  | Num x, Num y => Qc_eqb x y
  | NaN, NaN => true
  | _, _ => false
  end.

(** [e] has the three ranking keys of [e0]. *)
Definition sameRankAs (actualTotal : Z) (e0 e : Entry) : bool :=
  (entry_totalCorrectPicks e =? entry_totalCorrectPicks e0)
  && numEqb (entry_totalWinnerBucksWon e) (entry_totalWinnerBucksWon e0)
  && (Z.abs (entry_tieBreakerPoints e - actualTotal)
      =? Z.abs (entry_tieBreakerPoints e0 - actualTotal)).

(** A user whose predictions document of the sample week is the submission
    of scenario A, and whose user document has no fields. *)
Definition sampleUser : User :=
  {| user_id := "u1";
     userDocData := {| doc_username := None; doc_predictions := ∅ |};
     predictionDocs := {[ sampleWeekId := sampleSubmission picksA ]};
     profileWinnerBucks := ofZ 1 |}.

Definition fetchedStoreWithUser : Store :=
  {| nflWeeks := nflWeeks fetchedStore; users := [sampleUser];
     leaderboards := leaderboards fetchedStore |}.

(** The stored total of the settled predictions that the user document of
    [u] carries for week [wk], if any, is a finite number. *)
Definition finiteTotals (wk : string) (u : User) : Prop :=
  forall p, doc_predictions (userDocData u) !! wk = Some p ->
            isSettled p = true ->
            isFinite (totalWinnerBucksWon p).

(** A user whose user document carries settled predictions of the sample
    week with the given totals and tie-breaker guess. *)
Definition rankedUser (i n : string) (correctPicks : Z) (w : number) (guess : Z) : User :=
  {| user_id := i;
     userDocData :=
       {| doc_username := Some n;
          doc_predictions :=
            {[ sampleWeekId :=
                 {| userId := i; weekId := sampleWeekId; picks := [];
                    tieBreakerPoints := guess; submittedAt := 0; sub_tier := 50;
                    isSettled := true; totalCorrectPicks := correctPicks;
                    totalWinnerBucksWon := w |} ]} |};
     predictionDocs := ∅;
     profileWinnerBucks := ofZ 1 |}.

(** Scenario D as the builder reads it: the users X and Y, and the week
    document with both games completed and the tie-breaker total 50. *)
Definition docUserX : User := rankedUser "x" "X" 2 (Num (Q2Qc (17 # 2))) 48.
Definition docUserY : User := rankedUser "y" "Y" 2 (Num (Q2Qc (17 # 2))) 55.

Definition scenarioDWeek : WeekDoc :=
  {| wd_weekId := sampleWeekId; wd_bettingWindowStart := 0;
     wd_bettingWindowEnd := 0; wd_picksRevealTime := 0;
     tieBreakerGameId := Some "g2";
     games := [sampleGame "g1" "Bears" "Lions" (Some 24) (Some 10) true;
               sampleGame "g2" "Jets" "Bills" (Some 30) (Some 20) true];
     actualTieBreakerTotalPoints := Some 50 |}.

(** Three users with 2 correct picks and the same guess; their stored totals
    are 5, NaN and 8.  Their ids are in the order in which a collection is
    read. *)
Definition lowUser : User := rankedUser "a" "A" 2 (ofZ 5) 50.
Definition nanUser : User := rankedUser "b" "B" 2 NaN 50.
Definition highUser : User := rankedUser "c" "C" 2 (ofZ 8) 50.

(** A user who ties with X on all three ranking keys. *)
Definition docUserZ : User := rankedUser "z" "Z" 2 (Num (Q2Qc (17 # 2))) 48.

(** ** The week id as the client computes it *)

(** The two components of the client carry a copy of the head of
    [getCurrentNFLWeekInfo] that returns the week id only.  In a browser the
    methods [getDay], [getDate], [setDate], [setHours], [getFullYear] and
    [getMonth] read and set the fields of the local wall clock, which is
    [offset] ms ahead of UTC at the instant read. *)
Definition wallClock (offset t : Z) : Z := t + offset.

(** [getCurrentNFLWeekInfo().weekId] of [NFLGamePicks] and of
    [LeaderboardDashboard], in a zone [offset] ms ahead of UTC. *)
Definition clientWeekId (offset now : Z) : string :=
  let local := wallClock offset now in
  let currentDay := getDay local in
  let tuesday :=
    setHours (setDate local (getDate local + (2 + 7 - currentDay) mod 7)) 0 1 0 0 in
  "week-" +:+ showZ (getFullYear tuesday) +:+ "-"
          +:+ showZ (getMonth tuesday + 1) +:+ "-"
          +:+ showZ (getDate tuesday).

(** A browser seven hours behind UTC. *)
Definition sevenHoursBehind : Z := - (7 * 3600000).

(** ** The picks form of the client ([NFLGamePicks]) *)

Definition maxEntriesPerWeek : Z := 3.

(** The profile document, as [App] creates it. *)
Record ProfileData := {
  predictorPoints : Z;
  pd_winnerBucks : number;
  xp : Z;
  lastDailyBonusClaim : option Z;
  created_at : Z;
  weeklyEntries : gmap string Z;
  pd_username : string
}.

(** [initialData] of [App]: the profile written for a user who has none. *)
Definition initialData (uid : string) (now : Z) : ProfileData :=
  {| predictorPoints := 5000;
     pd_winnerBucks := ofZ 1;
     xp := 0;
     lastDailyBonusClaim := None;
     created_at := now;
     weeklyEntries := {[ "default-week" := 0 ]};
     pd_username := "User_" +:+ String.substring 0 4 uid |}.

(** An entry of the [userPicks] state: the fields the form sets, and the
    outcome and winnings that an entry loaded from a stored submission
    carries along. *)
Record DraftPick := {
  draft_pick : string;
  draft_tier : Z;
  draft_gameId : string;
  draft_settled : option (Outcome * number)
}.

(** The [tieBreakerPoints] state: the text of the input, or the number loaded
    from a stored submission. *)
Inductive FieldValue := Text (s : string) | Number (n : Z).

(** What the component reads when a handler runs. *)
Record PicksForm := {
  form_userId : option string;
  form_db : bool;
  form_userData : option ProfileData;
  weeklyGames : option WeekDoc;
  userPicks : gmap string DraftPick;
  selectedTier : Z;
  tieBreakerInput : FieldValue;
  userWeeklyEntriesCount : Z
}.

(** [weeklyGames && now >= bettingWindowStart && now <= bettingWindowEnd],
    evaluated when the component renders. *)
Definition bettingOpen (w : option WeekDoc) (renderTime : Z) : bool :=
  match w with
  | Some d => (wd_bettingWindowStart d <=? renderTime)
              && (renderTime <=? wd_bettingWindowEnd d)
  | None => false
  end.

(** [weeklyGames && now > bettingWindowEnd] *)
Definition picksLocked (w : option WeekDoc) (renderTime : Z) : bool :=
  match w with
  | Some d => wd_bettingWindowEnd d <? renderTime
  | None => false
  end.

(** Decimal digits, for [/^\d+$/]. *)
Definition isDigit (c : ascii) : bool :=
  (48 <=? nat_of_ascii c)%nat && (nat_of_ascii c <=? 57)%nat.

Fixpoint allDigits (s : string) : bool :=
  match s with
  | EmptyString => true
  | String c r => isDigit c && allDigits r
  end.

(** [/^\d+$/.test(value)] *)
Definition digitsOnly (s : string) : bool :=
  negb (String.eqb s "") && allDigits s.

(** The number a string of digits denotes. *)
Fixpoint decimalValue (s : string) (acc : Z) : Z :=
  match s with
  | EmptyString => acc
  | String c r => decimalValue r (10 * acc + (Z.of_nat (nat_of_ascii c) - 48))
  end.

(** An array index: the canonical decimal numeral of an integer from 0 to
    2^32 - 2.  An object lists the properties whose keys are array indices
    first, in ascending order, and the others after them in the order in
    which they were created. *)
Definition isArrayIndex (k : string) : bool :=
  digitsOnly k
  && (String.eqb k "0"
      || match k with String c _ => negb (Ascii.eqb c "0") | EmptyString => false end)
  && (decimalValue k 0 <? 4294967295).

(** The place of a new property whose key is an array index: after the
    array indices below it. *)
Fixpoint insertIndex {A} (k : string) (v : A) (o : list (string * A))
    : list (string * A) :=
  match o with
  | [] => [(k, v)]
  | (k', v') :: r =>
      if isArrayIndex k' && (decimalValue k' 0 <? decimalValue k 0)
      then (k', v') :: insertIndex k v r
      else (k, v) :: (k', v') :: r
  end.

(** The value of an existing property replaced where it stands. *)
Fixpoint replaceKey {A} (k : string) (v : A) (o : list (string * A))
    : list (string * A) :=
  match o with
  | [] => []
  | (k', v') :: r =>
      if String.eqb k' k then (k, v) :: r else (k', v') :: replaceKey k v r
  end.

(** [obj[k] = v] on an object kept as the list of its entries in the order
    in which [for..in] and [Object.values] go through them. *)
Definition objSet {A} (k : string) (v : A) (o : list (string * A))
    : list (string * A) :=
  if existsb (fun e => String.eqb (fst e) k) o then replaceKey k v o
  else if isArrayIndex k then insertIndex k v o
  else o ++ [(k, v)].

Inductive SubmitResult :=
| Rejected (message : string)
| Submitted (profile : ProfileData) (doc : Submission).

Section PicksForm.

(** The built-in [parseInt] on strings; [None] is NaN. *)
Variable parseIntText : string -> option Z.

(** [parseInt(tieBreakerPoints)]; an integer number parses to itself. *)
Definition parseField (v : FieldValue) : option Z :=
  match v with
  | Text s => parseIntText s
  | Number n => Some n
  end.

(** [tieBreakerPoints === ''] *)
Definition isEmptyText (v : FieldValue) : bool :=
  match v with Text s => String.eqb s "" | Number _ => false end.

(** The entry that [handleSubmitPicks] writes for one game. *)
Definition freshPick (teamName : string) (tierChosen : Z) (gid : string) : Pick :=
  {| pick := teamName; tier := tierChosen; gameId := gid;
     outcome := pending; winnings := ofZ 0 |}.

(** The loop [for (const game of weeklyGames.games)] of [handleSubmitPicks]:
    the picks to submit, or the message of the first game without a pick. *)
Fixpoint picksToSubmit (picked : gmap string DraftPick) (tierChosen : Z)
    (gs : list Game) (acc : list (string * Pick)) : string + list (string * Pick) :=
  match gs with
  | [] => inr acc
  | game :: rest =>
      match picked !! game_id game with
      | Some dp =>
          if String.eqb (draft_pick dp) "" then
            inl ("Missing pick for " +:+ homeTeam game +:+ " vs " +:+ awayTeam game +:+ ".")
          else
            picksToSubmit picked tierChosen rest
              (objSet (game_id game)
                 (freshPick (draft_pick dp) tierChosen (game_id game)) acc)
      | None =>
          inl ("Missing pick for " +:+ homeTeam game +:+ " vs " +:+ awayTeam game +:+ ".")
      end
  end.

(** [handleSubmitPicks]: the message shown when the entry is refused, or the
    two documents written.  [renderTime] is the instant at which the
    component computed [bettingOpen], [now] the instant of the click. *)
Definition handleSubmitPicks (renderTime now : Z) (f : PicksForm) : SubmitResult :=
  match form_userId f, form_userData f with
  | Some uid, Some userData =>
      if String.eqb uid "" || negb (form_db f) then
        Rejected "User not authenticated or data not loaded. Please try again."
      else if negb (bettingOpen (weeklyGames f) renderTime) then
        Rejected "Betting is currently closed. Please check the betting window."
      else if maxEntriesPerWeek <=? userWeeklyEntriesCount f then
        Rejected ("You have reached the maximum of " +:+ showZ maxEntriesPerWeek
                  +:+ " entries for this week.")
      else
        match weeklyGames f with
        | None => Rejected "You must make a pick for ALL games this week."
        | Some w =>
            if negb (size (userPicks f) =? length (games w))%nat then
              Rejected "You must make a pick for ALL games this week."
            else
              match find (fun g => isTieBreaker g (tieBreakerGameId w)) (games w) with
              | None =>
                  Rejected "Tie-breaker game not found for this week. Cannot submit picks."
              | Some tieBreakerGame =>
                  match (if isEmptyText (tieBreakerInput f) then None
                         else parseField (tieBreakerInput f)) with
                  | None =>
                      Rejected ("Please enter a valid total score for the tie-breaker game ("
                                +:+ homeTeam tieBreakerGame +:+ " vs "
                                +:+ awayTeam tieBreakerGame +:+ ").")
                  | Some guess =>
                      match picksToSubmit (userPicks f) (selectedTier f) (games w) [] with
                      | inl message => Rejected message
                      | inr ps =>
                          let costPerEntry := selectedTier f in
                          if predictorPoints userData <? costPerEntry then
                            Rejected ("Not enough Predictor Points! You need "
                                      +:+ showZ costPerEntry +:+ " to submit this entry.")
                          else
                            Submitted
                              {| predictorPoints := predictorPoints userData - costPerEntry;
                                 pd_winnerBucks := pd_winnerBucks userData;
                                 xp := xp userData;
                                 lastDailyBonusClaim := lastDailyBonusClaim userData;
                                 created_at := created_at userData;
                                 weeklyEntries :=
                                   <[wd_weekId w :=
                                       default 0 (weeklyEntries userData !! wd_weekId w) + 1]>
                                     (weeklyEntries userData);
                                 pd_username := pd_username userData |}
                              {| userId := uid;
                                 weekId := wd_weekId w;
                                 picks := ps;
                                 tieBreakerPoints := guess;
                                 submittedAt := now;
                                 sub_tier := selectedTier f;
                                 isSettled := false;
                                 totalCorrectPicks := 0;
                                 totalWinnerBucksWon := ofZ 0 |}
                      end
                  end
              end
        end
  | _, _ => Rejected "User not authenticated or data not loaded. Please try again."
  end.

(** [handleTieBreakerChange]: the new [tieBreakerPoints] state for the typed
    [value]. *)
Definition handleTieBreakerChange (renderTime : Z) (value : string) (f : PicksForm)
    : FieldValue :=
  if negb (bettingOpen (weeklyGames f) renderTime)
     || picksLocked (weeklyGames f) renderTime
     || (maxEntriesPerWeek <=? userWeeklyEntriesCount f)
  then tieBreakerInput f
  else if String.eqb value ""
          || (digitsOnly value
              && match parseIntText value with
                 | Some n => (0 <=? n) && (n <=? 200)
                 | None => false
                 end)
  then Text value
  else tieBreakerInput f.

(** The team picked for the game [gid]; the empty string when there is no
    pick. *)
Definition pickedTeam (picked : gmap string DraftPick) (gid : string) : string :=
  match picked !! gid with Some dp => draft_pick dp | None => "" end.

(** The entry of a submitted document for the game [g]. *)
Definition entryFor (picked : gmap string DraftPick) (tierChosen : Z) (g : Game)
    : string * Pick :=
  (game_id g, freshPick (pickedTeam picked (game_id g)) tierChosen (game_id g)).

(** [setTieBreakerPoints]: the form with a new [tieBreakerPoints] state. *)
Definition setTieBreakerPoints (v : FieldValue) (f : PicksForm) : PicksForm :=
  {| form_userId := form_userId f;
     form_db := form_db f;
     form_userData := form_userData f;
     weeklyGames := weeklyGames f;
     userPicks := userPicks f;
     selectedTier := selectedTier f;
     tieBreakerInput := v;
     userWeeklyEntriesCount := userWeeklyEntriesCount f |}.

(** A series of changes of the tie-breaker input, each with the instant of
    the render it happens in. *)
Fixpoint typeTieBreaker (changes : list (Z * string)) (f : PicksForm) : PicksForm :=
  match changes with
  | [] => f
  | (renderTime, value) :: rest =>
      typeTieBreaker rest
        (setTieBreakerPoints (handleTieBreakerChange renderTime value f) f)
  end.

(** The tie-breaker state is empty, or digits that parse to a total from 0 to
    200, or a stored number in that range. *)
Definition guessInRange (v : FieldValue) : Prop :=
  match v with
  | Text s => s = "" \/ exists n, parseIntText s = Some n /\ 0 <= n <= 200
  | Number n => 0 <= n <= 200
  end.

End PicksForm.

(** *** Sample form *)

(** [parseInt] on the texts of the samples: digits denote their number. *)
Definition sampleParseInt (s : string) : option Z :=
  if digitsOnly s then Some (decimalValue s 0) else None.

(** A user with the initial profile who has picked the home team of each
    game of the fetched sample week. *)
Definition sampleForm : PicksForm :=
  {| form_userId := Some "u1";
     form_db := true;
     form_userData := Some (initialData "u1" tue_0001);
     weeklyGames := Some fetchedWeek;
     userPicks :=
       list_to_map
         (map (fun g => (game_id g,
                         {| draft_pick := homeTeam g; draft_tier := 25;
                            draft_gameId := game_id g; draft_settled := None |}))
              (games fetchedWeek));
     selectedTier := 25;
     tieBreakerInput := Text "";
     userWeeklyEntriesCount := 0 |}.

(** The sample form after the user typed 4, 1 and 0 into the tie-breaker
    input. *)
Definition typedChanges : list (Z * string) :=
  [(tue_1000, "4"); (tue_1000, "41"); (tue_1000, "410")].

Definition typedForm : PicksForm :=
  typeTieBreaker sampleParseInt typedChanges sampleForm.

(** A week whose two games have the ids 10 and 9, and a form with the home
    team picked in both. *)
Definition numberedWeek : WeekDoc :=
  {| wd_weekId := wd_weekId fetchedWeek;
     wd_bettingWindowStart := wd_bettingWindowStart fetchedWeek;
     wd_bettingWindowEnd := wd_bettingWindowEnd fetchedWeek;
     wd_picksRevealTime := wd_picksRevealTime fetchedWeek;
     tieBreakerGameId := Some "9";
     games := [sampleGame "10" "Bears" "Lions" None None false;
               sampleGame "9" "Jets" "Bills" None None false];
     actualTieBreakerTotalPoints := None |}.

Definition numberedForm : PicksForm :=
  {| form_userId := Some "u1";
     form_db := true;
     form_userData := Some (initialData "u1" tue_0001);
     weeklyGames := Some numberedWeek;
     userPicks :=
       list_to_map
         (map (fun g => (game_id g,
                         {| draft_pick := homeTeam g; draft_tier := 25;
                            draft_gameId := game_id g; draft_settled := None |}))
              (games numberedWeek));
     selectedTier := 25;
     tieBreakerInput := Text "41";
     userWeeklyEntriesCount := 0 |}.

(** ** The dashboard of the client ([LeaderboardDashboard]) *)

(** The body of the loop of [calculateUserWins] for one pick: whether it
    increments [correctPicks]. *)
Definition countsAsCorrect (weekGames : list Game) (gid : string) (userPick : Pick)
    : bool :=
  match find (fun g => String.eqb (game_id g) gid) weekGames with
  | Some gameActual =>
      match home (score gameActual), away (score gameActual) with
      | Some homeScore, Some awayScore =>
          if completed gameActual then
            let winner :=
              if awayScore <? homeScore then Some (homeTeam gameActual)
              else if homeScore <? awayScore then Some (awayTeam gameActual)
              else None in
            match winner with
            | Some w => negb (String.eqb w "") && String.eqb (pick userPick) w
            | None => false
            end
          else false
      | _, _ => false
      end
  | None => false
  end.

(** [calculateUserWins]; [None] is the text 'N/A'. *)
Definition calculateUserWins (userPicks : option (list (string * Pick)))
    (weekGames : option (list Game)) : option Z :=
  match userPicks, weekGames with
  | Some ps, Some gs =>
      Some (fold_left (fun correctPicks e =>
                         if countsAsCorrect gs (fst e) (snd e)
                         then correctPicks + 1 else correctPicks)
                      ps 0)
  | _, _ => None
  end.

(** A row of the dashboard's ranking: a leaderboard entry, flagged when it is
    the copy made of the current user's entry. *)
Record Row := { row_entry : Entry; isSelf : bool }.

(** The comparator of the dashboard's sort. *)
Definition compareRows (showOtherPicks : bool) (actual : option Z) (a b : Row)
    : number :=
  let ea := row_entry a in
  let eb := row_entry b in
  if negb (entry_totalCorrectPicks eb =? entry_totalCorrectPicks ea)
  then ofZ (entry_totalCorrectPicks eb - entry_totalCorrectPicks ea)
  else if nne (entry_totalWinnerBucksWon eb) (entry_totalWinnerBucksWon ea)
  then nsub (entry_totalWinnerBucksWon eb) (entry_totalWinnerBucksWon ea)
  else
    match (if showOtherPicks then actual else None) with
    | Some actualTotal =>
        let diffA := Z.abs (entry_tieBreakerPoints ea - actualTotal) in
        let diffB := Z.abs (entry_tieBreakerPoints eb - actualTotal) in
        ofZ (diffA - diffB)
    | None => ofZ 0
    end.

(** [entry.id === userId]; a null [userId] equals no id. *)
Definition isUser (userId : option string) (e : Entry) : bool :=
  match userId with Some u => String.eqb (entry_id e) u | None => false end.

(** The rows of the global leaderboard in the order in which the dashboard
    shows them: the current user's entry, if any, then the others, sorted. *)
Definition dashboardRows (userId : option string) (leaderboard : list Entry)
    (showOtherPicks : bool) (actual : option Z) : list Row :=
  let filteredLeaderboard := List.filter (fun e => negb (isUser userId e)) leaderboard in
  let currentUserLeaderboardEntry := find (isUser userId) leaderboard in
  sortBy (compareRows showOtherPicks actual)
    (match currentUserLeaderboardEntry with
     | Some e => [{| row_entry := e; isSelf := true |}]
     | None => []
     end
     ++ map (fun e => {| row_entry := e; isSelf := false |}) filteredLeaderboard).

(** [setShowOtherPicks(new Date() > new Date(data.picksRevealTime))]; without
    week data it is set to false. *)
Definition showOtherPicks (currentWeekData : option WeekDoc) (now : Z) : bool :=
  match currentWeekData with
  | Some data => wd_picksRevealTime data <? now
  | None => false
  end.

(** [x > y] on two stored scores: in a comparison null counts as 0. *)
Definition storedGt (x y : option Z) : bool := default 0 y <? default 0 x.

Inductive Display := DisplayPending | DisplayWin | DisplayLoss.

(** [outcomeDisplay] of the list "My Picks", for the game found for the
    pick. *)
Definition outcomeDisplay (game : Game) (pickData : Pick) : Display :=
  if completed game then
    let homeScore := home (score game) in
    let awayScore := away (score game) in
    let actualWinner :=
      if storedGt homeScore awayScore then Some (homeTeam game)
      else if storedGt awayScore homeScore then Some (awayTeam game)
      else None in
    if truthy actualWinner && (match actualWinner with
                               | Some w => String.eqb (pick pickData) w
                               | None => false
                               end)
    then DisplayWin
    else if truthy actualWinner then DisplayLoss
    else DisplayPending
  else DisplayPending.

(** The row of "My Picks" for one pick: nothing is shown when no stored game
    has the pick's [gameId]. *)
Definition displayedOutcome (games : list Game) (pickData : Pick) : option Display :=
  match find (fun g => String.eqb (game_id g) (gameId pickData)) games with
  | Some game => Some (outcomeDisplay game pickData)
  | None => None
  end.

(** The display that corresponds to a stored outcome. *)
Definition displayOf (o : Outcome) : Display :=
  match o with
  | pending => DisplayPending
  | win => DisplayWin
  | loss => DisplayLoss
  end.

(** A completed game of which the away score is still null. *)
Definition halfScoredGame : Game :=
  sampleGame "g1" "Bears" "Lions" (Some 24) None true.
(* ===================================================================== *)
(** * Part II: properties                                                 *)
(* ===================================================================== *)

(** ** The calendar of the week clock *)

Section Calendar.

Lemma yearOfEra_bounds doe :
  0 <= doe < 146097 ->
  0 <= yearOfEra doe <= 399 /\ 0 <= dayOfYear doe <= 365.
Proof.
  intros H. unfold dayOfYear, yearOfEra.
  Z.div_mod_to_equations; lia.
Qed.

Lemma dayOfEra_range z : 0 <= dayOfEra z < 146097.
Proof. unfold dayOfEra. apply Z.mod_pos_bound. lia. Qed.

Lemma monthIndex_bounds doy : 0 <= doy <= 365 -> 0 <= monthIndex doy <= 11.
Proof. intros H. unfold monthIndex. Z.div_mod_to_equations; lia. Qed.

Lemma civilMonth_range z : 1 <= civilMonth z <= 12.
Proof.
  unfold civilMonth.
  pose proof (monthIndex_bounds (dayOfYear (dayOfEra z))
                (proj2 (yearOfEra_bounds _ (dayOfEra_range z)))) as Hm.
  destruct (Z.ltb_spec (monthIndex (dayOfYear (dayOfEra z))) 10); lia.
Qed.

Lemma civilDay_range z : 1 <= civilDay z <= 31.
Proof.
  unfold civilDay.
  pose proof (proj2 (yearOfEra_bounds _ (dayOfEra_range z))) as Hd.
  revert Hd. generalize (dayOfYear (dayOfEra z)) as doy. intros doy Hd.
  unfold monthIndex. Z.div_mod_to_equations; lia.
Qed.

Lemma civil_inj z1 z2 :
  civilYear z1 = civilYear z2 ->
  civilMonth z1 = civilMonth z2 ->
  civilDay z1 = civilDay z2 ->
  z1 = z2.
Proof.
  intros Hy Hm Hd.
  unfold civilYear in Hy. rewrite Hm in Hy.
  pose proof (yearOfEra_bounds _ (dayOfEra_range z1)) as [By1 Bd1].
  pose proof (yearOfEra_bounds _ (dayOfEra_range z2)) as [By2 Bd2].
  pose proof (monthIndex_bounds _ Bd1) as Bm1.
  pose proof (monthIndex_bounds _ Bd2) as Bm2.
  assert (Hmp : monthIndex (dayOfYear (dayOfEra z1)) = monthIndex (dayOfYear (dayOfEra z2))).
  { unfold civilMonth in Hm.
    destruct (Z.ltb_spec (monthIndex (dayOfYear (dayOfEra z1))) 10),
             (Z.ltb_spec (monthIndex (dayOfYear (dayOfEra z2))) 10); lia. }
  assert (Hdoy : dayOfYear (dayOfEra z1) = dayOfYear (dayOfEra z2)).
  { unfold civilDay in Hd. rewrite Hmp in Hd. lia. }
  assert (Hyoe : yearOfEra (dayOfEra z1) = yearOfEra (dayOfEra z2) /\ eraOf z1 = eraOf z2) by lia.
  destruct Hyoe as [Hyoe Hera].
  assert (Hdoe : dayOfEra z1 = dayOfEra z2).
  { unfold dayOfYear in Hdoy. cbv zeta in Hdoy. rewrite Hyoe in Hdoy. lia. }
  unfold dayOfEra, eraOf in *.
  pose proof (Z.div_mod (z1 + 719468) 146097 ltac:(lia)).
  pose proof (Z.div_mod (z2 + 719468) 146097 ltac:(lia)).
  lia.
Qed.

End Calendar.

(** ** Week identifiers as strings *)

Section WeekIdStrings.

Lemma append_empty (s : string) : "" +:+ s = s.
Proof. reflexivity. Qed.

Lemma append_String c (a s : string) : String c a +:+ s = String c (a +:+ s).
Proof. reflexivity. Qed.

Lemma noDash_append_dash a b : noDash (a +:+ String "-"%char b) = false.
Proof.
  induction a as [|c a IH].
  - reflexivity.
  - rewrite append_String. simpl. rewrite IH. apply andb_false_r.
Qed.

Lemma append_dash_assoc (a m b : string) :
  a +:+ String "-"%char (m +:+ String "-"%char b)
  = (a +:+ String "-"%char m) +:+ String "-"%char b.
Proof.
  induction a as [|c a IH].
  - reflexivity.
  - rewrite !append_String, IH. reflexivity.
Qed.

Lemma append_dash_inj a1 : forall a2 b1 b2,
  noDash b1 = true -> noDash b2 = true ->
  a1 +:+ String "-"%char b1 = a2 +:+ String "-"%char b2 ->
  a1 = a2 /\ b1 = b2.
Proof.
  induction a1 as [|c a1 IH]; intros [|c2 a2] b1 b2 H1 H2 E;
    rewrite ?append_empty, ?append_String in E.
  - injection E as E. subst b2. auto.
  - injection E as _ E. subst b1. rewrite noDash_append_dash in H1. discriminate.
  - injection E as _ E. subst b2. rewrite noDash_append_dash in H2. discriminate.
  - injection E as Ec E. subst c2. destruct (IH _ _ _ H1 H2 E) as [-> ->]. auto.
Qed.

Lemma noDash_uint (u : Decimal.uint) : noDash (NilEmpty.string_of_uint u) = true.
Proof. induction u; simpl; auto. Qed.

Lemma noDash_showZ z : 0 <= z -> noDash (showZ z) = true.
Proof.
  intros Hz. unfold showZ. destruct z as [|p|p]; try lia; simpl.
  - reflexivity.
  - destruct (Pos.to_uint p); try reflexivity; apply noDash_uint.
Qed.

Lemma showZ_inj z1 z2 : showZ z1 = showZ z2 -> z1 = z2.
Proof.
  unfold showZ. intros E.
  assert (Hn : forall z, Z.to_int z <> Decimal.Pos Decimal.Nil /\
                         Z.to_int z <> Decimal.Neg Decimal.Nil).
  { intros z. split; intros Hz;
      pose proof (f_equal Z.of_int Hz) as Hz'; rewrite DecimalZ.of_to in Hz';
      subst z; vm_compute in Hz; discriminate. }
  apply DecimalZ.to_int_inj.
  pose proof (NilZero.isi _ (proj1 (Hn z1)) (proj2 (Hn z1))) as I1.
  pose proof (NilZero.isi _ (proj1 (Hn z2)) (proj2 (Hn z2))) as I2.
  rewrite E in I1. congruence.
Qed.

End WeekIdStrings.

(** ** Week clock *)

Section WeekClock.

Lemma setDate_plus t k : setDate t (getDate t + k) = t + k * msPerDay.
Proof. unfold setDate. f_equal. f_equal. lia. Qed.

Lemma dayNumber_plus t k : dayNumber (t + k * msPerDay) = dayNumber t + k.
Proof. unfold dayNumber. apply Z.div_add. discriminate. Qed.

Lemma dayNumber_at d r : 0 <= r < msPerDay -> dayNumber (d * msPerDay + r) = d.
Proof.
  intros Hr. unfold dayNumber.
  rewrite Z.add_comm, Z.div_add by discriminate.
  rewrite Z.div_small by exact Hr. reflexivity.
Qed.

Lemma upcomingTuesday_eq now :
  upcomingTuesday now = tuesdayDay now * msPerDay + 60000.
Proof.
  unfold upcomingTuesday, tuesdayDay, setHours.
  rewrite setDate_plus, dayNumber_plus. lia.
Qed.

Lemma weekInfo_eq now :
  getCurrentNFLWeekInfo now =
  {| wi_weekId := "week-" +:+ showZ (civilYear (tuesdayDay now)) +:+ "-"
                  +:+ showZ (civilMonth (tuesdayDay now)) +:+ "-"
                  +:+ showZ (civilDay (tuesdayDay now));
     bettingWindowStart := tuesdayDay now * msPerDay + 60000;
     bettingWindowEnd := (tuesdayDay now + 2) * msPerDay + 17 * 3600000;
     picksRevealTime := (tuesdayDay now + 3) * msPerDay + 12 * 3600000;
     wi_tieBreakerGameId := None |}.
Proof.
  unfold getCurrentNFLWeekInfo. rewrite upcomingTuesday_eq.
  set (d := tuesdayDay now).
  assert (Hd : dayNumber (d * msPerDay + 60000) = d)
    by (apply dayNumber_at; unfold msPerDay; lia).
  unfold setHours. rewrite !setDate_plus, !dayNumber_plus.
  unfold getFullYear, getMonth, getDate. rewrite Hd.
  assert (Hd2 : dayNumber ((d + 2) * msPerDay + 17 * 3600000 + 0 * 60000 + 0 * 1000 + 0) = d + 2)
    by (rewrite <- !Z.add_assoc; apply dayNumber_at; unfold msPerDay; lia).
  rewrite Hd2.
  f_equal; try lia.
  repeat f_equal. lia.
Qed.

Lemma weekId_inj t1 t2 :
  wi_weekId (getCurrentNFLWeekInfo t1) = wi_weekId (getCurrentNFLWeekInfo t2) ->
  tuesdayDay t1 = tuesdayDay t2.
Proof.
  rewrite !weekInfo_eq. simpl wi_weekId.
  set (d1 := tuesdayDay t1). set (d2 := tuesdayDay t2).
  rewrite !append_String, !append_empty. intros E.
  injection E as E.
  pose proof (civilMonth_range d1). pose proof (civilMonth_range d2).
  pose proof (civilDay_range d1). pose proof (civilDay_range d2).
  rewrite !append_dash_assoc in E.
  apply append_dash_inj in E as [E Ed];
    [| apply noDash_showZ; lia | apply noDash_showZ; lia].
  apply append_dash_inj in E as [Ey Em];
    [| apply noDash_showZ; lia | apply noDash_showZ; lia].
  apply civil_inj; apply showZ_inj; assumption.
Qed.

Lemma tuesdayDay_period w t :
  wednesdayMidnight w ->
  (w <= t < w + 7 * msPerDay <-> tuesdayDay t = dayNumber w + 6).
Proof.
  unfold wednesdayMidnight, tuesdayDay, getDay, dayNumber, msPerDay.
  intros [Hd Hm]. Z.div_mod_to_equations. lia.
Qed.

(** The client's copy names the week of its wall clock. *)
Lemma clientWeekId_eq offset now :
  clientWeekId offset now = wi_weekId (getCurrentNFLWeekInfo (now + offset)).
Proof. reflexivity. Qed.

End WeekClock.

(** The periods of the week clock as the code has them.  All instants from a
    Wednesday 00:00 up to, not including, the next Wednesday 00:00 yield the
    same week record, and no instant outside that period yields its
    [weekId].  The week is named after the Tuesday that ends the period:
    betting opens that Tuesday at 00:01, closes on the Thursday after it at
    17:00, and the reveal is on the Friday after it at 12:00, both outside
    the period. *)
Theorem week_clock_periods (w t1 t2 : Z) :
  wednesdayMidnight w ->
  w <= t1 < w + 7 * msPerDay ->
  (w <= t2 < w + 7 * msPerDay ->
     getCurrentNFLWeekInfo t2 = getCurrentNFLWeekInfo t1) /\
  (~ (w <= t2 < w + 7 * msPerDay) ->
     wi_weekId (getCurrentNFLWeekInfo t2) <> wi_weekId (getCurrentNFLWeekInfo t1)) /\
  bettingWindowStart (getCurrentNFLWeekInfo t1) = w + 6 * msPerDay + 60000 /\
  bettingWindowEnd (getCurrentNFLWeekInfo t1) = w + 8 * msPerDay + 17 * 3600000 /\
  picksRevealTime (getCurrentNFLWeekInfo t1) = w + 9 * msPerDay + 12 * 3600000 /\
  getDay (bettingWindowStart (getCurrentNFLWeekInfo t1)) = 2 /\
  getDay (bettingWindowEnd (getCurrentNFLWeekInfo t1)) = 4 /\
  getDay (picksRevealTime (getCurrentNFLWeekInfo t1)) = 5.
Proof.
  intros Hw Ht1.
  pose proof (proj1 (tuesdayDay_period w t1 Hw) Ht1) as Hd1.
  assert (Hwd : w = dayNumber w * msPerDay).
  { destruct Hw as [_ Hm]. unfold dayNumber, msPerDay in *.
    Z.div_mod_to_equations. lia. }
  assert (Hday : (dayNumber w + 4) mod 7 = 3) by (destruct Hw as [Hg _]; exact Hg).
  split; [|split].
  - intros Ht2. rewrite !weekInfo_eq.
    rewrite (proj1 (tuesdayDay_period w t2 Hw) Ht2), Hd1. reflexivity.
  - intros Hout E. apply Hout. apply (tuesdayDay_period w t2 Hw).
    rewrite <- Hd1. apply weekId_inj. exact E.
  - rewrite weekInfo_eq, Hd1.
    cbn [bettingWindowStart bettingWindowEnd picksRevealTime].
    split; [lia|]. split; [lia|]. split; [lia|].
    unfold getDay.
    rewrite !dayNumber_at by (unfold msPerDay; lia).
    repeat split; Z.div_mod_to_equations; lia.
Qed.

(** The theorem on the period that starts on Wednesday 2024-09-11 at 00:00;
    its instants belong to the week named after Tuesday 2024-09-17. *)
Lemma week_clock_periods_witness :
  (wednesdayMidnight wed_0000 /\ wed_0000 <= wed_1000 < wed_0000 + 7 * msPerDay) /\
  getCurrentNFLWeekInfo (wed_0000 + 6 * msPerDay) = getCurrentNFLWeekInfo wed_1000 /\
  wi_weekId (getCurrentNFLWeekInfo tue_1000)
    <> wi_weekId (getCurrentNFLWeekInfo wed_1000).
Proof.
  assert (Hw : wednesdayMidnight wed_0000) by (split; reflexivity).
  assert (Ht : wed_0000 <= wed_1000 < wed_0000 + 7 * msPerDay)
    by (unfold wed_0000, wed_1000, msPerDay; lia).
  split; [exact (conj Hw Ht)|].
  split.
  - apply (proj1 (week_clock_periods wed_0000 wed_1000 (wed_0000 + 6 * msPerDay) Hw Ht)).
    unfold wed_0000, msPerDay; lia.
  - apply (proj1 (proj2 (week_clock_periods wed_0000 wed_1000 tue_1000 Hw Ht))).
    unfold wed_0000, tue_1000, msPerDay; lia.
Defined.

(** C6 fails.  Tuesday 2024-09-10 10:00 and Wednesday 2024-09-11 10:00 both
    lie in the week that starts on that Tuesday at 00:01, and both lie in the
    betting window that the clock itself returns for that Tuesday (open
    until Thursday 17:00), yet the clock names the first week-2024-9-10 and
    the second week-2024-9-17.  The copy of the client does the same on the
    wall clock of its zone: in a browser seven hours behind UTC the instants
    at which the wall clock shows that Tuesday 10:00 and that Wednesday 10:00
    get these two ids. *)
Lemma week_from_tuesday_counterexample :
  tuesdayOneAM tue_0001 /\
  tue_0001 <= tue_1000 < tue_0001 + 7 * msPerDay /\
  tue_0001 <= wed_1000 < tue_0001 + 7 * msPerDay /\
  wi_weekId (getCurrentNFLWeekInfo tue_1000) = "week-2024-9-10" /\
  wi_weekId (getCurrentNFLWeekInfo wed_1000) = "week-2024-9-17" /\
  wi_weekId (getCurrentNFLWeekInfo tue_1000)
    <> wi_weekId (getCurrentNFLWeekInfo wed_1000) /\
  bettingWindowStart (getCurrentNFLWeekInfo tue_1000) <= wed_1000
    <= bettingWindowEnd (getCurrentNFLWeekInfo tue_1000) /\
  clientWeekId 0 tue_1000 = "week-2024-9-10" /\
  clientWeekId 0 wed_1000 = "week-2024-9-17" /\
  wallClock sevenHoursBehind (tue_1000 - sevenHoursBehind) = tue_1000 /\
  wallClock sevenHoursBehind (wed_1000 - sevenHoursBehind) = wed_1000 /\
  clientWeekId sevenHoursBehind (tue_1000 - sevenHoursBehind) = "week-2024-9-10" /\
  clientWeekId sevenHoursBehind (wed_1000 - sevenHoursBehind) = "week-2024-9-17".
Proof.
  split; [split; reflexivity|].
  split; [unfold tue_0001, tue_1000, msPerDay; lia|].
  split; [unfold tue_0001, wed_1000, msPerDay; lia|].
  split; [reflexivity|]. split; [reflexivity|].
  split; [vm_compute; discriminate|].
  split; [vm_compute; split; discriminate|].
  repeat split; vm_compute; reflexivity.
Qed.

(** ** Settlement engine *)

Section Settlement.

Variable games : list Game.



Lemma winnerOf_scores g h a :
  score g = {| home := Some h; away := Some a |} ->
  winnerOf g = if a <? h then Some (homeTeam g)
               else if h <? a then Some (awayTeam g) else None.
Proof. intros E. unfold winnerOf, parseInt. rewrite E. reflexivity. Qed.

Lemma decide_outcome_none p : decide_outcome p None = pending.
Proof. reflexivity. Qed.

Lemma decide_outcome_some p w :
  w <> "" ->
  decide_outcome p (Some w) = if String.eqb (pick p) w then win else loss.
Proof.
  intros Hw. unfold decide_outcome, truthy.
  destruct (String.eqb_spec w ""); [contradiction|]. simpl.
  destruct (String.eqb (pick p) w); reflexivity.
Qed.

Lemma decide_outcome_ext p q w :
  pick p = pick q -> decide_outcome p w = decide_outcome q w.
Proof. intros E. unfold decide_outcome. rewrite E. reflexivity. Qed.

(** What one iteration does to a pending pick on a completed game. *)
Lemma settlePick_pending gid p acc g :
  findGame games gid = Some g -> completed g = true -> outcome p = pending ->
  fst (settlePick games gid p acc) =
    let o := decide_outcome p (winnerOf g) in
    {| pick := pick p; tier := tier p; gameId := gameId p; outcome := o;
       winnings := match o with win => payout (tier p) | _ => ofZ 0 end |}.
Proof.
  intros Hf Hc Ho. unfold settlePick. rewrite Hf, Hc, Ho. cbv zeta.
  destruct (decide_outcome p (winnerOf g)); reflexivity.
Qed.

(** A decided pick is left as it is. *)
Lemma settlePick_decided gid p acc :
  outcome p <> pending -> fst (settlePick games gid p acc) = p.
Proof.
  intros Ho. unfold settlePick.
  destruct (findGame games gid) as [g|]; [|reflexivity].
  destruct (completed g); [|reflexivity].
  destruct (outcome p); [contradiction| |]; reflexivity.
Qed.

(** Running an iteration again on its own result changes nothing. *)
Lemma settlePick_idem gid p acc :
  settlePick games gid (fst (settlePick games gid p acc)) acc
  = settlePick games gid p acc.
Proof.
  unfold settlePick.
  destruct (findGame games gid) as [g|]; [|reflexivity].
  destruct (completed g); [|reflexivity].
  destruct (outcome p) eqn:Ho.
  - cbv zeta.
    destruct (decide_outcome p (winnerOf g)) eqn:Hd; cbn [fst outcome winnings].
    + rewrite (decide_outcome_ext _ p) by reflexivity. rewrite Hd. reflexivity.
    + reflexivity.
    + reflexivity.
  - cbn. rewrite Ho. reflexivity.
  - cbn. rewrite Ho. reflexivity.
Qed.

Lemma settlePick_key gid p acc acc' :
  fst (settlePick games gid p acc) = fst (settlePick games gid p acc').
Proof.
  unfold settlePick.
  destruct (findGame games gid) as [g|]; [|reflexivity].
  destruct (completed g); [|reflexivity].
  destruct (outcome p); [|reflexivity..].
  cbv zeta. destruct (decide_outcome p (winnerOf g)); reflexivity.
Qed.

Lemma settlePicks_idem ps : forall acc,
  settlePicks games (fst (settlePicks games ps acc)) acc = settlePicks games ps acc.
Proof.
  induction ps as [|[gid p] rest IH]; intros acc; [reflexivity|].
  cbn [settlePicks].
  destruct (settlePick games gid p acc) as [p1 acc1] eqn:E1.
  destruct (settlePicks games rest acc1) as [rest1 acc2] eqn:E2.
  cbn [fst settlePicks].
  assert (Hp : settlePick games gid p1 acc = (p1, acc1)).
  { pose proof (settlePick_idem gid p acc) as H.
    rewrite E1 in H. exact H. }
  rewrite Hp.
  specialize (IH acc1). rewrite E2 in IH. cbn [fst] in IH. rewrite IH.
  reflexivity.
Qed.

Lemma settle_idem s : settle games (settle games s) = settle games s.
Proof.
  unfold settle, applyUpdates. cbn [picks userId weekId tieBreakerPoints submittedAt sub_tier].
  rewrite settlePicks_idem. reflexivity.
Qed.

(** The picks after the loop, entry by entry. *)
Lemma settlePicks_entries ps : forall acc,
  Forall2 (fun old new => fst new = fst old /\
             snd new = fst (settlePick games (fst old) (snd old) acc))
          ps (fst (settlePicks games ps acc)).
Proof.
  induction ps as [|[gid p] rest IH]; intros acc; [constructor|].
  cbn [settlePicks].
  destruct (settlePick games gid p acc) as [p1 acc1] eqn:E1.
  specialize (IH acc1).
  destruct (settlePicks games rest acc1) as [rest1 acc2] eqn:E2.
  cbn [fst]. constructor.
  - cbn [fst snd]. rewrite E1. auto.
  - cbn [fst] in IH. eapply Forall2_impl; [exact IH|].
    intros old new [Hk Hv]. split; [exact Hk|].
    rewrite Hv. apply settlePick_key.
Qed.

(** [allGamesInThisSubmissionCompleted] after the loop. *)
Lemma settlePicks_allCompleted ps : forall acc,
  allCompleted (snd (settlePicks games ps acc)) =
  allCompleted acc &&
  forallb (fun e => match findGame games (fst e) with
                    | Some g => completed g
                    | None => false
                    end) ps.
Proof.
  induction ps as [|[gid p] rest IH]; intros acc.
  - cbn. rewrite andb_true_r. reflexivity.
  - cbn [settlePicks forallb fst].
    destruct (settlePick games gid p acc) as [p1 acc1] eqn:E1.
    specialize (IH acc1).
    destruct (settlePicks games rest acc1) as [rest1 acc2] eqn:E2.
    cbn [snd] in *. rewrite IH. rewrite andb_assoc. f_equal.
    unfold settlePick in E1.
    destruct (findGame games gid) as [g|].
    + destruct (completed g).
      * destruct (outcome p).
        -- cbv zeta in E1. destruct (decide_outcome p (winnerOf g));
             injection E1 as _ <-; cbn; rewrite andb_true_r; reflexivity.
        -- injection E1 as _ <-. cbn. rewrite andb_true_r; reflexivity.
        -- injection E1 as _ <-. rewrite andb_true_r; reflexivity.
      * injection E1 as _ <-. cbn. rewrite andb_false_r. reflexivity.
    + injection E1 as _ <-. cbn. rewrite andb_false_r. reflexivity.
Qed.

(** A settled submission is skipped. *)
Lemma settleUser_settled s b :
  isSettled s = true ->
  settleUser games {| predictions := Some s; winnerBucks := b |}
  = {| predictions := Some s; winnerBucks := b |}.
Proof. intros H. unfold settleUser. cbn. rewrite H. reflexivity. Qed.

Lemma creditOf_unsettled s s' : isSettled s' = false -> creditOf s s' = None.
Proof. intros H. unfold creditOf. rewrite H. reflexivity. Qed.

Lemma settleUser_unsettled s b :
  isSettled s = false ->
  settleUser games {| predictions := Some s; winnerBucks := b |}
  = {| predictions := Some (settle games s);
       winnerBucks := increment b (creditOf s (settle games s)) |}.
Proof. intros H. unfold settleUser. cbn. rewrite H. reflexivity. Qed.

Lemma settleUser_idem u : settleUser games (settleUser games u) = settleUser games u.
Proof.
  destruct u as [[s|] b]; [|reflexivity].
  destruct (isSettled s) eqn:Hs.
  - rewrite !(settleUser_settled _ _ Hs). reflexivity.
  - rewrite (settleUser_unsettled _ _ Hs).
    destruct (isSettled (settle games s)) eqn:Hs'.
    + apply settleUser_settled. exact Hs'.
    + rewrite (settleUser_unsettled _ _ Hs'), settle_idem.
      rewrite !(creditOf_unsettled _ _ Hs'). reflexivity.
Qed.

End Settlement.

(** A credit, when one is made, is the new total less the stored one, and
    it is only made by the run that settles the submission. *)
Lemma creditOf_amount (s s' : Submission) (c : number) :
  creditOf s s' = Some c ->
  isSettled s' = true /\
  c = nsub (totalWinnerBucksWon s') (orZero (totalWinnerBucksWon s)).
Proof.
  unfold creditOf. destruct (isSettled s'); [|discriminate].
  destruct (ngt _ _); [|discriminate]. intros [= <-]. auto.
Qed.

(** End-to-end scenario A of the specification: both picks win, 2 correct
    picks, 50 * 0.12 + 25 * 0.10 = 8.5 won, submission settled. *)
Example scenario_A :
  let s := settle gamesA (sampleSubmission picksA) in
  map (fun e => outcome (snd e)) (picks s) = [win; win] /\
  totalCorrectPicks s = 2 /\
  toQ (totalWinnerBucksWon s) = Some (17 # 2) /\
  isSettled s = true.
Proof. repeat split. Qed.

(** End-to-end scenario B: game 2 is still open, so pick 1 is a win, pick 2
    stays pending and the submission is not settled. *)
Example scenario_B :
  let s := settle gamesB (sampleSubmission picksA) in
  map (fun e => outcome (snd e)) (picks s) = [win; pending] /\
  totalCorrectPicks s = 1 /\
  toQ (totalWinnerBucksWon s) = Some (6 # 1) /\
  isSettled s = false.
Proof. repeat split. Qed.

(** C1 (amended).  For a pending pick whose game is completed with scores
    [h] (home) and [a] (away) and non-empty team names, the winner is the home
    team when [h > a], the away team when [a > h], and nobody when [h = a].
    If the winner is the picked team the pick becomes a win with winnings
    [tier * payoutMultiplier[tier]] (table 25 -> 0.10, 50 -> 0.12,
    100 -> 0.15, so 2.5, 6 and 15); if the winner is the other team it
    becomes a loss with winnings 0; if there is no winner the outcome stays
    pending and the winnings are set to 0. *)
Theorem settlePick_pending_completed
    (games : list Game) (gid : string) (p : Pick) (acc : Tally)
    (g : Game) (h a : Z) :
  findGame games gid = Some g -> completed g = true -> outcome p = pending ->
  score g = {| home := Some h; away := Some a |} ->
  homeTeam g <> "" -> awayTeam g <> "" ->
  let p' := fst (settlePick games gid p acc) in
  (a < h -> winnerOf g = Some (homeTeam g)) /\
  (h < a -> winnerOf g = Some (awayTeam g)) /\
  (h = a -> winnerOf g = None) /\
  (forall w, winnerOf g = Some w -> pick p = w ->
     outcome p' = win /\ winnings p' = payout (tier p)) /\
  (forall w, winnerOf g = Some w -> pick p <> w ->
     outcome p' = loss /\ winnings p' = ofZ 0) /\
  (winnerOf g = None -> outcome p' = pending /\ winnings p' = ofZ 0) /\
  (forall t m, payoutMultiplier t = Some m -> payout t = nmul (ofZ t) (Num m)) /\
  payoutMultiplier 25 = Some (Q2Qc (10 # 100)) /\
  payoutMultiplier 50 = Some (Q2Qc (12 # 100)) /\
  payoutMultiplier 100 = Some (Q2Qc (15 # 100)) /\
  toQ (payout 25) = Some (5 # 2) /\
  toQ (payout 50) = Some (6 # 1) /\
  toQ (payout 100) = Some (15 # 1).
Proof.
  intros Hf Hc Ho Hs Hh Ha p'.
  pose proof (winnerOf_scores g h a Hs) as Hw.
  assert (Hp : p' = _) by (exact (settlePick_pending games gid p acc g Hf Hc Ho)).
  cbv zeta in Hp.
  assert (Hne : forall w, winnerOf g = Some w -> w <> "").
  { intros w E. rewrite Hw in E.
    destruct (a <? h); [injection E as <-; exact Hh|].
    destruct (h <? a); [injection E as <-; exact Ha|discriminate]. }
  repeat match goal with |- _ /\ _ => split end.
  - intros H. rewrite Hw. destruct (Z.ltb_spec a h); [reflexivity|lia].
  - intros H. rewrite Hw. destruct (Z.ltb_spec a h); [lia|].
    destruct (Z.ltb_spec h a); [reflexivity|lia].
  - intros H. rewrite Hw. destruct (Z.ltb_spec a h); [lia|].
    destruct (Z.ltb_spec h a); [lia|reflexivity].
  - intros w E Hpick. rewrite Hp, E, (decide_outcome_some _ _ (Hne w E)).
    rewrite Hpick, String.eqb_refl. auto.
  - intros w E Hpick. rewrite Hp, E, (decide_outcome_some _ _ (Hne w E)).
    destruct (String.eqb_spec (pick p) w); [contradiction|]. auto.
  - intros E. rewrite Hp, E. auto.
  - intros t m E. unfold payout. rewrite E. reflexivity.
  - unfold payoutMultiplier. cbn. f_equal. apply Qc_is_canon. reflexivity.
  - reflexivity.
  - reflexivity.
  - reflexivity.
  - reflexivity.
  - reflexivity.
Qed.

(** The theorem at game 1 of scenario A: the tier-50 pick on the winning home
    team wins 6. *)
Lemma settlePick_pending_completed_witness :
  let p := samplePick "g1" "Bears" 50 in
  let g := sampleGame "g1" "Bears" "Lions" (Some 24) (Some 10) true in
  (findGame gamesA "g1" = Some g /\ completed g = true /\ outcome p = pending /\
   score g = {| home := Some 24; away := Some 10 |} /\
   homeTeam g <> "" /\ awayTeam g <> "") /\
  outcome (fst (settlePick gamesA "g1" p tally0)) = win /\
  winnings (fst (settlePick gamesA "g1" p tally0)) = payout 50.
Proof.
  intros p g.
  assert (H1 : findGame gamesA "g1" = Some g) by reflexivity.
  assert (H2 : completed g = true) by reflexivity.
  assert (H3 : outcome p = pending) by reflexivity.
  assert (H4 : score g = {| home := Some 24; away := Some 10 |}) by reflexivity.
  assert (H5 : homeTeam g <> "") by discriminate.
  assert (H6 : awayTeam g <> "") by discriminate.
  split; [repeat split; assumption|].
  pose proof (settlePick_pending_completed gamesA "g1" p tally0 g 24 10
                H1 H2 H3 H4 H5 H6) as T.
  cbv zeta in T.
  destruct T as (Thome & _ & _ & Twin & _).
  apply (Twin "Bears"); [apply Thome; lia | reflexivity].
Defined.

(** C1, as stated, fails where the scores are equal: the pending pick on the
    20-20 game is not set to a loss. *)
Lemma settlePick_tie_not_loss :
  outcome tiedPick = pending /\
  findGame tiedGames "g1" =
    Some (sampleGame "g1" "Bears" "Lions" (Some 20) (Some 20) true) /\
  outcome (fst (settlePick tiedGames "g1" tiedPick tally0)) = pending /\
  outcome (fst (settlePick tiedGames "g1" tiedPick tally0)) <> loss.
Proof. repeat split. discriminate. Qed.

(** C5.  A second settlement run on the result of the first, with the same
    games, leaves [totalCorrectPicks], [totalWinnerBucksWon] and the picks as
    the first run left them; a pick that was already a win or a loss is never
    recomputed; and a second pass over a user changes neither the
    predictions document nor the credited balance. *)
Theorem settlement_twice_same_totals
    (games : list Game) (s : Submission) (u : UserState) :
  totalCorrectPicks (settle games (settle games s))
    = totalCorrectPicks (settle games s) /\
  totalWinnerBucksWon (settle games (settle games s))
    = totalWinnerBucksWon (settle games s) /\
  picks (settle games (settle games s)) = picks (settle games s) /\
  Forall2 (fun old new => fst new = fst old /\
             (outcome (snd old) <> pending -> snd new = snd old))
          (picks s) (picks (settle games s)) /\
  settleUser games (settleUser games u) = settleUser games u /\
  creditedBy games (settleUser games u) = None.
Proof.
  rewrite settle_idem. repeat split.
  - unfold settle, applyUpdates. cbn [picks].
    eapply Forall2_impl; [apply settlePicks_entries|].
    intros old new [Hk Hv]. split; [exact Hk|].
    intros Hd. rewrite Hv. apply settlePick_decided. exact Hd.
  - apply settleUser_idem.
  - destruct u as [[s0|] b]; [|reflexivity].
    destruct (isSettled s0) eqn:Hs.
    + rewrite (settleUser_settled _ _ _ Hs). unfold creditedBy.
      cbn [predictions]. rewrite Hs. reflexivity.
    + rewrite (settleUser_unsettled _ _ _ Hs). unfold creditedBy.
      cbn [predictions].
      destruct (isSettled (settle games s0)) eqn:Hs'; cbn [negb]; [reflexivity|].
      apply creditOf_unsettled. rewrite settle_idem. exact Hs'.
Qed.

(** C2 fails on the code.  Scenario B then scenario A: the first pass settles
    game 1 (6 won) and stores the total without crediting, because game 2 is
    open; the second pass computes 8.5 and credits 8.5 - 6 = 2.5.  The
    balance goes from 1 to 3.5 although the settled submission won 8.5. *)
Theorem partial_settlement_loses_winnings :
  let u1 := settleUser gamesB userA in
  let u2 := settleUser gamesA u1 in
  creditedBy gamesB userA = None /\
  option_map (fun s => toQ (totalWinnerBucksWon s)) (predictions u1) = Some (Some (6 # 1)) /\
  option_map isSettled (predictions u1) = Some false /\
  option_map toQ (creditedBy gamesA u1) = Some (Some (5 # 2)) /\
  option_map (fun s => toQ (totalWinnerBucksWon s)) (predictions u2) = Some (Some (17 # 2)) /\
  option_map isSettled (predictions u2) = Some true /\
  toQ (winnerBucks userA) = Some (1 # 1) /\
  toQ (winnerBucks u2) = Some (7 # 2).
Proof. vm_compute. repeat split. Qed.

(** Case analysis along the exits of a pass: no provider key, no week
    document, a failed request, a throw in the merge; [early] closes each of
    them and the goal that remains is the pass that ran to its end. *)
Ltac pass_cases k o sc st early :=
  try unfold syncNflDataAndSettle;
  destruct k; [|early]; cbn [negb];
  destruct (nflWeeks st !! _) as [currentWeekFirestoreData|]; [|early];
  destruct o as [apiOddsData|]; [|early];
  destruct sc as [apiScoresData|]; [|early];
  destruct (gameMerge apiOddsData apiScoresData currentWeekFirestoreData)
    as [[updatedWeekGames actual]|]; [|early].

(** ** Settled submissions across passes *)

Section SettledForGood.











End SettledForGood.



(** ** [Array.prototype.sort] with a consistent comparator *)

Section SortSpec.
Context {A : Type} (cmp : A -> A -> number).
Context (R : A -> A -> Prop) (P : A -> Prop).

(** On the elements of [P] a non-positive comparison licenses the order and
    a positive one licenses the reverse order. *)
Hypothesis keep_ok : forall x y, P x -> P y -> ngt (cmp x y) (ofZ 0) = false -> R x y.
Hypothesis swap_ok : forall x y, P x -> P y -> ngt (cmp x y) (ofZ 0) = true -> R y x.

Lemma insertBy_perm x l : Permutation (x :: l) (insertBy cmp x l).
Proof.
  induction l as [|y r IH]; cbn [insertBy]; [reflexivity|].
  destruct (ngt (cmp x y) (ofZ 0)); [|reflexivity].
  rewrite perm_swap. constructor. exact IH.
Qed.

Lemma sortBy_perm l : Permutation l (sortBy cmp l).
Proof.
  induction l as [|x l IH]; [reflexivity|].
  unfold sortBy in *. cbn [foldr].
  rewrite <- insertBy_perm. constructor. exact IH.
Qed.

Lemma insertBy_P x l : P x -> Forall P l -> Forall P (insertBy cmp x l).
Proof.
  intros Hx Hl. eapply Permutation_Forall; [apply insertBy_perm|].
  constructor; assumption.
Qed.

Lemma insertBy_HdRel z x l :
  R z x -> HdRel R z l -> HdRel R z (insertBy cmp x l).
Proof.
  intros Hzx Hzl. destruct l as [|y r]; cbn [insertBy]; [constructor; exact Hzx|].
  destruct (ngt (cmp x y) (ofZ 0)); constructor.
  - inversion Hzl; assumption.
  - exact Hzx.
Qed.

Lemma insertBy_sorted x l :
  P x -> Forall P l -> Sorted R l -> Sorted R (insertBy cmp x l).
Proof.
  intros Hx. induction l as [|y r IH]; intros HP HS; cbn [insertBy].
  - repeat constructor.
  - inversion HP as [|? ? Hy Hr]; subst. inversion HS as [|? ? HSr Hhd]; subst.
    destruct (ngt (cmp x y) (ofZ 0)) eqn:E.
    + constructor; [apply IH; assumption|].
      apply insertBy_HdRel; [apply swap_ok; assumption|assumption].
    + constructor; [exact HS|]. constructor. apply keep_ok; assumption.
Qed.

Lemma sortBy_P l : Forall P l -> Forall P (sortBy cmp l).
Proof. intros H. eapply Permutation_Forall; [apply sortBy_perm|exact H]. Qed.

Lemma sortBy_sorted l : Forall P l -> Sorted R (sortBy cmp l).
Proof.
  induction l as [|x l IH]; intros HP; [constructor|].
  inversion HP; subst. unfold sortBy in *. cbn [foldr].
  apply insertBy_sorted; [assumption|apply sortBy_P; assumption|auto].
Qed.
End SortSpec.

(** A list already in comparator order is returned as it is. *)
Lemma sortBy_fixed {A : Type} (cmp : A -> A -> number) (l : list A) :
  Sorted (fun x y => ngt (cmp x y) (ofZ 0) = false) l -> sortBy cmp l = l.
Proof.
  induction 1 as [|x l HS IH Hhd]; [reflexivity|].
  unfold sortBy in *. cbn [foldr]. rewrite IH.
  destruct Hhd as [|y r Hxy]; [reflexivity|].
  cbn [insertBy]. rewrite Hxy. reflexivity.
Qed.

(** ** Leaderboard builder *)

Section LeaderboardOrder.

Variable actualTotal : Z.

Lemma Qc_eqb_eq x y : Qc_eqb x y = true <-> x = y.
Proof.
  unfold Qc_eqb. rewrite Qceq_alt. destruct (x ?= y)%Qc; split; congruence.
Qed.

Lemma Qc_ltb_lt x y : Qc_ltb x y = true <-> (x < y)%Qc.
Proof.
  unfold Qc_ltb. rewrite Qclt_alt. destruct (x ?= y)%Qc; split; congruence.
Qed.

Lemma ngt_ofZ z : ngt (ofZ z) (ofZ 0) = (0 <? z).
Proof.
  unfold ngt, ofZ.
  destruct (Z.ltb_spec 0 z) as [H|H].
  - apply Qc_ltb_lt. apply (proj1 (Z2Qc_inj_lt 0 z)). exact H.
  - destruct (Qc_ltb (Qc_of_Z 0) (Qc_of_Z z)) eqn:E; [|reflexivity].
    apply Qc_ltb_lt in E. apply (proj2 (Z2Qc_inj_lt 0 z)) in E. lia.
Qed.

Lemma ngt_sub x y : ngt (nsub (Num x) (Num y)) (ofZ 0) = Qc_ltb y x.
Proof.
  unfold ngt, nsub, ofZ. rewrite Z2Qc_inj_0.
  destruct (Qc_ltb y x) eqn:E.
  - apply Qc_ltb_lt. apply Qc_ltb_lt in E.
    apply (Qcplus_lt_mono_r _ _ y). ring_simplify. exact E.
  - destruct (Qc_ltb 0 (x - y)) eqn:E'; [|reflexivity].
    apply Qc_ltb_lt in E'. apply (Qcplus_lt_mono_r _ _ y) in E'.
    ring_simplify in E'. apply Qc_ltb_lt in E'. congruence.
Qed.

Lemma compare_keep a b :
  finiteEntry a -> finiteEntry b ->
  ngt (compareEntries actualTotal a b) (ofZ 0) = false -> ranksBefore actualTotal a b.
Proof.
  unfold finiteEntry, compareEntries, ranksBefore.
  destruct (entry_totalWinnerBucksWon a) as [|wa]; [contradiction|].
  destruct (entry_totalWinnerBucksWon b) as [|wb]; [contradiction|].
  intros _ _.
  destruct (Z.eqb_spec (entry_totalCorrectPicks b) (entry_totalCorrectPicks a)) as [Hc|Hc];
    cbn [negb].
  - unfold nne. destruct (Qc_eqb wb wa) eqn:Hw; cbn [negb].
    + apply Qc_eqb_eq in Hw. subst wb. rewrite ngt_ofZ.
      intros H. apply Z.ltb_ge in H. right. split; [auto|]. right. split; [reflexivity|lia].
    + rewrite ngt_sub. intros H. right. split; [auto|].
      destruct (Qclt_le_dec wb wa) as [Hlt|Hle]; [left; exact Hlt|].
      exfalso. apply Qcle_lt_or_eq in Hle as [Hlt| ->].
      * apply Qc_ltb_lt in Hlt. congruence.
      * assert (Qc_eqb wb wb = true) by (apply Qc_eqb_eq; reflexivity). congruence.
  - rewrite ngt_ofZ. intros H. apply Z.ltb_ge in H. left. lia.
Qed.

Lemma compare_swap a b :
  finiteEntry a -> finiteEntry b ->
  ngt (compareEntries actualTotal a b) (ofZ 0) = true -> ranksBefore actualTotal b a.
Proof.
  unfold finiteEntry, compareEntries, ranksBefore.
  destruct (entry_totalWinnerBucksWon a) as [|wa]; [contradiction|].
  destruct (entry_totalWinnerBucksWon b) as [|wb]; [contradiction|].
  intros _ _.
  destruct (Z.eqb_spec (entry_totalCorrectPicks b) (entry_totalCorrectPicks a)) as [Hc|Hc];
    cbn [negb].
  - unfold nne. destruct (Qc_eqb wb wa) eqn:Hw; cbn [negb].
    + apply Qc_eqb_eq in Hw. subst wb. rewrite ngt_ofZ.
      intros H. apply Z.ltb_lt in H. right. split; [auto|]. right. split; [reflexivity|lia].
    + rewrite ngt_sub. intros H. apply Qc_ltb_lt in H. right. split; [auto|].
      left. exact H.
  - rewrite ngt_ofZ. intros H. apply Z.ltb_lt in H. left. lia.
Qed.

Lemma ranksBefore_trans a b c :
  ranksBefore actualTotal a b -> ranksBefore actualTotal b c ->
  ranksBefore actualTotal a c.
Proof.
  unfold ranksBefore, numLt.
  intros [H1|[E1 H1]] [H2|[E2 H2]]; [left; lia|left; lia|left; lia|].
  right. split; [lia|].
  destruct (entry_totalWinnerBucksWon a) as [|wa],
           (entry_totalWinnerBucksWon b) as [|wb],
           (entry_totalWinnerBucksWon c) as [|wc];
    destruct H1 as [H1|[H1 D1]], H2 as [H2|[H2 D2]];
    try contradiction; try discriminate.
  all: try (right; split; [reflexivity|lia]).
  - left. eapply Qclt_trans; eassumption.
  - left. injection H2 as ->. exact H1.
  - left. injection H1 as ->. exact H2.
  - right. split; [congruence|lia].
Qed.

End LeaderboardOrder.

(** The sort of the builder on entries with finite winnings. *)
Lemma sortLeaderboard_sorted (actualTotal : Z) (es : list Entry) :
  Forall finiteEntry es ->
  StronglySorted (ranksBefore actualTotal) (sortLeaderboard actualTotal es) /\
  sortLeaderboard actualTotal (sortLeaderboard actualTotal es)
    = sortLeaderboard actualTotal es.
Proof.
  intros Hfin. unfold sortLeaderboard. split.
  - apply Sorted_StronglySorted.
    + intros a b c. apply ranksBefore_trans.
    + apply (sortBy_sorted _ _ finiteEntry);
        [apply compare_keep | apply compare_swap | exact Hfin].
  - apply sortBy_fixed.
    apply (sortBy_sorted _ _ finiteEntry); [auto| |exact Hfin].
    intros x y Hx Hy H.
    (* a positive comparison one way is a non-positive one the other way *)
    destruct (ngt (compareEntries actualTotal y x) (ofZ 0)) eqn:E; [|reflexivity].
    exfalso. revert H E Hx Hy. unfold finiteEntry, compareEntries.
    destruct (entry_totalWinnerBucksWon x) as [|wx]; [contradiction|].
    destruct (entry_totalWinnerBucksWon y) as [|wy]; [contradiction|].
    rewrite (Z.eqb_sym (entry_totalCorrectPicks x)).
    destruct (Z.eqb_spec (entry_totalCorrectPicks y) (entry_totalCorrectPicks x));
      cbn [negb].
    + unfold nne.
      assert (Hsym : Qc_eqb wx wy = Qc_eqb wy wx).
      { destruct (Qc_eqb wy wx) eqn:E1.
        - apply Qc_eqb_eq. apply Qc_eqb_eq in E1. congruence.
        - destruct (Qc_eqb wx wy) eqn:E2; [|reflexivity].
          apply Qc_eqb_eq in E2. subst.
          assert (Qc_eqb wy wy = true) by (apply Qc_eqb_eq; reflexivity). congruence. }
      rewrite Hsym. destruct (Qc_eqb wy wx); cbn [negb].
      * rewrite !ngt_ofZ. intros H1 H2 _ _. apply Z.ltb_lt in H1, H2. lia.
      * rewrite !ngt_sub. intros H1 H2 _ _. apply Qc_ltb_lt in H1, H2.
        exact (Qclt_not_eq _ _ (Qclt_trans _ _ _ H1 H2) eq_refl).
    + rewrite !ngt_ofZ. intros H1 H2 _ _. apply Z.ltb_lt in H1, H2. lia.
Qed.

(** The entries collected from users with finite stored totals are finite. *)
Lemma entries_finite (wk : string) (us : list User) :
  Forall (finiteTotals wk) us -> Forall finiteEntry (omap (entryOf wk) us).
Proof.
  induction 1 as [|u us Hu _ IH]; [constructor|].
  cbn [omap list_omap]. unfold entryOf at 1.
  destruct (doc_predictions (userDocData u) !! wk) as [p|] eqn:Hp; [|exact IH].
  destruct (isSettled p) eqn:Hs; [|exact IH].
  constructor; [|exact IH]. exact (Hu p Hp Hs).
Qed.

(** The leaderboard document written by a pass is the one of the builder on
    the users as the pass leaves them, whose user documents it has not
    touched. *)
Lemma written_leaderboard_sorted
    (apiKey : bool) (now : Z) (oddsResponse : option (list OddsEvent))
    (scoresResponse : option (list ScoreEvent)) (st : Store) (lb : Leaderboard) :
  leaderboardWritten (syncNflDataAndSettle apiKey now oddsResponse scoresResponse st)
    = Some lb ->
  Forall (finiteTotals (wi_weekId (getCurrentNFLWeekInfo now))) (users st) ->
  exists actualTotal,
    lb_actualTieBreakerTotalPoints lb = Some actualTotal /\
    Permutation (omap (entryOf (wi_weekId (getCurrentNFLWeekInfo now))) (users st))
                (entries lb) /\
    StronglySorted (ranksBefore actualTotal) (entries lb).
Proof.
  intros H Hfin. revert H. unfold syncNflDataAndSettle.
  generalize dependent (getCurrentNFLWeekInfo now). intros weekInfo Hfin.
  pass_cases apiKey oddsResponse scoresResponse st ltac:(discriminate).
  cbn [leaderboardWritten]. unfold leaderboardPhase.
  cbn [actualTieBreakerTotalPoints games syncedWeekDoc].
  destruct actual as [total|]; [|discriminate].
  destruct (forallb completed updatedWeekGames); [|discriminate].
  intros [= <-]. exists total. cbn [lb_actualTieBreakerTotalPoints entries].
  assert (Hsame : omap (entryOf (wi_weekId weekInfo))
                    (map (settleUserDocs (wi_weekId weekInfo) updatedWeekGames) (users st))
                  = omap (entryOf (wi_weekId weekInfo)) (users st)).
  { clear. induction (users st) as [|u us IH]; [reflexivity|].
    cbn [map omap list_omap]. rewrite IH. reflexivity. }
  rewrite Hsame. split; [reflexivity|]. split; [apply sortBy_perm|].
  exact (proj1 (sortLeaderboard_sorted total _ (entries_finite _ _ Hfin))).
Qed.

(** C7 (amended).  When the stored totals that the builder reads are finite
    numbers, the leaderboard document it builds lists the collected entries
    so that every entry ranks before all later ones by correct picks
    descending, then winnings descending, then distance of the tie-breaker
    guess to the actual total ascending; the builder is a function, so
    identical input gives identical output, and sorting the built entries
    again returns them unchanged; with actual total 50 the user who guessed
    48 is placed above the one who guessed 55, whichever of the two the
    builder reads first. *)
Theorem leaderboard_order
    (weekInfo : WeekInfo) (updatedWeekData : WeekDoc) (us : list User)
    (lb : Leaderboard) :
  leaderboardPhase weekInfo updatedWeekData us = Some lb ->
  Forall (finiteTotals (wi_weekId weekInfo)) us ->
  exists actualTotal,
    actualTieBreakerTotalPoints updatedWeekData = Some actualTotal /\
    Permutation (omap (entryOf (wi_weekId weekInfo)) us) (entries lb) /\
    StronglySorted (ranksBefore actualTotal) (entries lb) /\
    sortLeaderboard actualTotal (entries lb) = entries lb /\
    (forall us', us' = us ->
       leaderboardPhase weekInfo updatedWeekData us' = Some lb) /\
    option_map entries
      (leaderboardPhase (getCurrentNFLWeekInfo tue_1000) scenarioDWeek
         [docUserY; docUserX]) = Some [userX; userY] /\
    option_map entries
      (leaderboardPhase (getCurrentNFLWeekInfo tue_1000) scenarioDWeek
         [docUserX; docUserY]) = Some [userX; userY].
Proof.
  intros Hlb Hfin. revert Hlb. unfold leaderboardPhase at 1.
  destruct (actualTieBreakerTotalPoints updatedWeekData) as [actualTotal|] eqn:Ht;
    [|discriminate].
  destruct (forallb completed (games updatedWeekData)) eqn:Hall; [|discriminate].
  intros [= <-]. exists actualTotal. cbn [entries].
  pose proof (entries_finite _ _ Hfin) as He.
  destruct (sortLeaderboard_sorted actualTotal _ He) as [Hsorted Hfix].
  split; [reflexivity|]. split; [apply sortBy_perm|].
  split; [exact Hsorted|]. split; [exact Hfix|].
  split; [intros us' ->; unfold leaderboardPhase; rewrite Ht, Hall; reflexivity|].
  split; vm_compute; reflexivity.
Qed.

(** The theorem on scenario D, with Y read before X. *)
Lemma leaderboard_order_witness :
  exists lb,
    leaderboardPhase (getCurrentNFLWeekInfo tue_1000) scenarioDWeek [docUserY; docUserX]
      = Some lb /\
    Forall (finiteTotals (wi_weekId (getCurrentNFLWeekInfo tue_1000)))
           [docUserY; docUserX] /\
    StronglySorted (ranksBefore 50) (entries lb).
Proof.
  assert (Hfin : Forall (finiteTotals (wi_weekId (getCurrentNFLWeekInfo tue_1000)))
                        [docUserY; docUserX]).
  { repeat constructor; intros p Hp _; vm_compute in Hp;
      injection Hp as Hp; subst p; exact I. }
  destruct (leaderboardPhase (getCurrentNFLWeekInfo tue_1000) scenarioDWeek
              [docUserY; docUserX]) as [lb|] eqn:E.
  - exists lb. split; [reflexivity|]. split; [exact Hfin|].
    destruct (leaderboard_order _ _ _ _ E Hfin) as (t & Ht & _ & Hs & _).
    injection Ht as Ht. subst t. exact Hs.
  - vm_compute in E. discriminate E.
Defined.

(** C7, as stated, fails for a total that is NaN (the winnings of a pick
    whose tier is not in the payout table).  The builder reads three users
    with 2 correct picks and totals 5, NaN and 8: every comparison with the
    NaN total returns NaN, which the sort reads as 0, so the three entries
    stay as they were collected and the entry that won 5 is listed above the
    entry that won 8. *)
Lemma leaderboard_order_nan_counterexample :
  option_map (fun lb => map (fun e => (entry_id e, entry_totalCorrectPicks e,
                                       toQ (entry_totalWinnerBucksWon e)))
                            (entries lb))
    (leaderboardPhase (getCurrentNFLWeekInfo tue_1000) scenarioDWeek
       [lowUser; nanUser; highUser])
  = Some [("a", 2, Some (5 # 1)%Q); ("b", 2, None); ("c", 2, Some (8 # 1)%Q)] /\
  omap (entryOf (wi_weekId (getCurrentNFLWeekInfo tue_1000))) [lowUser; nanUser; highUser]
  = [ {| entry_id := "a"; username := "A"; entry_totalCorrectPicks := 2;
         entry_totalWinnerBucksWon := ofZ 5; entry_tieBreakerPoints := 50 |};
      {| entry_id := "b"; username := "B"; entry_totalCorrectPicks := 2;
         entry_totalWinnerBucksWon := NaN; entry_tieBreakerPoints := 50 |};
      {| entry_id := "c"; username := "C"; entry_totalCorrectPicks := 2;
         entry_totalWinnerBucksWon := ofZ 8; entry_tieBreakerPoints := 50 |} ] /\
  toQ (compareEntries 50 {| entry_id := "b"; username := "B";
                            entry_totalCorrectPicks := 2;
                            entry_totalWinnerBucksWon := NaN;
                            entry_tieBreakerPoints := 50 |}
                         {| entry_id := "a"; username := "A";
                            entry_totalCorrectPicks := 2;
                            entry_totalWinnerBucksWon := ofZ 5;
                            entry_tieBreakerPoints := 50 |}) = None /\
  toQ (compareEntries 50 {| entry_id := "c"; username := "C";
                            entry_totalCorrectPicks := 2;
                            entry_totalWinnerBucksWon := ofZ 8;
                            entry_tieBreakerPoints := 50 |}
                         {| entry_id := "b"; username := "B";
                            entry_totalCorrectPicks := 2;
                            entry_totalWinnerBucksWon := NaN;
                            entry_tieBreakerPoints := 50 |}) = None.
Proof. repeat split; vm_compute; reflexivity. Qed.

(** ** Game merge *)

Section GameMerge.

Variables (apiScoresData : list ScoreEvent) (apiOddsData : list OddsEvent).
Variable tb : option string.

(** [completed] after the callback, when it does not throw. *)
Lemma mergeGame_fields game actual g' a' :
  mergeGame apiScoresData apiOddsData tb game actual = Ok (g', a') ->
  game_id g' = game_id game /\
  completed g' = match liveScore apiScoresData game with
                 | Some s => if score_completed s then true
                             else if isNull (scores s) then completed game else false
                 | None => completed game
                 end.
Proof.
  unfold mergeGame, liveScore.
  destruct (find _ apiScoresData) as [s|]; cbn.
  - destruct (score_completed s); destruct (scores s) as [ss|]; cbn;
      try discriminate;
      (destruct (find _ apiOddsData) as [o|]; cbn;
       [destruct (firstH2H o) as [[m|]|]; cbn; try discriminate|];
       intros [= <- <-]; auto).
  - destruct (find _ apiOddsData) as [o|]; cbn;
      [destruct (firstH2H o) as [[m|]|]; cbn; try discriminate|];
      intros [= <- <-]; auto.
Qed.



End GameMerge.




(** ** The scheduled pass *)

(** The leaderboard collection after a pass: the written document is the
    only change. *)
Lemma sync_leaderboards k now o sc st :
  leaderboards (after (syncNflDataAndSettle k now o sc st)) =
  match leaderboardWritten (syncNflDataAndSettle k now o sc st) with
  | Some lb => <[wi_weekId (getCurrentNFLWeekInfo now) := lb]> (leaderboards st)
  | None => leaderboards st
  end.
Proof. pass_cases k o sc st ltac:(reflexivity). reflexivity. Qed.

(** The week document after a pass: left as it was when the pass stops
    early, and otherwise rewritten with a null [tieBreakerGameId]. *)
Lemma sync_week_doc k now o sc st :
  let wk := wi_weekId (getCurrentNFLWeekInfo now) in
  nflWeeks (after (syncNflDataAndSettle k now o sc st)) = nflWeeks st \/
  exists d, nflWeeks (after (syncNflDataAndSettle k now o sc st)) !! wk = Some d /\
            tieBreakerGameId d = None.
Proof.
  pass_cases k o sc st ltac:(left; reflexivity).
  right. eexists. cbn [after nflWeeks]. split; [apply lookup_insert_eq|reflexivity].
Qed.

(** C8.  A pass writes a leaderboard document only for its own week and only
    if, in the week document it has just stored, every game is completed and
    the tie-breaker total is not null; the document written is then the only
    change to the leaderboards. *)
Theorem leaderboard_written_only_when_complete
    (apiKey : bool) (now : Z) (oddsResponse : option (list OddsEvent))
    (scoresResponse : option (list ScoreEvent)) (st : Store) (lb : Leaderboard) :
  leaderboardWritten (syncNflDataAndSettle apiKey now oddsResponse scoresResponse st)
    = Some lb ->
  exists wd,
    nflWeeks (after (syncNflDataAndSettle apiKey now oddsResponse scoresResponse st))
      !! wi_weekId (getCurrentNFLWeekInfo now) = Some wd /\
    Forall (fun g => completed g = true) (games wd) /\
    actualTieBreakerTotalPoints wd <> None /\
    lb_weekId lb = wi_weekId (getCurrentNFLWeekInfo now) /\
    lb_actualTieBreakerTotalPoints lb = actualTieBreakerTotalPoints wd /\
    leaderboards (after (syncNflDataAndSettle apiKey now oddsResponse scoresResponse st))
      = <[wi_weekId (getCurrentNFLWeekInfo now) := lb]> (leaderboards st).
Proof.
  intros H. pose proof (sync_leaderboards apiKey now oddsResponse scoresResponse st) as HL.
  rewrite H in HL. revert H HL.
  unfold syncNflDataAndSettle.
  generalize (getCurrentNFLWeekInfo now) as weekInfo. intros weekInfo.
  pass_cases apiKey oddsResponse scoresResponse st ltac:(discriminate).
  cbn [after leaderboardWritten nflWeeks]. unfold leaderboardPhase.
  cbn [actualTieBreakerTotalPoints games syncedWeekDoc].
  destruct actual as [total|]; [|discriminate].
  destruct (forallb completed updatedWeekGames) eqn:Hall; [|discriminate].
  intros [= <-] HL. eexists. split; [apply lookup_insert_eq|].
  cbn [games actualTieBreakerTotalPoints syncedWeekDoc lb_weekId
       lb_actualTieBreakerTotalPoints].
  split; [|split; [discriminate|split; [reflexivity|split; [reflexivity|exact HL]]]].
  apply Forall_forall. intros g Hg. rewrite forallb_forall in Hall.
  apply Hall. apply list_elem_of_In. exact Hg.
Qed.

(** The theorem on the pass that receives the final scores of both games. *)
Lemma leaderboard_written_only_when_complete_witness :
  let r := syncNflDataAndSettle true tue_1000 (Some sampleEvents) (Some finalScores)
             fetchedStore in
  leaderboardWritten r
    = Some {| lb_weekId := sampleWeekId; entries := [];
              lb_actualTieBreakerTotalPoints := Some 34 |} /\
  exists wd, sampleWeekDoc (after r) = Some wd /\
             Forall (fun g => completed g = true) (games wd) /\
             actualTieBreakerTotalPoints wd <> None.
Proof.
  intros r.
  assert (H : leaderboardWritten r
              = Some {| lb_weekId := sampleWeekId; entries := [];
                        lb_actualTieBreakerTotalPoints := Some 34 |})
    by (vm_compute; reflexivity).
  split; [exact H|].
  destruct (leaderboard_written_only_when_complete _ _ _ _ _ _ H)
    as (wd & Hwd & Hall & Hact & _).
  exists wd. split; [|split; assumption].
  exact Hwd.
Defined.

(** C3 fails on the code.  After the first fetch the tie-breaker is game 2.
    A scheduled pass rewrites the week document with the [weekInfo] of the
    clock, whose [tieBreakerGameId] is null; a repeated fetch that lists a
    later fixture replaces it by that fixture, and one that lists nothing
    replaces it by null. *)
Theorem tieBreakerGameId_not_kept :
  tieBreakerGameId <$> sampleWeekDoc fetchedStore = Some (Some "g2") /\
  tieBreakerGameId <$> sampleWeekDoc
      (after (syncNflDataAndSettle true tue_1000 (Some sampleEvents) (Some [])
                fetchedStore)) = Some None /\
  tieBreakerGameId <$> sampleWeekDoc
      (getNFLOdds true tue_1000 (Some laterEvents) fetchedStore) = Some (Some "g3") /\
  tieBreakerGameId <$> sampleWeekDoc
      (getNFLOdds true tue_1000 (Some []) fetchedStore) = Some None.
Proof. vm_compute. repeat split. Qed.

(** C9 fails on the scheduled path.  The on-demand normalizer gives an empty
    [odds.moneyline] for a record without bookmakers, with an empty list of
    them, or without an h2h market.  On the scheduled path a record without
    a [bookmakers] field throws, which aborts the pass before any write, and
    a record with no bookmakers is appended with an [odds] object that has
    no [moneyline] field. *)
Theorem sync_normalizer_differs :
  (forall event,
     bookmakers event = None \/ bookmakers event = Some [] \/
     (exists b bs, bookmakers event = Some (b :: bs) /\ findH2H (markets b) = None) ->
     moneyline (odds (normalizeEvent event)) = Some ∅) /\
  newGame noBookmakersEvent = Throw /\
  gameMerge [noBookmakersEvent] [] finishedWeek = Throw /\
  after (syncNflDataAndSettle true tue_1000 (Some [noBookmakersEvent]) (Some [])
           fetchedStore) = fetchedStore /\
  option_map (fun g => moneyline (odds g)) (okValue (newGame emptyBookmakersEvent))
    = Some None /\
  moneyline (odds (normalizeEvent emptyBookmakersEvent)) = Some ∅.
Proof.
  split; [|repeat split].
  intros event [H|[H|(b & bs & H & Hm)]]; unfold normalizeEvent; rewrite H; cbn;
    rewrite ?Hm; reflexivity.
Qed.

(* ===================================================================== *)
(** * Part II, continued: further properties of the code                  *)
(* ===================================================================== *)

(** ** Settlement engine: aggregates, fields, credits *)

Section SettlementMore.

Variable games : list Game.

(** One iteration on the running totals, read off the resulting pick. *)
Lemma settlePick_tally gid p acc :
  let r := settlePick games gid p acc in
  let counted := gameCompleted games gid && isWin (outcome (fst r)) in
  correct (snd r) = correct acc + (if counted then 1 else 0) /\
  won (snd r) = (if counted then nadd (won acc) (winnings (fst r)) else won acc).
Proof.
  unfold settlePick, gameCompleted.
  destruct (findGame games gid) as [g|]; [|cbn; split; [lia|reflexivity]].
  destruct (completed g); [|cbn; split; [lia|reflexivity]].
  destruct (outcome p) eqn:Ho.
  - cbv zeta. destruct (decide_outcome p (winnerOf g)); cbn;
      split; try lia; reflexivity.
  - cbn. rewrite Ho. cbn. split; [lia|reflexivity].
  - cbn. rewrite Ho. cbn. split; [lia|reflexivity].
Qed.

(** One iteration keeps the selection, and keeps winnings at zero on a pick
    that is not a win. *)
Lemma settlePick_fields gid p acc :
  let p' := fst (settlePick games gid p acc) in
  pick p' = pick p /\ tier p' = tier p /\ gameId p' = gameId p /\
  (outcome p = win -> outcome p' = win) /\
  (outcome p = loss -> outcome p' = loss) /\
  (noWinningsUnlessWin p -> noWinningsUnlessWin p').
Proof.
  unfold settlePick, noWinningsUnlessWin.
  destruct (findGame games gid) as [g|]; [|cbn; tauto].
  destruct (completed g); [|cbn; tauto].
  destruct (outcome p) eqn:Ho.
  - cbv zeta. destruct (decide_outcome p (winnerOf g)); cbn;
      repeat split; try discriminate; try tauto; intros; congruence.
  - cbn. rewrite Ho. tauto.
  - cbn. rewrite Ho. tauto.
Qed.

Lemma settlePicks_tally ps : forall acc,
  let r := settlePicks games ps acc in
  correct (snd r) = correct acc + Z.of_nat (length (countedWins games (fst r))) /\
  won (snd r) = sumWinnings (countedWins games (fst r)) (won acc).
Proof.
  induction ps as [|[gid p] rest IH]; intros acc.
  - cbn. split; [lia|reflexivity].
  - cbn [settlePicks].
    pose proof (settlePick_tally gid p acc) as Hstep. cbv zeta in Hstep.
    destruct (settlePick games gid p acc) as [p1 acc1] eqn:E1.
    specialize (IH acc1). cbv zeta in IH.
    destruct (settlePicks games rest acc1) as [rest1 acc2] eqn:E2.
    cbn [fst snd] in *. destruct Hstep as [Hc Hw]. destruct IH as [IHc IHw].
    unfold countedWins in *. cbn [List.filter fst snd].
    destruct (gameCompleted games gid && isWin (outcome p1)).
    + cbn [length]. unfold sumWinnings in *. cbn [fold_left snd].
      rewrite IHc, IHw, Hc, Hw. split; [lia|reflexivity].
    + rewrite IHc, IHw, Hc, Hw. split; [lia|reflexivity].
Qed.

Lemma settlePicks_length ps acc :
  length (fst (settlePicks games ps acc)) = length ps.
Proof.
  symmetry. eapply Forall2_length. apply settlePicks_entries.
Qed.

End SettlementMore.

Lemma settle_isSettled (games : list Game) (s : Submission) :
  isSettled (settle games s) = forallb (fun e => gameCompleted games (fst e)) (picks s).
Proof.
  unfold settle, applyUpdates. cbn [isSettled].
  rewrite settlePicks_allCompleted. reflexivity.
Qed.

Lemma forallb_gameCompleted (games : list Game) (ps : list (string * Pick)) :
  forallb (fun e => gameCompleted games (fst e)) ps = true ->
  Forall (fun e => gameCompleted games (fst e) = true) ps.
Proof.
  rewrite forallb_forall, Forall_forall.
  intros H e He. apply H. apply list_elem_of_In. exact He.
Qed.

(** X1.  A run marks the submission settled exactly when every pick's game
    is found in the stored list and is completed. *)
Theorem isSettled_iff_all_completed (games : list Game) (s : Submission) :
  isSettled (settle games s) = true <->
  Forall (fun e => gameCompleted games (fst e) = true) (picks s).
Proof.
  unfold settle, applyUpdates. cbn [isSettled].
  rewrite settlePicks_allCompleted. cbn [tally0 allCompleted andb].
  rewrite forallb_forall, Forall_forall. unfold gameCompleted.
  split; intros H e He; apply H; apply list_elem_of_In; exact He.
Qed.

Lemma countedWins_all_completed (games : list Game) (ps : list (string * Pick)) :
  forall l,
  Forall (fun e => gameCompleted games (fst e) = true) ps ->
  Forall2 (fun old new => fst new = fst old) ps l ->
  countedWins games l = List.filter (fun e => isWin (outcome (snd e))) l.
Proof.
  unfold countedWins.
  induction ps as [|e ps IH]; intros l Hset HF;
    inversion HF as [|? e' ? l' Hk HFtail]; subst.
  - reflexivity.
  - inversion Hset as [|? ? Hg Hrest]; subst. cbn [List.filter].
    rewrite Hk, Hg. cbn [andb]. rewrite (IH l' Hrest HFtail). reflexivity.
Qed.

(** X2.  After a run, [totalCorrectPicks] is the number of resulting picks
    that are wins on a completed game and [totalWinnerBucksWon] is the sum of
    their winnings, added from the left starting at 0; when the run settles
    the submission these are all the wins; the count lies between 0 and the
    number of picks. *)
Theorem settle_aggregates (games : list Game) (s : Submission) :
  let r := settle games s in
  totalCorrectPicks r = Z.of_nat (length (countedWins games (picks r))) /\
  totalWinnerBucksWon r = sumWinnings (countedWins games (picks r)) (ofZ 0) /\
  (isSettled r = true ->
   countedWins games (picks r)
   = List.filter (fun e => isWin (outcome (snd e))) (picks r)) /\
  0 <= totalCorrectPicks r <= Z.of_nat (length (picks s)).
Proof.
  intros r.
  pose proof (settlePicks_tally games (picks s) tally0) as [Hc Hw].
  assert (Hcount : totalCorrectPicks r = Z.of_nat (length (countedWins games (picks r)))).
  { unfold r, settle, applyUpdates. cbn [totalCorrectPicks picks].
    rewrite Hc. cbn [tally0 correct]. lia. }
  split; [exact Hcount|]. split; [|split].
  - unfold r, settle, applyUpdates. cbn [totalWinnerBucksWon picks]. exact Hw.
  - intros Hset. unfold r in Hset. rewrite settle_isSettled in Hset.
    apply forallb_gameCompleted in Hset.
    unfold r, settle, applyUpdates. cbn [picks].
    apply (countedWins_all_completed games (picks s)); [exact Hset|].
    eapply Forall2_impl; [apply settlePicks_entries|]. intros old new [Hk _]. exact Hk.
  - rewrite Hcount. split; [lia|].
    apply inj_le. unfold countedWins.
    etransitivity; [apply List.filter_length_le|].
    unfold r, settle, applyUpdates. cbn [picks].
    rewrite settlePicks_length. lia.
Qed.

(** X3.  A run never alters what the user submitted: the identity fields of
    the submission, the keys of the picks, and each pick's team, tier and
    game id stay as they were, and a win stays a win and a loss a loss. *)
Theorem settle_keeps_selection (games : list Game) (s : Submission) :
  let r := settle games s in
  userId r = userId s /\ weekId r = weekId s /\
  tieBreakerPoints r = tieBreakerPoints s /\ submittedAt r = submittedAt s /\
  sub_tier r = sub_tier s /\
  Forall2 (fun old new =>
             fst new = fst old /\
             pick (snd new) = pick (snd old) /\
             tier (snd new) = tier (snd old) /\
             gameId (snd new) = gameId (snd old) /\
             (outcome (snd old) = win -> outcome (snd new) = win) /\
             (outcome (snd old) = loss -> outcome (snd new) = loss))
          (picks s) (picks r).
Proof.
  intros r. repeat split.
  unfold r, settle, applyUpdates. cbn [picks].
  eapply Forall2_impl; [apply settlePicks_entries|].
  intros old new [Hk Hv].
  pose proof (settlePick_fields games (fst old) (snd old) tally0) as HF.
  cbv zeta in HF. rewrite <- Hv in HF. tauto.
Qed.

(** X4.  If no pick of the stored submission carries winnings without being
    a win, the same holds after a run. *)
Theorem settle_keeps_winnings_invariant (games : list Game) (s : Submission) :
  Forall (fun e => noWinningsUnlessWin (snd e)) (picks s) ->
  Forall (fun e => noWinningsUnlessWin (snd e)) (picks (settle games s)).
Proof.
  intros H. unfold settle, applyUpdates. cbn [picks].
  pose proof (settlePicks_entries games (picks s) tally0) as HF.
  revert H HF. generalize (fst (settlePicks games (picks s) tally0)).
  induction (picks s) as [|e ps IH]; intros l H HF; inversion HF; subst;
    constructor.
  - inversion H; subst.
    match goal with Hx : _ /\ _ |- _ => destruct Hx as [_ Hv] end.
    rewrite Hv. apply settlePick_fields. assumption.
  - apply IH; [inversion H; assumption|assumption].
Qed.

(** The invariant on scenario B, where one pick becomes a win and one stays
    pending. *)
Lemma settle_keeps_winnings_invariant_witness :
  Forall (fun e => noWinningsUnlessWin (snd e)) (picks (sampleSubmission picksA)) /\
  Forall (fun e => noWinningsUnlessWin (snd e))
         (picks (settle gamesB (sampleSubmission picksA))).
Proof.
  assert (H : Forall (fun e => noWinningsUnlessWin (snd e))
                     (picks (sampleSubmission picksA)))
    by (repeat constructor).
  exact (conj H (settle_keeps_winnings_invariant gamesB _ H)).
Defined.

Lemma settleUser_credit (games : list Game) (u : UserState) :
  winnerBucks (settleUser games u) = increment (winnerBucks u) (creditedBy games u).
Proof.
  unfold settleUser, creditedBy. destruct (predictions u) as [s|]; [|reflexivity].
  destruct (isSettled s); reflexivity.
Qed.

Lemma creditedBy_settles (games : list Game) (u : UserState) (c : number) :
  creditedBy games u = Some c ->
  numLt (ofZ 0) c /\
  exists s', isSettled s' = true /\
             settleUser games u = {| predictions := Some s';
                                     winnerBucks := nadd (winnerBucks u) c |}.
Proof.
  unfold creditedBy, settleUser. destruct (predictions u) as [s|]; [|discriminate].
  destruct (isSettled s); cbn [negb]; [discriminate|].
  intros Hc. rewrite Hc. cbn [increment].
  pose proof (creditOf_amount _ _ _ Hc) as [Hset Hamount].
  split; [|eexists; split; [exact Hset|reflexivity]].
  unfold creditOf in Hc. rewrite Hset in Hc. cbn [andb] in Hc.
  destruct (ngt (totalWinnerBucksWon (settle games s))
                (orZero (totalWinnerBucksWon s))) eqn:Hgt; [|discriminate].
  subst c.
  destruct (totalWinnerBucksWon (settle games s)) as [|x]; [discriminate|].
  destruct (orZero (totalWinnerBucksWon s)) as [|y]; [discriminate|].
  pose proof (ngt_sub x y) as Hs. cbn [ngt] in Hgt. rewrite Hgt in Hs.
  cbn [nsub]. cbn [nsub ngt ofZ] in Hs. cbn [numLt ofZ].
  apply Qc_ltb_lt. exact Hs.
Qed.

Lemma creditsOfPasses_settled passes : forall s b,
  isSettled s = true ->
  creditsOfPasses passes {| predictions := Some s; winnerBucks := b |}
    = replicate (length passes) None /\
  balancesAfter passes {| predictions := Some s; winnerBucks := b |}
    = replicate (length passes) b.
Proof.
  induction passes as [|games rest IH]; intros s b Hs; [split; reflexivity|].
  cbn [creditsOfPasses balancesAfter length replicate].
  rewrite (settleUser_settled _ _ _ Hs).
  destruct (IH s b Hs) as [-> ->].
  unfold creditedBy. cbn [predictions winnerBucks]. rewrite Hs. split; reflexivity.
Qed.

(** X5.  Over any sequence of passes the profile of a user is credited for
    a submission by at most one pass, and by a strictly positive amount: the
    passes split into those before the credit, which issue no [increment]
    and leave the balance as it was, the pass that issues the one
    [increment], and the passes after it, which issue none and leave the
    balance at its new value; or no pass issues an [increment] and the
    balance never changes. *)
Theorem credited_at_most_once (passes : list (list Game)) (u : UserState) :
  (creditsOfPasses passes u = replicate (length passes) None /\
   balancesAfter passes u = replicate (length passes) (winnerBucks u)) \/
  exists (k : nat) (c : number),
    (k < length passes)%nat /\ numLt (ofZ 0) c /\
    creditsOfPasses passes u
      = replicate k None ++ Some c :: replicate (length passes - S k) None /\
    balancesAfter passes u
      = replicate k (winnerBucks u)
        ++ replicate (length passes - k) (nadd (winnerBucks u) c).
Proof.
  revert u. induction passes as [|games rest IH]; intros u; [left; split; reflexivity|].
  cbn [creditsOfPasses balancesAfter length].
  destruct (creditedBy games u) as [c|] eqn:Hc.
  - destruct (creditedBy_settles _ _ _ Hc) as [Hpos (s' & Hset & ->)].
    right. exists 0%nat, c. cbn [winnerBucks replicate app].
    destruct (creditsOfPasses_settled rest s' (nadd (winnerBucks u) c) Hset) as [-> ->].
    split; [lia|]. split; [exact Hpos|].
    replace (S (length rest) - 1)%nat with (length rest) by lia.
    split; reflexivity.
  - pose proof (settleUser_credit games u) as Hb. rewrite Hc in Hb. cbn in Hb.
    rewrite Hb.
    destruct (IH (settleUser games u)) as [[E1 E2]|(k & c & Hk & Hpos & E1 & E2)].
    + left. rewrite E1, E2, Hb. split; reflexivity.
    + right. exists (S k), c. rewrite E1, E2, Hb.
      split; [lia|]. split; [exact Hpos|]. split; reflexivity.
Qed.


(** ** Game merge: identity, order, invariants *)

Section GameMergeMore.

Variables (apiScoresData : list ScoreEvent) (apiOddsData : list OddsEvent).
Variable tb : option string.

Lemma tieBreakerTotal_single game :
  tieBreakerTotal apiScoresData tb [game] =
  if isTieBreaker game tb then
    match liveScore apiScoresData game with
    | Some s =>
        if score_completed s then
          match scores s with
          | Some ss => Some (teamPoints ss (homeTeam game) + teamPoints ss (awayTeam game))
          | None => None
          end
        else None
    | None => None
    end
  else None.
Proof.
  unfold tieBreakerTotal, liveCompleted. cbn [find].
  destruct (isTieBreaker game tb); cbn [andb]; [|reflexivity].
  destruct (liveScore apiScoresData game) as [s|] eqn:E; [|reflexivity].
  destruct (score_completed s); [|reflexivity].
  rewrite E. reflexivity.
Qed.

(** What the callback keeps and what it assigns to [actual]. *)
Lemma mergeGame_keeps game actual g' a' :
  mergeGame apiScoresData apiOddsData tb game actual = Ok (g', a') ->
  homeTeam g' = homeTeam game /\ awayTeam g' = awayTeam game /\
  commenceTime g' = commenceTime game /\
  (scoresPresent game -> scoresPresent g') /\
  a' = match actual with
       | Some n => Some n
       | None => tieBreakerTotal apiScoresData tb [game]
       end.
Proof.
  rewrite tieBreakerTotal_single.
  unfold mergeGame, scoresPresent.
  destruct (liveScore apiScoresData game) as [s|]; cbn;
    [destruct (score_completed s); destruct (scores s) as [ss|]; cbn;
       try discriminate|];
    (destruct (find _ apiOddsData) as [o|]; cbn;
       [destruct (firstH2H o) as [[m|]|]; cbn; try discriminate|]);
    intros [= <- <-]; cbn;
    (split; [reflexivity|split; [reflexivity|split; [reflexivity|split]]]);
    try tauto;
    try (intros _ _; split; eexists; reflexivity);
    try (intros _ Hc; discriminate Hc);
    destruct actual; try reflexivity; rewrite ?andb_true_r, ?andb_false_r;
    destruct (isTieBreaker game tb); reflexivity.
Qed.

Lemma tieBreakerTotal_cons g gs :
  tieBreakerTotal apiScoresData tb (g :: gs) =
  if isTieBreaker g tb && liveCompleted apiScoresData g
  then tieBreakerTotal apiScoresData tb [g]
  else tieBreakerTotal apiScoresData tb gs.
Proof.
  unfold tieBreakerTotal. cbn [find].
  destruct (isTieBreaker g tb && liveCompleted apiScoresData g); reflexivity.
Qed.

(** A throw-free callback on a tie-breaker game that the provider marks
    complete always finds the two scores. *)
Lemma mergeGame_total_found game actual g' a' :
  mergeGame apiScoresData apiOddsData tb game actual = Ok (g', a') ->
  isTieBreaker game tb && liveCompleted apiScoresData game = true ->
  is_Some (tieBreakerTotal apiScoresData tb [game]).
Proof.
  rewrite tieBreakerTotal_single. unfold mergeGame, liveCompleted.
  destruct (isTieBreaker game tb); [|discriminate]. cbn [andb].
  destruct (liveScore apiScoresData game) as [s|]; [|discriminate].
  destruct (score_completed s); [|discriminate].
  destruct (scores s) as [ss|]; [eexists; reflexivity|discriminate].
Qed.

Lemma mergeGames_keeps gs : forall actual gs' a',
  mergeGames apiScoresData apiOddsData tb gs actual = Ok (gs', a') ->
  Forall2 (fun g g' =>
             game_id g' = game_id g /\ homeTeam g' = homeTeam g /\
             awayTeam g' = awayTeam g /\ commenceTime g' = commenceTime g /\
             (scoresPresent g -> scoresPresent g')) gs gs' /\
  a' = match actual with
       | Some n => Some n
       | None => tieBreakerTotal apiScoresData tb gs
       end.
Proof.
  induction gs as [|g rest IH]; intros actual gs' a'; cbn [mergeGames].
  - intros [= <- <-]. split; [constructor|]. destruct actual; reflexivity.
  - destruct (mergeGame apiScoresData apiOddsData tb g actual) as [[g1 a1]|] eqn:E1;
      cbn; [|discriminate].
    destruct (mergeGames apiScoresData apiOddsData tb rest a1) as [[rest1 a2]|] eqn:E2;
      cbn; [|discriminate].
    intros [= <- <-].
    pose proof (mergeGame_keeps _ _ _ _ E1) as (Hh & Ha & Hc & Hs & Hact).
    pose proof (proj1 (mergeGame_fields _ _ _ _ _ _ _ E1)) as Hid.
    destruct (IH _ _ _ E2) as [HF Hact2].
    split; [constructor; [tauto|exact HF]|].
    rewrite Hact2, Hact. destruct actual as [n|]; [reflexivity|].
    rewrite (tieBreakerTotal_cons g rest).
    destruct (isTieBreaker g tb && liveCompleted apiScoresData g) eqn:Hcond.
    + destruct (mergeGame_total_found _ _ _ _ E1 Hcond) as [n ->]. reflexivity.
    + rewrite tieBreakerTotal_single. unfold liveCompleted in Hcond.
      destruct (isTieBreaker g tb); [|reflexivity]. cbn [andb] in Hcond.
      destruct (liveScore apiScoresData g) as [s|]; [|reflexivity].
      rewrite Hcond. reflexivity.
Qed.

End GameMergeMore.

Section AppendNewGames.

Lemma existsb_game_id (i : string) (gs : list Game) :
  existsb (fun g => String.eqb (game_id g) i) gs = true <-> In i (map game_id gs).
Proof.
  rewrite existsb_exists, in_map_iff. split.
  - intros (g & Hg & He). apply String.eqb_eq in He. eauto.
  - intros (g & He & Hg). exists g. split; [exact Hg|]. apply String.eqb_eq. exact He.
Qed.

Lemma newGame_fields e g :
  newGame e = Ok g ->
  game_id g = event_id e /\ homeTeam g = home_team e /\ awayTeam g = away_team e /\
  commenceTime g = commence_time e /\
  completed g = false /\ score g = {| home := None; away := None |} /\
  moneyline (odds g) = None.
Proof.
  unfold newGame. destruct (firstH2H e) as [m|]; cbn; [|discriminate].
  intros [= <-]. repeat split.
Qed.

(** The append step: what it adds and what it keeps. *)
Lemma appendNewGames_spec evs : forall gs gs',
  appendNewGames evs gs = Ok gs' ->
  exists added,
    gs' = gs ++ added /\
    Forall (fun g => In (game_id g) (map event_id evs) /\
                     ~ In (game_id g) (map game_id gs) /\
                     completed g = false /\
                     score g = {| home := None; away := None |} /\
                     moneyline (odds g) = None) added /\
    List.NoDup (map game_id added) /\
    (forall e, In e evs -> In (event_id e) (map game_id gs')).
Proof.
  induction evs as [|e rest IH]; intros gs gs'; cbn [appendNewGames].
  - intros [= <-]. exists []. rewrite app_nil_r.
    split; [reflexivity|]. split; [constructor|]. split; [constructor|].
    intros e [].
  - destruct (existsb _ gs) eqn:Hex.
    + intros H. destruct (IH _ _ H) as (added & -> & HF & HN & Hin).
      exists added. split; [reflexivity|]. split; [|split; [exact HN|]].
      * eapply Forall_impl; [exact HF|]. cbn. intros g (H1 & H2). split; [|exact H2].
        cbn [map]. right. exact H1.
      * intros e' [<-|He']; [|apply Hin; exact He'].
        apply existsb_game_id in Hex. rewrite map_app, in_app_iff. left. exact Hex.
    + destruct (newGame e) as [g|] eqn:Hg; cbn; [|discriminate].
      intros H. destruct (IH _ _ H) as (added & -> & HF & HN & Hin).
      pose proof (newGame_fields _ _ Hg) as (Hid & _ & _ & _ & Hc & Hs & Hm).
      assert (Hnot : ~ In (game_id g) (map game_id gs)).
      { rewrite Hid. intros Hi. apply existsb_game_id in Hi. congruence. }
      exists (g :: added). split; [rewrite <- app_assoc; reflexivity|].
      split; [|split].
      * constructor.
        -- split; [cbn [map]; left; symmetry; exact Hid|].
           split; [exact Hnot|]. auto.
        -- eapply Forall_impl; [exact HF|]. cbn.
           intros g' (H1 & H2 & H3). split; [cbn [map]; right; exact H1|].
           split; [|exact H3]. intros Hi. apply H2.
           rewrite map_app, in_app_iff. left. exact Hi.
      * cbn [map]. constructor; [|exact HN].
        intros Hi. apply in_map_iff in Hi as (g' & Hgid & Hg').
        rewrite Forall_forall in HF.
        destruct (HF g') as (_ & Hno & _); [apply list_elem_of_In; exact Hg'|].
        apply Hno. rewrite map_app, in_app_iff. right. cbn [map]. left. auto.
      * intros e' [<-|He']; [|apply Hin; exact He'].
        rewrite !map_app, !in_app_iff. left. right. cbn [map]. left. exact Hid.
Qed.

End AppendNewGames.

Lemma Forall2_sameFixture_ids (gs gs' : list Game) :
  Forall2 (fun g g' => game_id g' = game_id g) gs gs' ->
  map game_id gs' = map game_id gs.
Proof. induction 1; cbn; congruence. Qed.

(** X6.  A merge that does not throw returns the stored games, each with
    its id, teams and commence time, in their order, followed by one game
    for every provider fixture that was not stored (not completed, without
    scores); every provider fixture is then in the list, distinct ids stay
    distinct, and the list never gets shorter. *)
Theorem gameMerge_games
    (apiOddsData : list OddsEvent) (apiScoresData : list ScoreEvent)
    (d : WeekDoc) (gs' : list Game) (actual : option Z) :
  gameMerge apiOddsData apiScoresData d = Ok (gs', actual) ->
  exists merged added,
    gs' = merged ++ added /\
    Forall2 sameFixture (games d) merged /\
    Forall (freshlyAppended apiOddsData (games d)) added /\
    (List.NoDup (map game_id (games d)) -> List.NoDup (map game_id gs')) /\
    (forall e, In e apiOddsData -> In (event_id e) (map game_id gs')) /\
    (length (games d) <= length gs')%nat.
Proof.
  unfold gameMerge.
  destruct (mergeGames _ _ _ _ _) as [[merged a1]|] eqn:E1; cbn; [|discriminate].
  destruct (appendNewGames apiOddsData merged) as [all|] eqn:E2; cbn; [|discriminate].
  intros [= <- <-].
  destruct (mergeGames_keeps _ _ _ _ _ _ _ E1) as [HF _].
  destruct (appendNewGames_spec _ _ _ E2) as (added & -> & HA & HN & Hin).
  assert (Hids : map game_id merged = map game_id (games d)).
  { apply Forall2_sameFixture_ids. eapply Forall2_impl; [exact HF|]. cbn. tauto. }
  exists merged, added. split; [reflexivity|]. split; [|split; [|split; [|split]]].
  - eapply Forall2_impl; [exact HF|]. unfold sameFixture. cbn. tauto.
  - eapply Forall_impl; [exact HA|]. unfold freshlyAppended. cbn.
    intros g. rewrite Hids. tauto.
  - intros Hnd. rewrite map_app. apply List.NoDup_app.
    + rewrite Hids. exact Hnd.
    + exact HN.
    + intros i Hi Hi'. apply in_map_iff in Hi' as (g & <- & Hg).
      rewrite Forall_forall in HA.
      destruct (HA g) as (_ & Hno & _); [apply list_elem_of_In; exact Hg|].
      apply Hno. exact Hi.
  - exact Hin.
  - rewrite length_app, <- (Forall2_length _ _ _ HF). lia.
Qed.

(** The theorem on the fetched week merged with a longer provider list. *)
Lemma gameMerge_games_witness :
  option_map (fun r => map game_id (fst r))
             (okValue (gameMerge laterEvents finalScores fetchedWeek))
    = Some ["g1"; "g2"; "g3"] /\
  exists gs' actual,
    gameMerge laterEvents finalScores fetchedWeek = Ok (gs', actual) /\
    (length (games fetchedWeek) <= length gs')%nat.
Proof.
  split; [vm_compute; reflexivity|].
  destruct (gameMerge laterEvents finalScores fetchedWeek) as [[gs' actual]|] eqn:E.
  - exists gs', actual. split; [reflexivity|].
    destruct (gameMerge_games _ _ _ _ _ E) as (m & a & _ & _ & _ & _ & _ & H).
    exact H.
  - vm_compute in E. discriminate E.
Defined.

(** X7.  If every stored game that is completed has both scores, the same
    holds for every game after a merge. *)
Theorem gameMerge_keeps_scores
    (apiOddsData : list OddsEvent) (apiScoresData : list ScoreEvent)
    (d : WeekDoc) (gs' : list Game) (actual : option Z) :
  gameMerge apiOddsData apiScoresData d = Ok (gs', actual) ->
  Forall scoresPresent (games d) ->
  Forall scoresPresent gs'.
Proof.
  unfold gameMerge.
  destruct (mergeGames _ _ _ _ _) as [[merged a1]|] eqn:E1; cbn; [|discriminate].
  destruct (appendNewGames apiOddsData merged) as [all|] eqn:E2; cbn; [|discriminate].
  intros [= <- <-] Hinv.
  destruct (mergeGames_keeps _ _ _ _ _ _ _ E1) as [HF _].
  destruct (appendNewGames_spec _ _ _ E2) as (added & -> & HA & _ & _).
  apply Forall_app. split.
  - clear E1 E2 HA. revert Hinv. induction HF as [|g g' gs gs1 Hg HF IH]; intros Hinv.
    + constructor.
    + inversion Hinv; subst. constructor; [|apply IH; assumption].
      destruct Hg as (_ & _ & _ & _ & Hs). apply Hs. assumption.
  - eapply Forall_impl; [exact HA|]. cbn. intros g (_ & _ & Hc & _) Hc'.
    congruence.
Qed.

(** The games of a fetch satisfy the invariant, none being completed. *)
Lemma oddsWeekDoc_scoresPresent (weekInfo : WeekInfo) (events : list OddsEvent) :
  Forall scoresPresent (games (oddsWeekDoc weekInfo events)).
Proof.
  unfold oddsWeekDoc. cbn [games]. apply Forall_forall. intros g Hg.
  apply list_elem_of_In, in_map_iff in Hg as (e & <- & _).
  intros Hc. discriminate Hc.
Qed.

Lemma gameMerge_keeps_scores_witness :
  Forall scoresPresent (games fetchedWeek) /\
  forall gs' actual,
    gameMerge laterEvents finalScores fetchedWeek = Ok (gs', actual) ->
    Forall scoresPresent gs'.
Proof.
  assert (H : Forall scoresPresent (games fetchedWeek))
    by (apply oddsWeekDoc_scoresPresent).
  split; [exact H|].
  intros gs' actual E. exact (gameMerge_keeps_scores _ _ _ _ _ E H).
Defined.

(** X8.  The tie-breaker total after a merge: a stored total other than 0
    is kept as it is; otherwise it is the sum of the two final scores of the
    first stored game whose id is the week's tie-breaker id and which the
    provider marks complete, and null if there is no such game. *)
Theorem gameMerge_tieBreaker_total
    (apiOddsData : list OddsEvent) (apiScoresData : list ScoreEvent)
    (d : WeekDoc) (gs' : list Game) (actual : option Z) :
  gameMerge apiOddsData apiScoresData d = Ok (gs', actual) ->
  actual = match orNull (actualTieBreakerTotalPoints d) with
           | Some n => Some n
           | None => tieBreakerTotal apiScoresData (tieBreakerGameId d) (games d)
           end.
Proof.
  unfold gameMerge.
  destruct (mergeGames _ _ _ _ _) as [[merged a1]|] eqn:E1; cbn; [|discriminate].
  destruct (appendNewGames apiOddsData merged) as [all|] eqn:E2; cbn; [|discriminate].
  intros [= <- <-].
  exact (proj2 (mergeGames_keeps _ _ _ _ _ _ _ E1)).
Qed.

(** The theorem on the fetched week: game 2 is the tie-breaker and ends
    14-20. *)
Lemma gameMerge_tieBreaker_total_witness :
  exists gs',
    gameMerge sampleEvents finalScores fetchedWeek = Ok (gs', Some 34) /\
    tieBreakerTotal finalScores (tieBreakerGameId fetchedWeek) (games fetchedWeek)
      = Some 34.
Proof.
  destruct (gameMerge sampleEvents finalScores fetchedWeek) as [[gs' actual]|] eqn:E.
  - pose proof (gameMerge_tieBreaker_total _ _ _ _ _ E) as H.
    assert (Ha : actual = Some 34) by (rewrite H; vm_compute; reflexivity).
    exists gs'. rewrite Ha. split; [reflexivity|]. vm_compute. reflexivity.
  - vm_compute in E. discriminate E.
Defined.

(** ** The scheduled pass on the store *)

Lemma settleUserDocs_sameOutsideWeek wk gs u :
  sameOutsideWeek wk u (settleUserDocs wk gs u).
Proof.
  unfold sameOutsideWeek, settleUserDocs. cbn [user_id userDocData predictionDocs].
  split; [reflexivity|]. split; [reflexivity|]. split.
  - intros k Hk. destruct (predictions _); [|reflexivity].
    apply lookup_insert_ne. congruence.
  - intros Hnone. rewrite Hnone. cbn. destruct u. reflexivity.
Qed.

Lemma sameOutsideWeek_refl wk u : sameOutsideWeek wk u u.
Proof. unfold sameOutsideWeek. auto. Qed.

Lemma sync_other_week_docs
    (apiKey : bool) (now : Z) (oddsResponse : option (list OddsEvent))
    (scoresResponse : option (list ScoreEvent)) (st : Store) (k : string) :
  k <> wi_weekId (getCurrentNFLWeekInfo now) ->
  let st' := after (syncNflDataAndSettle apiKey now oddsResponse scoresResponse st) in
  nflWeeks st' !! k = nflWeeks st !! k /\ leaderboards st' !! k = leaderboards st !! k.
Proof.
  intros Hk. cbv zeta.
  pass_cases apiKey oddsResponse scoresResponse st ltac:(cbn; auto).
  cbn [after nflWeeks leaderboards]. split.
  - apply lookup_insert_ne. congruence.
  - destruct (leaderboardPhase _ _ _); [|reflexivity].
    apply lookup_insert_ne. congruence.
Qed.

(** X10.  A pass works on the week of its clock only: the week documents
    and leaderboards of every other week are left as they are; each user
    keeps its id, its user document and the predictions documents of the
    other weeks, and a user without a predictions document for the week is
    not touched at all. *)
Theorem pass_touches_only_its_week
    (apiKey : bool) (now : Z) (oddsResponse : option (list OddsEvent))
    (scoresResponse : option (list ScoreEvent)) (st : Store) :
  let wk := wi_weekId (getCurrentNFLWeekInfo now) in
  let st' := after (syncNflDataAndSettle apiKey now oddsResponse scoresResponse st) in
  (forall k, k <> wk -> nflWeeks st' !! k = nflWeeks st !! k) /\
  (forall k, k <> wk -> leaderboards st' !! k = leaderboards st !! k) /\
  Forall2 (sameOutsideWeek wk) (users st) (users st').
Proof.
  cbv zeta.
  assert (Hrefl : Forall2 (sameOutsideWeek (wi_weekId (getCurrentNFLWeekInfo now)))
                          (users st) (users st)).
  { apply Forall_Forall2_diag, Forall_forall. intros; apply sameOutsideWeek_refl. }
  pass_cases apiKey oddsResponse scoresResponse st ltac:(cbn; auto).
  cbn [after nflWeeks leaderboards users]. split; [|split].
  - intros k Hk. apply lookup_insert_ne. congruence.
  - intros k Hk. destruct (leaderboardPhase _ _ _); [|reflexivity].
    apply lookup_insert_ne. congruence.
  - clear Hrefl. induction (users st); constructor; auto.
    apply settleUserDocs_sameOutsideWeek.
Qed.

Lemma tieBreakerTotal_no_id (apiScoresData : list ScoreEvent) (gs : list Game) :
  tieBreakerTotal apiScoresData None gs = None.
Proof.
  unfold tieBreakerTotal.
  assert (H : find (fun g => isTieBreaker g None && liveCompleted apiScoresData g) gs
              = None).
  { induction gs as [|g rest IH]; [reflexivity|]. cbn. exact IH. }
  rewrite H. reflexivity.
Qed.

(** One pass on a store whose week [wk] has lost its tie-breaker. *)
Lemma runPass_tieBreakerLost (wk : string) (st : Store) (i : PassInput) (d : WeekDoc) :
  nflWeeks st !! wk = Some d -> tieBreakerLost d ->
  leaderboards (runPass st i) !! wk = leaderboards st !! wk /\
  exists d', nflWeeks (runPass st i) !! wk = Some d' /\ tieBreakerLost d'.
Proof.
  intros Hd Hlost. unfold runPass.
  destruct i as [k now o sc]. cbn [in_apiKey in_now in_odds in_scores].
  destruct (decide (wi_weekId (getCurrentNFLWeekInfo now) = wk)) as [Hwk|Hwk].
  - unfold syncNflDataAndSettle. rewrite Hwk, Hd.
    destruct k; [|cbn; eauto]. cbn [negb].
    destruct o as [o|]; [|cbn; eauto].
    destruct sc as [sc|]; [|cbn; eauto].
    destruct (gameMerge o sc d) as [[gs actual]|] eqn:E; [|cbn; eauto].
    assert (Ha : actual = match orNull (actualTieBreakerTotalPoints d) with
                          | Some n => Some n
                          | None => tieBreakerTotal sc (tieBreakerGameId d) (games d)
                          end).
    { unfold gameMerge in E.
      destruct (mergeGames _ _ _ _ _) as [[merged a1]|] eqn:E1; cbn in E; [|discriminate].
      destruct (appendNewGames o merged) as [all|]; cbn in E; [|discriminate].
      injection E as _ <-. exact (proj2 (mergeGames_keeps _ _ _ _ _ _ _ E1)). }
    destruct Hlost as [Htb Hact]. rewrite Hact, Htb, tieBreakerTotal_no_id in Ha.
    subst actual. cbn [after nflWeeks leaderboards leaderboardPhase
                       actualTieBreakerTotalPoints syncedWeekDoc].
    split; [reflexivity|].
    eexists. split; [apply lookup_insert_eq|]. split; reflexivity.
  - destruct (sync_other_week_docs k now o sc st wk) as [Hw Hl]; [congruence|].
    cbv zeta in Hw, Hl. rewrite Hl, Hw. eauto.
Qed.

(** X11.  Once the week document has a null tie-breaker game id and no
    tie-breaker total, no sequence of scheduled passes ever computes the
    total or writes a leaderboard for that week, whatever scores arrive. *)
Theorem no_leaderboard_once_tieBreaker_lost
    (wk : string) (ins : list PassInput) (st : Store) (d : WeekDoc) :
  nflWeeks st !! wk = Some d -> tieBreakerLost d ->
  leaderboards (runPasses ins st) !! wk = leaderboards st !! wk /\
  exists d', nflWeeks (runPasses ins st) !! wk = Some d' /\ tieBreakerLost d'.
Proof.
  revert st d. induction ins as [|i rest IH]; intros st d Hd Hlost.
  - cbn. eauto.
  - unfold runPasses in *. cbn [fold_left].
    destruct (runPass_tieBreakerLost wk st i d Hd Hlost) as (Hl & d1 & Hd1 & Hlost1).
    destruct (IH _ _ Hd1 Hlost1) as (Hl2 & d2 & Hd2 & Hlost2).
    split; [congruence|eauto].
Qed.

(** The theorem after the first pass of the sample week: the passes that
    bring the final scores of both games write no leaderboard. *)
Lemma no_leaderboard_once_tieBreaker_lost_witness :
  (exists d, nflWeeks afterFirstPass !! sampleWeekId = Some d /\ tieBreakerLost d) /\
  leaderboards (runPasses finalPasses afterFirstPass) !! sampleWeekId = None.
Proof.
  assert (H : exists d, nflWeeks afterFirstPass !! sampleWeekId = Some d
                        /\ tieBreakerLost d).
  { destruct (nflWeeks afterFirstPass !! sampleWeekId) as [d|] eqn:E.
    - exists d. split; [reflexivity|].
      assert (Ht : tieBreakerGameId <$> Some d = Some None)
        by (rewrite <- E; vm_compute; reflexivity).
      assert (Ha : actualTieBreakerTotalPoints <$> Some d = Some None)
        by (rewrite <- E; vm_compute; reflexivity).
      cbn in Ht, Ha. injection Ht as Ht. injection Ha as Ha.
      split; [exact Ht|]. rewrite Ha. reflexivity.
    - vm_compute in E. discriminate E. }
  split; [exact H|].
  destruct H as (d & Hd & Hlost).
  rewrite (proj1 (no_leaderboard_once_tieBreaker_lost _ finalPasses _ _ Hd Hlost)).
  reflexivity.
Defined.

(** ** [getNFLOdds]: the tie-breaker game *)

Section LastByCommenceTime.

Lemma cmp_after x y :
  ngt (byCommenceTime x y) (ofZ 0) = (commenceTime y <? commenceTime x).
Proof.
  unfold byCommenceTime. rewrite ngt_ofZ.
  destruct (Z.ltb_spec 0 (commenceTime x - commenceTime y)),
           (Z.ltb_spec (commenceTime y) (commenceTime x)); (reflexivity || lia).
Qed.

(** The inserted game ends up last exactly when it starts after all the
    others. *)
Lemma last_insertBy x s :
  last (insertBy byCommenceTime x s) =
  if forallb (fun y => commenceTime y <? commenceTime x) s then Some x else last s.
Proof.
  induction s as [|y r IH]; [reflexivity|].
  cbn [insertBy forallb]. rewrite cmp_after.
  destruct (commenceTime y <? commenceTime x); cbn [andb]; [|reflexivity].
  assert (Hne : insertBy byCommenceTime x r <> []).
  { destruct r as [|z r']; cbn [insertBy]; [discriminate|].
    destruct (ngt (byCommenceTime x z) (ofZ 0)); discriminate. }
  destruct (insertBy byCommenceTime x r) as [|z t] eqn:E; [contradiction|].
  change (last (y :: z :: t)) with (last (z :: t)). rewrite IH.
  destruct (forallb _ r) eqn:Hall; [reflexivity|].
  destruct r; [discriminate|reflexivity].
Qed.

Lemma last_sortBy_commence (l : list Game) (g : Game) :
  last (sortBy byCommenceTime l) = Some g ->
  exists pre post,
    l = pre ++ g :: post /\
    (forall g', In g' pre -> commenceTime g' <= commenceTime g) /\
    (forall g', In g' post -> commenceTime g' < commenceTime g).
Proof.
  revert g. induction l as [|x l IH]; intros g; [discriminate|].
  unfold sortBy in *. cbn [foldr]. fold (sortBy byCommenceTime l) in *.
  rewrite last_insertBy.
  destruct (forallb _ (sortBy byCommenceTime l)) eqn:Hall.
  - intros [= <-]. exists [], l. split; [reflexivity|]. split; [intros g' []|].
    intros g' Hg'. rewrite forallb_forall in Hall. apply Z.ltb_lt, Hall.
    apply (Permutation_in g' (sortBy_perm byCommenceTime l)). exact Hg'.
  - intros Hl. destruct (IH g Hl) as (pre & post & -> & Hpre & Hpost).
    exists (x :: pre), post. split; [reflexivity|]. split; [|exact Hpost].
    intros g' [Hx|Hg']; [|apply Hpre; exact Hg']. subst g'.
    destruct (Z.le_gt_cases (commenceTime x) (commenceTime g)) as [|Hgt]; [assumption|].
    exfalso.
    assert (Hfalse : forallb (fun y => commenceTime y <? commenceTime x)
                             (sortBy byCommenceTime (pre ++ g :: post)) = true).
    { apply forallb_forall. intros y Hy. apply Z.ltb_lt.
      apply (Permutation_in y (Permutation_sym (sortBy_perm byCommenceTime _))) in Hy.
      apply in_app_iff in Hy as [Hy|[<-|Hy]].
      - specialize (Hpre y Hy). lia.
      - lia.
      - specialize (Hpost y Hy). lia. }
    congruence.
Qed.

Lemma sortBy_nil_iff {A} (c : A -> A -> number) (l : list A) :
  sortBy c l = [] <-> l = [].
Proof.
  split; [|intros ->; reflexivity].
  intros H. pose proof (sortBy_perm c l) as HP. rewrite H in HP.
  apply Permutation_nil. symmetry. exact HP.
Qed.

End LastByCommenceTime.

(** X12.  A successful [getNFLOdds] rewrites the week document of its
    clock: one game per provider record, in order, none completed and the
    total null; the tie-breaker id is null exactly when the provider list is
    empty, and otherwise it is the id of a record that starts no earlier
    than every record before it and strictly later than every record after
    it. *)
Theorem getNFLOdds_week_document (now : Z) (events : list OddsEvent) (st : Store) :
  exists d,
    nflWeeks (getNFLOdds true now (Some events) st)
      !! wi_weekId (getCurrentNFLWeekInfo now) = Some d /\
    map game_id (games d) = map event_id events /\
    Forall (fun g => completed g = false /\
                     score g = {| home := None; away := None |}) (games d) /\
    actualTieBreakerTotalPoints d = None /\
    (tieBreakerGameId d = None <-> events = []) /\
    (forall i, tieBreakerGameId d = Some i ->
       exists pre e post,
         events = pre ++ e :: post /\ event_id e = i /\
         (forall e', In e' pre -> commence_time e' <= commence_time e) /\
         (forall e', In e' post -> commence_time e' < commence_time e)).
Proof.
  eexists. split; [apply lookup_insert_eq|].
  unfold oddsWeekDoc.
  cbn [games actualTieBreakerTotalPoints tieBreakerGameId].
  split; [|split; [|split; [reflexivity|split]]].
  - rewrite map_map. reflexivity.
  - apply Forall_forall. intros g Hg.
    apply list_elem_of_In, in_map_iff in Hg as (e & <- & _). auto.
  - unfold lastGameId.
    destruct (last _) as [g|] eqn:El; cbn.
    + split; [discriminate|]. intros ->. discriminate El.
    + split; [|reflexivity]. intros _. apply last_None in El.
      apply sortBy_nil_iff in El. destruct events; [reflexivity|discriminate].
  - intros i. unfold lastGameId.
    destruct (last _) as [g|] eqn:El; cbn; [|discriminate].
    intros [= <-].
    destruct (last_sortBy_commence _ _ El) as (pre & post & Hl & Hpre & Hpost).
    apply map_eq_app in Hl as (epre & erest & -> & <- & Hrest).
    apply map_eq_cons in Hrest as (e & epost & -> & <- & <-).
    exists epre, e, epost. split; [reflexivity|]. split; [reflexivity|]. split.
    + intros e' He'. apply (Hpre (normalizeEvent e')). apply in_map. exact He'.
    + intros e' He'. apply (Hpost (normalizeEvent e')). apply in_map. exact He'.
Qed.

(** ** Leaderboard builder: ties and entries *)

Section Stability.

Context {A : Type} (cmp : A -> A -> number) (p : A -> bool).

(** Members of the class [p] never compare as out of order. *)
Hypothesis class_tied :
  forall x y, p x = true -> p y = true -> ngt (cmp x y) (ofZ 0) = false.

Lemma insertBy_filter x s :
  List.filter p (insertBy cmp x s) =
  if p x then x :: List.filter p s else List.filter p s.
Proof.
  induction s as [|y r IH]; cbn [insertBy List.filter].
  - reflexivity.
  - destruct (ngt (cmp x y) (ofZ 0)) eqn:E; cbn [List.filter].
    + rewrite IH. destruct (p x) eqn:Hx, (p y) eqn:Hy; try reflexivity.
      rewrite (class_tied x y Hx Hy) in E. discriminate.
    + reflexivity.
Qed.

Lemma sortBy_filter l : List.filter p (sortBy cmp l) = List.filter p l.
Proof.
  induction l as [|x l IH]; [reflexivity|].
  unfold sortBy in *. cbn [foldr List.filter].
  rewrite insertBy_filter, IH. reflexivity.
Qed.

End Stability.

Lemma numEqb_eq a b : numEqb a b = true -> a = b.
Proof.
  destruct a as [|x], b as [|y]; cbn; try discriminate; [reflexivity|].
  intros H. apply Qc_eqb_eq in H. congruence.
Qed.

Lemma compareEntries_tied (actualTotal : Z) (e0 x y : Entry) :
  sameRankAs actualTotal e0 x = true -> sameRankAs actualTotal e0 y = true ->
  ngt (compareEntries actualTotal x y) (ofZ 0) = false.
Proof.
  unfold sameRankAs. rewrite !andb_true_iff.
  intros [[Hc1 Hw1] Hd1] [[Hc2 Hw2] Hd2].
  apply Z.eqb_eq in Hc1, Hc2, Hd1, Hd2. apply numEqb_eq in Hw1, Hw2.
  unfold compareEntries. rewrite Hc1, Hc2, Z.eqb_refl. cbn [negb].
  rewrite Hw1, Hw2, Hd1, Hd2, Z.sub_diag.
  destruct (entry_totalWinnerBucksWon e0) as [|w]; cbn; [reflexivity|].
  assert (Hr : Qc_eqb w w = true) by (apply Qc_eqb_eq; reflexivity).
  rewrite Hr. cbn. reflexivity.
Qed.

(** X13.  When the stored totals that the builder reads are finite
    numbers (the comparator is then consistent, and the order is the one of
    every stable sort), the built leaderboard is the stable ranking of the
    collected entries: it lists them sorted by the three ranking keys, and
    entries that tie on all three keep the order in which the builder
    collected them, that is, for every entry [e0] the entries ranked like
    [e0] appear in the order of the users read. *)
Theorem leaderboard_ties_keep_input_order
    (weekInfo : WeekInfo) (updatedWeekData : WeekDoc) (us : list User)
    (lb : Leaderboard) :
  leaderboardPhase weekInfo updatedWeekData us = Some lb ->
  Forall (finiteTotals (wi_weekId weekInfo)) us ->
  exists actualTotal,
    actualTieBreakerTotalPoints updatedWeekData = Some actualTotal /\
    Permutation (omap (entryOf (wi_weekId weekInfo)) us) (entries lb) /\
    StronglySorted (ranksBefore actualTotal) (entries lb) /\
    forall e0,
      List.filter (sameRankAs actualTotal e0) (entries lb)
      = List.filter (sameRankAs actualTotal e0) (omap (entryOf (wi_weekId weekInfo)) us).
Proof.
  intros Hlb Hfin. revert Hlb. unfold leaderboardPhase.
  destruct (actualTieBreakerTotalPoints updatedWeekData) as [actualTotal|];
    [|discriminate].
  destruct (forallb completed (games updatedWeekData)); [|discriminate].
  intros [= <-]. exists actualTotal. split; [reflexivity|]. cbn [entries].
  split; [apply sortBy_perm|].
  split; [exact (proj1 (sortLeaderboard_sorted actualTotal _ (entries_finite _ _ Hfin)))|].
  intros e0. unfold sortLeaderboard. apply sortBy_filter.
  intros x y. apply compareEntries_tied.
Qed.

(** The theorem on scenario D with a third user Z who ties with X: read in
    the order X, Y, Z, the users are ranked X, Z, Y. *)
Lemma leaderboard_ties_keep_input_order_witness :
  exists lb,
    leaderboardPhase (getCurrentNFLWeekInfo tue_1000) scenarioDWeek
      [docUserX; docUserY; docUserZ] = Some lb /\
    map entry_id (entries lb) = ["x"; "z"; "y"] /\
    map entry_id (List.filter (sameRankAs 50 userX) (entries lb)) = ["x"; "z"].
Proof.
  assert (Hfin : Forall (finiteTotals (wi_weekId (getCurrentNFLWeekInfo tue_1000)))
                        [docUserX; docUserY; docUserZ]).
  { repeat constructor; intros p Hp _; vm_compute in Hp;
      injection Hp as Hp; subst p; exact I. }
  destruct (leaderboardPhase (getCurrentNFLWeekInfo tue_1000) scenarioDWeek
              [docUserX; docUserY; docUserZ]) as [lb|] eqn:E.
  - exists lb. split; [reflexivity|].
    split; [injection E as E; subst lb; vm_compute; reflexivity|].
    destruct (leaderboard_ties_keep_input_order _ _ _ _ E Hfin)
      as (t & Ht & _ & _ & Hties).
    injection Ht as Ht. subst t. rewrite (Hties userX). vm_compute. reflexivity.
  - vm_compute in E. discriminate E.
Defined.

Lemma entryOf_Some wk u e :
  entryOf wk u = Some e ->
  exists p, doc_predictions (userDocData u) !! wk = Some p /\
            isSettled p = true /\
            entry_id e = user_id u /\
            username e = usernameOf u /\
            entry_totalCorrectPicks e = totalCorrectPicks p /\
            entry_totalWinnerBucksWon e = totalWinnerBucksWon p /\
            entry_tieBreakerPoints e = tieBreakerPoints p.
Proof.
  unfold entryOf. destruct (doc_predictions _ !! wk) as [p|]; [|discriminate].
  destruct (isSettled p) eqn:Hs; [|discriminate].
  intros [= <-]. exists p. repeat split. exact Hs.
Qed.

(** X14.  A leaderboard that is built lists exactly one entry for each
    user whose user document holds settled predictions of the week, copied
    from those predictions, and nothing else; in particular it has no entry
    when no user document carries predictions of the week. *)
Theorem leaderboard_entries
    (weekInfo : WeekInfo) (updatedWeekData : WeekDoc) (us : list User)
    (lb : Leaderboard) :
  leaderboardPhase weekInfo updatedWeekData us = Some lb ->
  Permutation (omap (entryOf (wi_weekId weekInfo)) us) (entries lb) /\
  (forall e, In e (entries lb) ->
     exists u p, In u us /\
       doc_predictions (userDocData u) !! wi_weekId weekInfo = Some p /\
       isSettled p = true /\ entry_id e = user_id u /\
       entry_totalCorrectPicks e = totalCorrectPicks p /\
       entry_totalWinnerBucksWon e = totalWinnerBucksWon p /\
       entry_tieBreakerPoints e = tieBreakerPoints p) /\
  (length (entries lb) <= length us)%nat /\
  (Forall (fun u => doc_predictions (userDocData u) !! wi_weekId weekInfo = None) us ->
   entries lb = []).
Proof.
  unfold leaderboardPhase.
  destruct (actualTieBreakerTotalPoints updatedWeekData) as [total|]; [|discriminate].
  destruct (forallb completed (games updatedWeekData)); [|discriminate].
  intros [= <-]. cbn [entries].
  pose proof (sortBy_perm (compareEntries total)
                (omap (entryOf (wi_weekId weekInfo)) us)) as HP.
  fold (sortLeaderboard total (omap (entryOf (wi_weekId weekInfo)) us)) in HP.
  split; [exact HP|]. split; [|split].
  - intros e He. apply (Permutation_in e (Permutation_sym HP)) in He.
    apply list_elem_of_In, list_elem_of_omap in He as (u & Hu & Hsome).
    destruct (entryOf_Some _ _ _ Hsome) as (p & H1 & H2 & H3 & _ & H4 & H5 & H6).
    exists u, p. apply list_elem_of_In in Hu. auto 10.
  - rewrite <- (Permutation_length HP). clear HP.
    induction us as [|u us IH]; cbn; [lia|].
    destruct (entryOf _ u); cbn; lia.
  - intros Hnone.
    assert (Hnil : omap (entryOf (wi_weekId weekInfo)) us = []).
    { clear HP. induction Hnone as [|u us Hu _ IH]; [reflexivity|].
      cbn. unfold entryOf at 1. rewrite Hu. exact IH. }
    rewrite Hnil. reflexivity.
Qed.

(** The theorem on scenario D read together with the sample user, whose
    user document has no fields: the leaderboard has the entries of X and Y
    and none for the sample user. *)
Lemma leaderboard_entries_witness :
  exists lb,
    leaderboardPhase (getCurrentNFLWeekInfo tue_1000) scenarioDWeek
      [sampleUser; docUserX; docUserY] = Some lb /\
    Permutation [userX; userY] (entries lb) /\
    forall e, In e (entries lb) -> entry_id e = "x" \/ entry_id e = "y".
Proof.
  destruct (leaderboardPhase (getCurrentNFLWeekInfo tue_1000) scenarioDWeek
              [sampleUser; docUserX; docUserY]) as [lb|] eqn:E.
  - exists lb. split; [reflexivity|].
    destruct (leaderboard_entries _ _ _ _ E) as (Hperm & Hfrom & _ & _).
    split; [exact Hperm|].
    intros e He. destruct (Hfrom e He) as (u & p & Hu & Hp & _ & Hid & _).
    destruct Hu as [<-|[<-|[<-|[]]]].
    + vm_compute in Hp. discriminate Hp.
    + left. exact Hid.
    + right. exact Hid.
  - vm_compute in E. discriminate E.
Defined.

(** The pass that brings the final scores settles the predictions document
    of the sample user with two correct picks and writes the leaderboard of
    the week without any entry. *)
Example settled_user_missing_from_leaderboard :
  let r := syncNflDataAndSettle true tue_1000 (Some sampleEvents) (Some finalScores)
             fetchedStoreWithUser in
  option_map (fun u => option_map (fun s => (isSettled s, totalCorrectPicks s))
                                  (predictionDocs u !! sampleWeekId))
             (head (users (after r))) = Some (Some (true, 2)) /\
  option_map entries (leaderboardWritten r) = Some [].
Proof. vm_compute. split; reflexivity. Qed.

(** ** The betting window as the picks form sees it *)

(** X15.  The picks form reads the week document stored under the week id
    that its own clock gives for the current instant, in a zone less than a
    day away from UTC.  For a document whose window was written by a pass of
    the week of that id, [bettingOpen] holds exactly from the stored start,
    a Tuesday 00:01 UTC, on; the wall clock of the browser has then not yet
    passed that Tuesday, because the week id moves on when the wall clock
    reaches Wednesday 00:00; so the stored deadline (Thursday 17:00 UTC) is
    never reached and [picksLocked] never holds.  In a browser on UTC betting
    is open exactly on the Tuesday from 00:01 on. *)
Theorem betting_window_cut_at_week_change (offset t now : Z) (d : WeekDoc) :
  Z.abs offset <= msPerDay ->
  wi_weekId (getCurrentNFLWeekInfo t) = clientWeekId offset now ->
  wd_bettingWindowStart d = bettingWindowStart (getCurrentNFLWeekInfo t) ->
  wd_bettingWindowEnd d = bettingWindowEnd (getCurrentNFLWeekInfo t) ->
  (bettingOpen (Some d) now = true <-> wd_bettingWindowStart d <= now) /\
  getDay (wd_bettingWindowStart d) = 2 /\
  wd_bettingWindowStart d mod msPerDay = 60000 /\
  dayNumber (wallClock offset now) <= dayNumber (wd_bettingWindowStart d) /\
  picksLocked (Some d) now = false /\
  (offset = 0 ->
   (bettingOpen (Some d) now = true <-> getDay now = 2 /\ 60000 <= now mod msPerDay)).
Proof.
  intros Hoff Hid Hs He. rewrite clientWeekId_eq in Hid. apply weekId_inj in Hid.
  unfold bettingOpen, picksLocked, wallClock. rewrite Hs, He, weekInfo_eq. simpl.
  rewrite Hid. clear Hs He Hid.
  rewrite andb_true_iff, !Z.leb_le, Z.ltb_ge.
  assert (Hweek : dayNumber (now + offset) <= tuesdayDay (now + offset)
                  /\ (getDay (now + offset) = 2 <->
                      dayNumber (now + offset) = tuesdayDay (now + offset))).
  { unfold tuesdayDay, getDay. Z.div_mod_to_equations. lia. }
  destruct Hweek as [Hle Htue].
  set (D := tuesdayDay (now + offset)) in *.
  assert (HdayD : dayNumber (D * msPerDay + 60000) = D)
    by (apply dayNumber_at; unfold msPerDay; lia).
  assert (Hnow : now + offset < (D + 1) * msPerDay).
  { unfold dayNumber, msPerDay in *. Z.div_mod_to_equations. lia. }
  unfold msPerDay in Hoff.
  split; [|split; [|split; [|split; [|split]]]].
  - unfold msPerDay in *. lia.
  - unfold getDay. rewrite HdayD. unfold D, tuesdayDay, getDay.
    Z.div_mod_to_equations. lia.
  - unfold msPerDay. Z.div_mod_to_equations. lia.
  - rewrite HdayD. exact Hle.
  - unfold msPerDay in *. lia.
  - intros ->. rewrite Z.add_0_r in *.
    unfold D, tuesdayDay, getDay, dayNumber, msPerDay in *.
    Z.div_mod_to_equations. lia.
Qed.

(** The theorem in a browser seven hours behind UTC, at the instant at which
    its wall clock shows Tuesday 2024-09-10 10:00. *)
Lemma betting_window_cut_at_week_change_witness :
  Z.abs sevenHoursBehind <= msPerDay /\
  wi_weekId (getCurrentNFLWeekInfo tue_1000)
    = clientWeekId sevenHoursBehind (tue_1000 - sevenHoursBehind) /\
  bettingOpen (Some fetchedWeek) (tue_1000 - sevenHoursBehind) = true /\
  picksLocked (Some fetchedWeek) (tue_1000 - sevenHoursBehind) = false.
Proof.
  assert (Hoff : Z.abs sevenHoursBehind <= msPerDay) by (vm_compute; discriminate).
  assert (Hid : wi_weekId (getCurrentNFLWeekInfo tue_1000)
                = clientWeekId sevenHoursBehind (tue_1000 - sevenHoursBehind))
    by (vm_compute; reflexivity).
  split; [exact Hoff|]. split; [exact Hid|].
  destruct (betting_window_cut_at_week_change sevenHoursBehind tue_1000
              (tue_1000 - sevenHoursBehind) fetchedWeek Hoff Hid eq_refl eq_refl)
    as (Hopen & _ & _ & _ & Hlocked & _).
  split; [|exact Hlocked].
  apply Hopen. vm_compute. discriminate.
Defined.

(** In that browser betting is still open when UTC has reached Wednesday. *)
Example betting_open_on_utc_wednesday :
  getDay (wed_0000 + 3600000) = 3 /\
  clientWeekId sevenHoursBehind (wed_0000 + 3600000) = "week-2024-9-10" /\
  bettingOpen (Some fetchedWeek) (wed_0000 + 3600000) = true.
Proof. repeat split; vm_compute; reflexivity. Qed.

(** ** The picks form *)

Section ObjSet.

Context {A : Type}.

Lemma insertIndex_perm (k : string) (v : A) (o : list (string * A)) :
  Permutation ((k, v) :: o) (insertIndex k v o).
Proof.
  induction o as [|[k0 v0] o IH]; cbn [insertIndex]; [reflexivity|].
  destruct (isArrayIndex k0 && (decimalValue k0 0 <? decimalValue k 0)); [|reflexivity].
  rewrite perm_swap. constructor. exact IH.
Qed.

Lemma replaceKey_keys (k : string) (v : A) (o : list (string * A)) :
  existsb (fun e => String.eqb (fst e) k) o = true ->
  map fst (replaceKey k v o) = map fst o.
Proof.
  induction o as [|[k0 v0] o IH]; cbn [existsb replaceKey map fst]; [discriminate|].
  destruct (String.eqb k0 k) eqn:E; cbn [orb map fst].
  - apply String.eqb_eq in E. subst k0. reflexivity.
  - intros H. rewrite (IH H). reflexivity.
Qed.

Lemma replaceKey_values (P : string * A -> Prop) (k : string) (v : A)
    (o : list (string * A)) :
  P (k, v) -> Forall P o -> Forall P (replaceKey k v o).
Proof.
  intros Hv. induction 1 as [|[k0 v0] o H0 Ho IH]; cbn [replaceKey]; [constructor|].
  destruct (String.eqb k0 k); constructor; auto.
Qed.

Lemma existsb_key (k : string) (o : list (string * A)) :
  existsb (fun e => String.eqb (fst e) k) o = true <-> In k (map fst o).
Proof.
  rewrite existsb_exists, in_map_iff. split.
  - intros (e & He & Hk). apply String.eqb_eq in Hk. exists e. auto.
  - intros (e & Hk & He). exists e. split; [exact He|]. apply String.eqb_eq. exact Hk.
Qed.

(** A key that is new and no array index goes last. *)
Lemma objSet_fresh (k : string) (v : A) (o : list (string * A)) :
  ~ In k (map fst o) -> isArrayIndex k = false -> objSet k v o = o ++ [(k, v)].
Proof.
  intros Hk Hi. unfold objSet.
  destruct (existsb _ o) eqn:E; [apply existsb_key in E; contradiction|].
  rewrite Hi. reflexivity.
Qed.

(** A key that is new is added, wherever it goes. *)
Lemma objSet_fresh_perm (k : string) (v : A) (o : list (string * A)) :
  ~ In k (map fst o) -> Permutation (o ++ [(k, v)]) (objSet k v o).
Proof.
  intros Hk. unfold objSet.
  destruct (existsb _ o) eqn:E; [apply existsb_key in E; contradiction|].
  destruct (isArrayIndex k); [|reflexivity].
  rewrite <- insertIndex_perm. symmetry. apply Permutation_cons_append.
Qed.

Lemma objSet_keys (k : string) (v : A) (o : list (string * A)) (k' : string) :
  In k' (map fst (objSet k v o)) <-> k' = k \/ In k' (map fst o).
Proof.
  unfold objSet. destruct (existsb _ o) eqn:E.
  - rewrite (replaceKey_keys _ _ _ E). apply existsb_key in E.
    split; [auto|]. intros [->|H]; assumption.
  - assert (HP : Permutation (map fst ((k, v) :: o))
                   (map fst (if isArrayIndex k then insertIndex k v o else o ++ [(k, v)]))).
    { apply Permutation_map. destruct (isArrayIndex k);
        [apply insertIndex_perm|apply Permutation_cons_append]. }
    cbn [map fst] in HP. split.
    + intros H. apply (Permutation_in _ (Permutation_sym HP)) in H.
      destruct H as [<-|H]; auto.
    + intros H. apply (Permutation_in _ HP). destruct H as [->|H]; [left|right]; auto.
Qed.

Lemma objSet_values (P : string * A -> Prop) (k : string) (v : A)
    (o : list (string * A)) :
  P (k, v) -> Forall P o -> Forall P (objSet k v o).
Proof.
  intros Hv Ho. unfold objSet. destruct (existsb _ o).
  - apply replaceKey_values; assumption.
  - destruct (isArrayIndex k).
    + eapply Permutation_Forall; [apply insertIndex_perm|]. constructor; assumption.
    + apply Forall_app. split; [exact Ho|]. repeat constructor. exact Hv.
Qed.

End ObjSet.

Section PicksToSubmit.

Lemma picksToSubmit_picked picked t gs : forall acc ps,
  picksToSubmit picked t gs acc = inr ps ->
  Forall (fun g => exists dp, picked !! game_id g = Some dp /\ draft_pick dp <> "") gs.
Proof.
  induction gs as [|g gs IH]; intros acc ps H; [constructor|].
  cbn [picksToSubmit] in H.
  destruct (picked !! game_id g) as [dp|] eqn:Hdp; [|discriminate].
  destruct (String.eqb (draft_pick dp) "") eqn:He; [discriminate|].
  constructor; [|exact (IH _ _ H)].
  exists dp. split; [exact Hdp|]. apply String.eqb_neq. exact He.
Qed.

Lemma picksToSubmit_keys picked t gs : forall acc ps,
  picksToSubmit picked t gs acc = inr ps ->
  forall k, In k (map fst ps) <-> In k (map fst acc) \/ In k (map game_id gs).
Proof.
  induction gs as [|g gs IH]; intros acc ps H k; cbn [picksToSubmit] in H.
  - injection H as H. subst ps. cbn [map In]. tauto.
  - destruct (picked !! game_id g) as [dp|]; [|discriminate].
    destruct (String.eqb (draft_pick dp) ""); [discriminate|].
    rewrite (IH _ _ H k), objSet_keys. cbn [map In].
    split; intros Hk; intuition (subst; auto).
Qed.

Lemma picksToSubmit_values picked t gs (P : string * Pick -> Prop) :
  (forall g, In g gs -> P (entryFor picked t g)) ->
  forall acc ps,
  Forall P acc ->
  picksToSubmit picked t gs acc = inr ps ->
  Forall P ps.
Proof.
  induction gs as [|g gs IH]; intros HP acc ps Hacc H; cbn [picksToSubmit] in H.
  - injection H as H. subst ps. exact Hacc.
  - destruct (picked !! game_id g) as [dp|] eqn:Hdp; [|discriminate].
    destruct (String.eqb (draft_pick dp) ""); [discriminate|].
    refine (IH (fun g' Hg' => HP g' (or_intror Hg')) _ _ _ H).
    apply objSet_values; [|exact Hacc].
    specialize (HP g (or_introl eq_refl)).
    unfold entryFor, pickedTeam in HP. rewrite Hdp in HP. exact HP.
Qed.

Lemma picksToSubmit_perm picked t gs : forall acc ps,
  NoDup (map fst acc ++ map game_id gs) ->
  picksToSubmit picked t gs acc = inr ps ->
  Permutation (acc ++ map (entryFor picked t) gs) ps.
Proof.
  induction gs as [|g gs IH]; intros acc ps Hnd H; cbn [picksToSubmit] in H.
  - injection H as H. subst ps. cbn [map]. rewrite app_nil_r. reflexivity.
  - destruct (picked !! game_id g) as [dp|] eqn:Hdp; [|discriminate].
    destruct (String.eqb (draft_pick dp) ""); [discriminate|].
    cbn [map] in Hnd.
    assert (Hfresh : ~ In (game_id g) (map fst acc)).
    { intros Hin. apply NoDup_app in Hnd as (_ & Hdis & _).
      apply (Hdis (game_id g)); [apply list_elem_of_In; exact Hin|].
      constructor. }
    pose proof (objSet_fresh_perm (game_id g)
                  (freshPick (draft_pick dp) t (game_id g)) acc Hfresh) as Hset.
    assert (Hnd' : NoDup (map fst (objSet (game_id g)
                            (freshPick (draft_pick dp) t (game_id g)) acc)
                          ++ map game_id gs)).
    { rewrite <- (Permutation_map fst Hset), map_app. cbn [map fst].
      rewrite <- app_assoc. exact Hnd. }
    rewrite <- (IH _ _ Hnd' H), <- Hset, <- app_assoc. cbn [app map].
    unfold entryFor at 1, pickedTeam. rewrite Hdp. reflexivity.
Qed.

Lemma picksToSubmit_distinct picked t gs : forall acc ps,
  NoDup (map fst acc ++ map game_id gs) ->
  Forall (fun g => isArrayIndex (game_id g) = false) gs ->
  picksToSubmit picked t gs acc = inr ps ->
  ps = acc ++ map (entryFor picked t) gs.
Proof.
  induction gs as [|g gs IH]; intros acc ps Hnd Hids H; cbn [picksToSubmit] in H.
  - injection H as H. subst ps. cbn [map]. rewrite app_nil_r. reflexivity.
  - destruct (picked !! game_id g) as [dp|] eqn:Hdp; [|discriminate].
    destruct (String.eqb (draft_pick dp) ""); [discriminate|].
    cbn [map] in Hnd. apply Forall_cons in Hids as [Hid Hids].
    assert (Hfresh : ~ In (game_id g) (map fst acc)).
    { intros Hin. apply NoDup_app in Hnd as (_ & Hdis & _).
      apply (Hdis (game_id g)); [apply list_elem_of_In; exact Hin|].
      constructor. }
    rewrite (objSet_fresh _ _ _ Hfresh Hid) in H.
    assert (Hnd' : NoDup (map fst (acc ++ [(game_id g,
                            freshPick (draft_pick dp) t (game_id g))])
                          ++ map game_id gs)).
    { rewrite map_app. cbn [map fst]. rewrite <- app_assoc. exact Hnd. }
    rewrite (IH _ _ Hnd' Hids H).
    rewrite <- app_assoc. cbn [app map].
    unfold entryFor at 2, pickedTeam. rewrite Hdp. reflexivity.
Qed.

End PicksToSubmit.

Section SubmitPicks.

Variable parseIntText : string -> option Z.

(** Everything that an accepted submission went through. *)
Lemma handleSubmitPicks_inv renderTime now f p doc :
  handleSubmitPicks parseIntText renderTime now f = Submitted p doc ->
  exists uid userData w tieBreakerGame guess ps,
    form_userId f = Some uid /\ form_userData f = Some userData /\
    uid <> "" /\ form_db f = true /\
    bettingOpen (weeklyGames f) renderTime = true /\
    userWeeklyEntriesCount f < maxEntriesPerWeek /\
    weeklyGames f = Some w /\
    size (userPicks f) = length (games w) /\
    find (fun g => isTieBreaker g (tieBreakerGameId w)) (games w) = Some tieBreakerGame /\
    isEmptyText (tieBreakerInput f) = false /\
    parseField parseIntText (tieBreakerInput f) = Some guess /\
    picksToSubmit (userPicks f) (selectedTier f) (games w) [] = inr ps /\
    selectedTier f <= predictorPoints userData /\
    p = {| predictorPoints := predictorPoints userData - selectedTier f;
           pd_winnerBucks := pd_winnerBucks userData;
           xp := xp userData;
           lastDailyBonusClaim := lastDailyBonusClaim userData;
           created_at := created_at userData;
           weeklyEntries :=
             <[wd_weekId w := default 0 (weeklyEntries userData !! wd_weekId w) + 1]>
               (weeklyEntries userData);
           pd_username := pd_username userData |} /\
    doc = {| userId := uid; weekId := wd_weekId w; picks := ps;
             tieBreakerPoints := guess; submittedAt := now;
             sub_tier := selectedTier f; isSettled := false;
             totalCorrectPicks := 0; totalWinnerBucksWon := ofZ 0 |}.
Proof.
  unfold handleSubmitPicks. intros H.
  destruct (form_userId f) as [uid|]; [|discriminate].
  destruct (form_userData f) as [userData|]; [|discriminate].
  destruct (String.eqb uid "") eqn:Huid; [discriminate|].
  destruct (form_db f) eqn:Hdb; [|discriminate]. cbn [orb negb] in H.
  destruct (bettingOpen (weeklyGames f) renderTime) eqn:Hopen; [|discriminate].
  cbn [negb] in H.
  destruct (maxEntriesPerWeek <=? userWeeklyEntriesCount f) eqn:Hcap; [discriminate|].
  destruct (weeklyGames f) as [w|]; [|discriminate].
  destruct (size (userPicks f) =? length (games w))%nat eqn:Hsize; [|discriminate].
  cbn [negb] in H.
  destruct (find _ (games w)) as [tbg|] eqn:Htb; [|discriminate].
  destruct (isEmptyText (tieBreakerInput f)) eqn:Hempty; [discriminate|].
  destruct (parseField parseIntText (tieBreakerInput f)) as [guess|]; [|discriminate].
  destruct (picksToSubmit _ _ _ _) as [m|ps] eqn:Hps; [discriminate|].
  destruct (predictorPoints userData <? selectedTier f) eqn:Hcost; [discriminate|].
  injection H as Hp Hdoc.
  exists uid, userData, w, tbg, guess, ps.
  apply String.eqb_neq in Huid. apply Z.leb_gt in Hcap. apply Z.ltb_ge in Hcost.
  apply Nat.eqb_eq in Hsize.
  repeat (split; [solve [auto]|]). auto.
Qed.

Lemma handleTieBreakerChange_inRange renderTime value f :
  guessInRange parseIntText (tieBreakerInput f) ->
  guessInRange parseIntText (handleTieBreakerChange parseIntText renderTime value f).
Proof.
  intros Hold. unfold handleTieBreakerChange.
  destruct (_ || _ || _); [exact Hold|].
  destruct (String.eqb value "") eqn:Hv.
  - apply String.eqb_eq in Hv. left. exact Hv.
  - cbn [orb]. destruct (digitsOnly value); [|exact Hold]. cbn [andb].
    destruct (parseIntText value) as [n|] eqn:Hn; [|exact Hold].
    destruct ((0 <=? n) && (n <=? 200)) eqn:Hr; [|exact Hold].
    apply andb_true_iff in Hr as [H0 H200].
    right. exists n. split; [exact Hn|]. lia.
Qed.

Lemma typeTieBreaker_inRange changes : forall f,
  guessInRange parseIntText (tieBreakerInput f) ->
  guessInRange parseIntText (tieBreakerInput (typeTieBreaker parseIntText changes f)).
Proof.
  induction changes as [|[renderTime value] rest IH]; intros f Hf; [exact Hf|].
  cbn [typeTieBreaker]. apply IH. cbn [setTieBreakerPoints tieBreakerInput].
  apply handleTieBreakerChange_inRange. exact Hf.
Qed.

End SubmitPicks.

(** X16.  [handleSubmitPicks] writes nothing unless the user is signed in
    with a loaded profile, betting was open at the last render, the user has
    fewer than three entries this week, the number of picks equals the number
    of listed games, the week's tie-breaker game is among them, every listed
    game has a pick with a non-empty team, and the profile holds at least the
    selected tier in Predictor Points. *)
Theorem submission_accepted_only_if
    (parseIntText : string -> option Z) (renderTime now : Z) (f : PicksForm)
    (p : ProfileData) (doc : Submission) :
  handleSubmitPicks parseIntText renderTime now f = Submitted p doc ->
  exists uid userData w,
    form_userId f = Some uid /\ uid <> "" /\ form_db f = true /\
    form_userData f = Some userData /\
    weeklyGames f = Some w /\
    wd_bettingWindowStart w <= renderTime <= wd_bettingWindowEnd w /\
    userWeeklyEntriesCount f < 3 /\
    size (userPicks f) = length (games w) /\
    (exists g, In g (games w) /\ tieBreakerGameId w = Some (game_id g)) /\
    Forall (fun g => exists dp, userPicks f !! game_id g = Some dp
                                /\ draft_pick dp <> "") (games w) /\
    selectedTier f <= predictorPoints userData.
Proof.
  intros H.
  destruct (handleSubmitPicks_inv _ _ _ _ _ _ H)
    as (uid & userData & w & tbg & guess & ps & Hu & Hd & Hne & Hdb & Hopen
        & Hcap & Hw & Hsize & Htb & _ & _ & Hps & Hcost & _ & _).
  exists uid, userData, w.
  rewrite Hw in Hopen. cbn [bettingOpen] in Hopen.
  apply andb_true_iff in Hopen as [Hs He]. apply Z.leb_le in Hs, He.
  unfold maxEntriesPerWeek in Hcap.
  repeat (split; [solve [auto]|]). split; [|split; [|exact Hcost]].
  - exists tbg. apply find_some in Htb as [Hin Hid]. split; [exact Hin|].
    unfold isTieBreaker in Hid. destruct (tieBreakerGameId w) as [i|]; [|discriminate].
    apply String.eqb_eq in Hid. congruence.
  - exact (picksToSubmit_picked _ _ _ _ _ Hps).
Qed.

(** X17.  What an accepted submission writes.  The profile loses exactly the
    selected tier in Predictor Points and does not go below zero, the entry
    count of the week goes up by one, and nothing else in the profile
    changes.  The predictions document is unsettled with totals 0, carries
    the parsed tie-breaker guess, and has one entry for every listed game,
    with the picked team, the selected tier, outcome pending and winnings 0.
    When the listed games have distinct ids the entries are those of the
    list in some order, and in the order of the list when furthermore no id
    is an array index (an object lists such keys first, in ascending
    order). *)
Theorem submission_documents
    (parseIntText : string -> option Z) (renderTime now : Z) (f : PicksForm)
    (p : ProfileData) (doc : Submission) :
  handleSubmitPicks parseIntText renderTime now f = Submitted p doc ->
  exists uid userData w,
    form_userId f = Some uid /\ form_userData f = Some userData /\
    weeklyGames f = Some w /\
    predictorPoints p = predictorPoints userData - selectedTier f /\
    0 <= predictorPoints p /\
    weeklyEntries p !! wd_weekId w
      = Some (default 0 (weeklyEntries userData !! wd_weekId w) + 1) /\
    (forall k, k <> wd_weekId w -> weeklyEntries p !! k = weeklyEntries userData !! k) /\
    pd_winnerBucks p = pd_winnerBucks userData /\ xp p = xp userData /\
    lastDailyBonusClaim p = lastDailyBonusClaim userData /\
    created_at p = created_at userData /\ pd_username p = pd_username userData /\
    userId doc = uid /\ weekId doc = wd_weekId w /\ submittedAt doc = now /\
    sub_tier doc = selectedTier f /\ isSettled doc = false /\
    totalCorrectPicks doc = 0 /\ totalWinnerBucksWon doc = ofZ 0 /\
    parseField parseIntText (tieBreakerInput f) = Some (tieBreakerPoints doc) /\
    (forall k, In k (map fst (picks doc)) <-> In k (map game_id (games w))) /\
    Forall (fun e => exists g, In g (games w)
                               /\ e = entryFor (userPicks f) (selectedTier f) g)
           (picks doc) /\
    (NoDup (map game_id (games w)) ->
     Permutation (map (entryFor (userPicks f) (selectedTier f)) (games w)) (picks doc)) /\
    (NoDup (map game_id (games w)) ->
     Forall (fun g => isArrayIndex (game_id g) = false) (games w) ->
     picks doc = map (entryFor (userPicks f) (selectedTier f)) (games w)).
Proof.
  intros H.
  destruct (handleSubmitPicks_inv _ _ _ _ _ _ H)
    as (uid & userData & w & tbg & guess & ps & Hu & Hd & _ & _ & _
        & _ & Hw & _ & _ & _ & Hguess & Hps & Hcost & -> & ->).
  exists uid, userData, w.
  cbn [predictorPoints weeklyEntries pd_winnerBucks xp lastDailyBonusClaim
       created_at pd_username userId weekId submittedAt sub_tier isSettled
       totalCorrectPicks totalWinnerBucksWon tieBreakerPoints picks].
  repeat (split; [solve [auto]|]).
  split; [lia|]. split; [apply lookup_insert_eq|].
  split; [intros k Hk; apply lookup_insert_ne; congruence|].
  repeat (split; [solve [auto]|]).
  split; [|split; [|split]].
  - intros k. rewrite (picksToSubmit_keys _ _ _ _ _ Hps k). cbn [map In]. tauto.
  - apply (picksToSubmit_values _ _ _ _ (fun g Hg => ex_intro _ g (conj Hg eq_refl))
             [] ps (List.Forall_nil _) Hps).
  - intros Hnd. exact (picksToSubmit_perm _ _ _ [] ps Hnd Hps).
  - intros Hnd Hids. exact (picksToSubmit_distinct _ _ _ [] ps Hnd Hids Hps).
Qed.

(** X18.  An accepted submission is settled by a later run exactly when
    every game that was listed at submission time is stored and completed
    in the list of that run; games added to the week afterwards play no
    part. *)
Theorem submitted_entry_settles_with_its_games
    (parseIntText : string -> option Z) (renderTime now : Z) (f : PicksForm)
    (p : ProfileData) (doc : Submission) (w : WeekDoc) (later : list Game) :
  handleSubmitPicks parseIntText renderTime now f = Submitted p doc ->
  weeklyGames f = Some w ->
  (isSettled (settle later doc) = true <->
   Forall (fun g => gameCompleted later (game_id g) = true) (games w)).
Proof.
  intros H Hw.
  destruct (handleSubmitPicks_inv _ _ _ _ _ _ H)
    as (uid & userData & w' & tbg & guess & ps & _ & _ & _ & _ & _
        & _ & Hw' & _ & _ & _ & _ & Hps & _ & _ & ->).
  rewrite Hw in Hw'. injection Hw' as Hw'. subst w'.
  rewrite settle_isSettled. cbn [picks].
  pose proof (picksToSubmit_keys _ _ _ _ _ Hps) as Hkeys.
  rewrite forallb_forall, Forall_forall. split.
  - intros Hall g Hg. apply list_elem_of_In in Hg.
    assert (Hk : In (game_id g) (map fst ps)).
    { apply Hkeys. right. apply in_map. exact Hg. }
    apply in_map_iff in Hk as (e & He & Hin).
    rewrite <- He. apply Hall. exact Hin.
  - intros Hall e He.
    assert (Hk : In (fst e) (map game_id (games w))).
    { destruct (proj1 (Hkeys (fst e)) (in_map fst _ _ He)) as [[]|Hk]. exact Hk. }
    apply in_map_iff in Hk as (g & Hg & Hin).
    rewrite <- Hg. apply Hall. apply list_elem_of_In. exact Hin.
Qed.

(** X19.  A tie-breaker guess that went through the input handler is within
    range: starting from an empty input or a stored guess from 0 to 200,
    after any series of changes of the input, an accepted submission stores a
    guess from 0 to 200. *)
Theorem typed_guess_within_range
    (parseIntText : string -> option Z) (changes : list (Z * string))
    (renderTime now : Z) (f : PicksForm) (p : ProfileData) (doc : Submission) :
  guessInRange parseIntText (tieBreakerInput f) ->
  handleSubmitPicks parseIntText renderTime now (typeTieBreaker parseIntText changes f)
    = Submitted p doc ->
  0 <= tieBreakerPoints doc <= 200.
Proof.
  intros Hf H.
  pose proof (typeTieBreaker_inRange parseIntText changes f Hf) as Hr.
  destruct (handleSubmitPicks_inv _ _ _ _ _ _ H)
    as (uid & userData & w & tbg & guess & ps & _ & _ & _ & _ & _
        & _ & _ & _ & _ & Hempty & Hguess & _ & _ & _ & ->).
  cbn [tieBreakerPoints].
  destruct (tieBreakerInput (typeTieBreaker parseIntText changes f)) as [s|n];
    cbn [guessInRange parseField isEmptyText] in *.
  - destruct Hr as [->|(n & Hn & Hrange)]; [discriminate|]. congruence.
  - congruence.
Qed.

(** The four theorems on the sample form, submitted on Tuesday at 10:00:
    the third change of the input, to 410, was refused, and the guess stored
    is 41. *)
Lemma submission_accepted_only_if_witness :
  exists p doc,
    handleSubmitPicks sampleParseInt tue_1000 tue_1000 typedForm = Submitted p doc /\
    exists uid userData w,
      form_userId typedForm = Some uid /\ uid <> "" /\ form_db typedForm = true /\
      form_userData typedForm = Some userData /\
      weeklyGames typedForm = Some w /\
      wd_bettingWindowStart w <= tue_1000 <= wd_bettingWindowEnd w /\
      userWeeklyEntriesCount typedForm < 3 /\
      size (userPicks typedForm) = length (games w) /\
      (exists g, In g (games w) /\ tieBreakerGameId w = Some (game_id g)) /\
      Forall (fun g => exists dp, userPicks typedForm !! game_id g = Some dp
                                  /\ draft_pick dp <> "") (games w) /\
      selectedTier typedForm <= predictorPoints userData.
Proof.
  destruct (handleSubmitPicks sampleParseInt tue_1000 tue_1000 typedForm)
    as [m|p doc] eqn:E.
  - vm_compute in E. discriminate E.
  - exists p, doc. split; [reflexivity|].
    exact (submission_accepted_only_if _ _ _ _ _ _ E).
Defined.

Lemma submission_documents_witness :
  exists p doc,
    handleSubmitPicks sampleParseInt tue_1000 tue_1000 typedForm = Submitted p doc /\
    predictorPoints p = 4975 /\
    weeklyEntries p !! sampleWeekId = Some 1 /\
    map fst (picks doc) = ["g1"; "g2"] /\
    map (fun e => pick (snd e)) (picks doc) = ["Bears"; "Jets"].
Proof.
  destruct (handleSubmitPicks sampleParseInt tue_1000 tue_1000 typedForm)
    as [m|p doc] eqn:E.
  - vm_compute in E. discriminate E.
  - exists p, doc. split; [reflexivity|].
    destruct (submission_documents _ _ _ _ _ _ E)
      as (uid & userData & w & Hu & Hd & Hw & Hp & _ & He & _ & _ & _ & _ & _ & _
          & _ & _ & _ & _ & _ & _ & _ & _ & _ & _ & _ & Hpicks).
    injection Hd as Hd. injection Hw as Hw. subst userData w.
    split; [rewrite Hp; vm_compute; reflexivity|].
    split.
    { replace sampleWeekId with (wd_weekId fetchedWeek) by (vm_compute; reflexivity).
      rewrite He. vm_compute. reflexivity. }
    rewrite Hpicks;
      [|apply (bool_decide_unpack _); vm_compute; reflexivity
       |repeat constructor].
    split; vm_compute; reflexivity.
Defined.

Lemma submitted_entry_settles_with_its_games_witness :
  exists p doc,
    handleSubmitPicks sampleParseInt tue_1000 tue_1000 typedForm = Submitted p doc /\
    isSettled (settle gamesA doc) = true.
Proof.
  destruct (handleSubmitPicks sampleParseInt tue_1000 tue_1000 typedForm)
    as [m|p doc] eqn:E.
  - vm_compute in E. discriminate E.
  - exists p, doc. split; [reflexivity|].
    apply (submitted_entry_settles_with_its_games _ _ _ _ _ _ fetchedWeek gamesA E);
      [reflexivity|].
    repeat constructor.
Defined.

Lemma typed_guess_within_range_witness :
  exists p doc,
    handleSubmitPicks sampleParseInt tue_1000 tue_1000 typedForm = Submitted p doc /\
    0 <= tieBreakerPoints doc <= 200.
Proof.
  destruct (handleSubmitPicks sampleParseInt tue_1000 tue_1000 typedForm)
    as [m|p doc] eqn:E.
  - vm_compute in E. discriminate E.
  - exists p, doc. split; [reflexivity|].
    apply (typed_guess_within_range sampleParseInt typedChanges
             tue_1000 tue_1000 sampleForm p doc); [left; reflexivity|exact E].
Defined.

(** With the game ids 10 and 9, listed in that order, the picks object of
    the submission has the entry of game 9 first. *)
Example numbered_ids_come_in_ascending_order :
  option_map (fun doc => map fst (picks doc))
    (match handleSubmitPicks sampleParseInt tue_1000 tue_1000 numberedForm with
     | Submitted _ doc => Some doc
     | Rejected _ => None
     end) = Some ["9"; "10"].
Proof. vm_compute. reflexivity. Qed.

(** The sample submission stores the guess 41, and a fourth entry of the week
    is refused. *)
Example sample_submission_guess :
  option_map tieBreakerPoints
    (match handleSubmitPicks sampleParseInt tue_1000 tue_1000 typedForm with
     | Submitted _ doc => Some doc
     | Rejected _ => None
     end) = Some 41.
Proof. vm_compute. reflexivity. Qed.

Example fourth_entry_refused :
  handleSubmitPicks sampleParseInt tue_1000 tue_1000
    {| form_userId := form_userId typedForm; form_db := true;
       form_userData := form_userData typedForm;
       weeklyGames := weeklyGames typedForm;
       userPicks := userPicks typedForm;
       selectedTier := 25;
       tieBreakerInput := tieBreakerInput typedForm;
       userWeeklyEntriesCount := 3 |}
  = Rejected "You have reached the maximum of 3 entries for this week.".
Proof. vm_compute. reflexivity. Qed.

(** ** The dashboard's count of wins *)

Section CalculateUserWins.

Variable games : list Game.

Lemma countsAsCorrect_pending gid userPick acc :
  outcome userPick = pending ->
  correct (snd (settlePick games gid userPick acc))
  = if countsAsCorrect games gid userPick then correct acc + 1 else correct acc.
Proof.
  intros Hp. unfold settlePick, countsAsCorrect, findGame.
  destruct (find _ games) as [g|]; [|reflexivity].
  rewrite Hp. unfold decide_outcome, winnerOf, parseInt, scoreGt.
  destruct (completed g), (home (score g)) as [h|], (away (score g)) as [a|];
    try reflexivity.
  - destruct (a <? h); [|destruct (h <? a)]; cbn [truthy];
      try reflexivity;
      match goal with
      | |- context [negb (String.eqb ?w "")] => destruct (String.eqb w "")
      end; cbn [negb andb]; try reflexivity;
      match goal with
      | |- context [String.eqb (pick userPick) ?w] =>
          destruct (String.eqb (pick userPick) w)
      end; reflexivity.
Qed.

Lemma calculateUserWins_fold ps : forall acc n,
  Forall (fun e => outcome (snd e) = pending) ps ->
  fold_left (fun correctPicks e =>
               if countsAsCorrect games (fst e) (snd e)
               then correctPicks + 1 else correctPicks) ps n
  = n + (correct (snd (settlePicks games ps acc)) - correct acc).
Proof.
  induction ps as [|[gid userPick] ps IH]; intros acc n Hall.
  - cbn. lia.
  - inversion Hall as [|? ? Hp Hrest]; subst. cbn [fold_left settlePicks fst snd].
    pose proof (countsAsCorrect_pending gid userPick acc Hp) as Hc.
    destruct (settlePick games gid userPick acc) as [p acc1]. cbn [snd] in Hc.
    specialize (IH acc1 (if countsAsCorrect games gid userPick then n + 1 else n) Hrest).
    destruct (settlePicks games ps acc1) as [rest' acc2]. cbn [snd] in *.
    rewrite IH, Hc. destruct (countsAsCorrect games gid userPick); lia.
Qed.

End CalculateUserWins.

(** X20.  For a submission none of whose picks has been decided yet, the
    number of wins that the dashboard computes from the stored games is the
    [totalCorrectPicks] that a settlement run over the same games stores. *)
Theorem dashboard_wins_agree_with_settlement (games : list Game) (s : Submission) :
  Forall (fun e => outcome (snd e) = pending) (picks s) ->
  calculateUserWins (Some (picks s)) (Some games)
  = Some (totalCorrectPicks (settle games s)).
Proof.
  intros Hall. unfold calculateUserWins, settle, applyUpdates.
  cbn [totalCorrectPicks].
  rewrite (calculateUserWins_fold games (picks s) tally0 0 Hall).
  cbn [tally0 correct]. f_equal. lia.
Qed.

(** The theorem on scenario A: the dashboard and the settlement both count
    two wins. *)
Lemma dashboard_wins_agree_with_settlement_witness :
  Forall (fun e => outcome (snd e) = pending) (picks (sampleSubmission picksA)) /\
  calculateUserWins (Some (picks (sampleSubmission picksA))) (Some gamesA) = Some 2.
Proof.
  assert (H : Forall (fun e => outcome (snd e) = pending)
                     (picks (sampleSubmission picksA)))
    by (repeat constructor).
  split; [exact H|].
  rewrite (dashboard_wins_agree_with_settlement gamesA (sampleSubmission picksA) H).
  vm_compute. reflexivity.
Defined.

(** ** The dashboard's ranking *)

Section SortMap.

Context {A B : Type} (f : A -> B) (cmpA : A -> A -> number) (cmpB : B -> B -> number).
Hypothesis cmp_map : forall x y, cmpA x y = cmpB (f x) (f y).

Lemma insertBy_map x l : map f (insertBy cmpA x l) = insertBy cmpB (f x) (map f l).
Proof.
  induction l as [|y r IH]; cbn [insertBy map]; [reflexivity|].
  rewrite cmp_map. destruct (ngt (cmpB (f x) (f y)) (ofZ 0)); cbn [map];
    [rewrite IH|]; reflexivity.
Qed.

Lemma sortBy_map l : map f (sortBy cmpA l) = sortBy cmpB (map f l).
Proof.
  induction l as [|x l IH]; [reflexivity|].
  unfold sortBy in *. cbn [foldr map]. rewrite insertBy_map, IH. reflexivity.
Qed.

End SortMap.

Lemma insertBy_middle {A : Type} (cmp : A -> A -> number) (x : A) (pre post : list A) :
  Forall (fun y => ngt (cmp x y) (ofZ 0) = true) pre ->
  HdRel (fun a b => ngt (cmp a b) (ofZ 0) = false) x post ->
  insertBy cmp x (pre ++ post) = pre ++ x :: post.
Proof.
  intros Hpre Hpost. induction Hpre as [|y pre Hy Hpre IH]; cbn [app insertBy].
  - destruct Hpost as [|z post Hz]; cbn [insertBy]; [reflexivity|].
    rewrite Hz. reflexivity.
  - rewrite Hy, IH. reflexivity.
Qed.

Lemma StronglySorted_remove {A : Type} (R : A -> A -> Prop) (x : A) (pre post : list A) :
  StronglySorted R (pre ++ x :: post) ->
  StronglySorted R (pre ++ post) /\ Forall (fun y => R y x) pre /\ Forall (R x) post.
Proof.
  induction pre as [|y pre IH]; cbn [app]; intros H.
  - apply StronglySorted_inv in H as [H1 H2]. repeat split; [exact H1|constructor|exact H2].
  - apply StronglySorted_inv in H as [H1 H2].
    destruct (IH H1) as (Hs & Hpre & Hpost).
    rewrite Forall_app in H2. destruct H2 as [H2 H3].
    apply Forall_cons in H3 as [Hyx H3].
    repeat split; [|constructor; assumption|exact Hpost].
    constructor; [exact Hs|]. rewrite Forall_app. split; assumption.
Qed.

Section DashboardOrder.

Variable actualTotal : Z.

Lemma compare_of_ranks a b :
  finiteEntry a -> finiteEntry b -> ranksBefore actualTotal a b ->
  ngt (compareEntries actualTotal a b) (ofZ 0) = false.
Proof.
  unfold finiteEntry, compareEntries, ranksBefore, numLt.
  destruct (entry_totalWinnerBucksWon a) as [|wa]; [contradiction|].
  destruct (entry_totalWinnerBucksWon b) as [|wb]; [contradiction|].
  intros _ _ H.
  destruct (Z.eqb_spec (entry_totalCorrectPicks b) (entry_totalCorrectPicks a)) as [Hc|Hc];
    cbn [negb].
  - destruct H as [H|[_ H]]; [lia|].
    unfold nne. destruct (Qc_eqb wb wa) eqn:Hw; cbn [negb].
    + rewrite ngt_ofZ. apply Z.ltb_ge.
      destruct H as [H|[_ H]]; [|lia].
      apply Qc_eqb_eq in Hw. subst wb. exfalso. exact (Qclt_not_eq _ _ H eq_refl).
    + destruct H as [H|[H _]].
      * rewrite ngt_sub. unfold Qc_ltb.
        destruct (wa ?= wb)%Qc eqn:Hcmp; try reflexivity.
        apply Qclt_alt in Hcmp. exfalso.
        exact (Qclt_not_eq _ _ (Qclt_trans _ _ _ H Hcmp) eq_refl).
      * injection H as H. subst wb.
        assert (Hr : Qc_eqb wa wa = true) by (apply Qc_eqb_eq; reflexivity).
        congruence.
  - rewrite ngt_ofZ. apply Z.ltb_ge. destruct H as [H|[H _]]; lia.
Qed.

Lemma compare_of_strict a b :
  finiteEntry a -> finiteEntry b -> ranksBefore actualTotal b a ->
  sameRankAs actualTotal a b = false ->
  ngt (compareEntries actualTotal a b) (ofZ 0) = true.
Proof.
  intros Ha Hb Hr Hne.
  destruct (ngt (compareEntries actualTotal a b) (ofZ 0)) eqn:E; [reflexivity|].
  exfalso.
  pose proof (compare_keep actualTotal a b Ha Hb E) as Hab.
  revert Ha Hb Hr Hab Hne. unfold finiteEntry, ranksBefore, sameRankAs, numLt, numEqb.
  destruct (entry_totalWinnerBucksWon a) as [|wa]; [contradiction|].
  destruct (entry_totalWinnerBucksWon b) as [|wb]; [contradiction|].
  intros _ _ Hr Hab Hne.
  assert (Hirr : forall x y : Qc, (x < y)%Qc -> (y < x)%Qc -> False).
  { intros x y H1 H2. exact (Qclt_not_eq _ _ (Qclt_trans _ _ _ H1 H2) eq_refl). }
  assert (Hnot : forall x y : Qc, (x < y)%Qc -> Num x = Num y -> False).
  { intros x y H1 H2. injection H2 as H2. exact (Qclt_not_eq _ _ H1 H2). }
  destruct Hr as [Hr|[Hc1 Hr]], Hab as [Hab|[Hc2 Hab]]; try lia.
  destruct Hr as [Hr|[Hw1 Hr]], Hab as [Hab|[Hw2 Hab]].
  - exact (Hirr _ _ Hr Hab).
  - exact (Hnot _ _ Hr Hw2).
  - exact (Hnot _ _ Hab Hw1).
  - injection Hw1 as Hw1. subst wb.
    assert (Hq : Qc_eqb wa wa = true) by (apply Qc_eqb_eq; reflexivity).
    rewrite Hc1, Z.eqb_refl, Hq in Hne. cbn [andb] in Hne.
    apply Z.eqb_neq in Hne. lia.
Qed.

Lemma compareRows_entries a b :
  compareRows true (Some actualTotal) a b
  = compareEntries actualTotal (row_entry a) (row_entry b).
Proof. reflexivity. Qed.

End DashboardOrder.

Lemma leaderboard_split (userId : option string) (lb : list Entry) :
  NoDup (map entry_id lb) ->
  match find (isUser userId) lb with
  | Some self =>
      exists pre post, lb = pre ++ self :: post /\
        List.filter (fun e => negb (isUser userId e)) lb = pre ++ post /\
        Forall (fun e => isUser userId e = false) (pre ++ post) /\
        isUser userId self = true
  | None => List.filter (fun e => negb (isUser userId e)) lb = lb
  end.
Proof.
  induction lb as [|e lb IH]; intros Hnd; [reflexivity|].
  cbn [map] in Hnd. apply NoDup_cons in Hnd as [Hnotin Hnd].
  specialize (IH Hnd). cbn [find List.filter].
  destruct (isUser userId e) eqn:He; cbn [negb].
  - assert (Hrest : Forall (fun e' => isUser userId e' = false) lb).
    { apply Forall_forall. intros e' Hin.
      destruct (isUser userId e') eqn:He'; [|reflexivity].
      exfalso. apply Hnotin. unfold isUser in He, He'.
      destruct userId as [u|]; [|discriminate].
      apply String.eqb_eq in He, He'. rewrite He, <- He'.
      apply list_elem_of_fmap_2. exact Hin. }
    exists [], lb. cbn [app]. split; [reflexivity|]. split; [|split; [exact Hrest|exact He]].
    clear -Hrest. induction Hrest as [|e' lb He' _ IH]; [reflexivity|].
    cbn [List.filter]. rewrite He'. cbn [negb]. rewrite IH. reflexivity.
  - destruct (find (isUser userId) lb) as [self|].
    + destruct IH as (pre & post & Hlb & Hf & Hall & Hself).
      exists (e :: pre), post. cbn [app]. rewrite Hlb, <- Hf.
      split; [reflexivity|]. split; [rewrite <- Hlb; reflexivity|].
      split; [|exact Hself]. constructor; [exact He|]. rewrite Hf. exact Hall.
    + rewrite IH. reflexivity.
Qed.

Lemma StronglySorted_Sorted_impl {A : Type} (R R' : A -> A -> Prop) (P : A -> Prop)
    (l : list A) :
  (forall a b, P a -> P b -> R a b -> R' a b) ->
  Forall P l -> StronglySorted R l -> Sorted R' l.
Proof.
  intros Himpl HP HS. induction HS as [|x l HS IH Hx]; [constructor|].
  apply Forall_cons in HP as [Hpx HP].
  constructor; [exact (IH HP)|].
  destruct l as [|y r]; constructor.
  apply Forall_cons in Hx as [Hxy _]. apply Forall_cons in HP as [Hpy _].
  exact (Himpl x y Hpx Hpy Hxy).
Qed.

(** X21.  Once picks are revealed and the week has its tie-breaker total,
    the dashboard shows the server's leaderboard in the server's order,
    provided that the entries have distinct ids and finite winnings and that
    no other entry ties with the current user's entry on all three ranking
    keys. *)
Theorem dashboard_keeps_server_order
    (actualTotal : Z) (es : list Entry) (userId : option string) :
  Forall finiteEntry es ->
  NoDup (map entry_id es) ->
  (forall self e, In self es -> In e es ->
     isUser userId self = true -> isUser userId e = false ->
     sameRankAs actualTotal self e = false) ->
  map row_entry
      (dashboardRows userId (sortLeaderboard actualTotal es) true (Some actualTotal))
  = sortLeaderboard actualTotal es.
Proof.
  intros Hfin Hnd Htie.
  pose proof (sortBy_perm (compareEntries actualTotal) es) as Hperm.
  fold (sortLeaderboard actualTotal es) in Hperm.
  assert (HS : StronglySorted (ranksBefore actualTotal) (sortLeaderboard actualTotal es)).
  { apply Sorted_StronglySorted; [intros a b c; apply ranksBefore_trans|].
    apply (sortBy_sorted _ _ finiteEntry);
      [apply compare_keep | apply compare_swap | exact Hfin]. }
  set (lb := sortLeaderboard actualTotal es) in *.
  assert (Hfin' : Forall finiteEntry lb).
  { eapply Permutation_Forall; [exact Hperm|exact Hfin]. }
  assert (Hnd' : NoDup (map entry_id lb)).
  { pose proof (Permutation_map entry_id Hperm) as Hp. rewrite <- Hp. exact Hnd. }
  assert (Hin : forall e, In e lb -> In e es).
  { intros e He. eapply Permutation_in; [symmetry; exact Hperm|exact He]. }
  unfold dashboardRows.
  rewrite (sortBy_map row_entry (compareRows true (Some actualTotal))
             (compareEntries actualTotal) (compareRows_entries actualTotal)).
  rewrite map_app, map_map. cbn [row_entry]. rewrite map_id.
  pose proof (leaderboard_split userId lb Hnd') as Hsplit.
  destruct (find (isUser userId) lb) as [self|].
  - destruct Hsplit as (pre & post & Hlb & Hf & Hothers & Hself).
    rewrite Hf. cbn [map app row_entry].
    rewrite Hlb in HS, Hfin'.
    destruct (StronglySorted_remove _ _ _ _ HS) as (HS' & Hpre & Hpost).
    assert (Hfself : finiteEntry self).
    { rewrite Forall_app in Hfin'. destruct Hfin' as [_ H].
      apply Forall_cons in H as [H _]. exact H. }
    assert (Hfrest : Forall finiteEntry (pre ++ post)).
    { rewrite Forall_app in Hfin' |- *. destruct Hfin' as [H1 H2].
      apply Forall_cons in H2 as [_ H2]. split; assumption. }
    unfold sortBy. cbn [foldr]. fold (sortBy (compareEntries actualTotal) (pre ++ post)).
    rewrite sortBy_fixed.
    2:{ apply (StronglySorted_Sorted_impl (ranksBefore actualTotal) _ finiteEntry);
          [apply compare_of_ranks|exact Hfrest|exact HS']. }
    rewrite Hlb. apply insertBy_middle.
    + rewrite Forall_app in Hfrest, Hothers.
      destruct Hfrest as [Hfpre _], Hothers as [Hopre _].
      rewrite Forall_forall in Hpre, Hfpre, Hopre |- *.
      intros y Hy. apply compare_of_strict;
        [exact Hfself|apply Hfpre; exact Hy|apply Hpre; exact Hy|].
      apply Htie; [| |exact Hself|apply Hopre; exact Hy].
      * apply Hin. rewrite Hlb. apply in_or_app. right. left. reflexivity.
      * apply Hin. rewrite Hlb. apply in_or_app. left.
        apply list_elem_of_In. exact Hy.
    + destruct post as [|z post]; constructor.
      apply Forall_cons in Hpost as [Hz _].
      rewrite Forall_app in Hfrest. destruct Hfrest as [_ Hfpost].
      apply Forall_cons in Hfpost as [Hfz _].
      apply compare_of_ranks; assumption.
  - rewrite Hsplit. cbn [app]. apply sortBy_fixed.
    apply (StronglySorted_Sorted_impl (ranksBefore actualTotal) _ finiteEntry);
      [apply compare_of_ranks|exact Hfin'|exact HS].
Qed.

(** The theorem on scenario D, seen by user Y: the dashboard keeps X above
    Y. *)
Lemma dashboard_keeps_server_order_witness :
  map row_entry
      (dashboardRows (Some "y") (sortLeaderboard 50 [userY; userX]) true (Some 50))
  = [userX; userY].
Proof.
  rewrite (dashboard_keeps_server_order 50 [userY; userX] (Some "y")).
  - reflexivity.
  - repeat constructor.
  - apply (bool_decide_unpack _). vm_compute. reflexivity.
  - intros self e [<-|[<-|[]]] [<-|[<-|[]]] Hs He;
      try discriminate Hs; try discriminate He.
    vm_compute. reflexivity.
Defined.

(** With a tie on all three keys the dashboard moves the current user's
    entry above the entries it ties with. *)
Example dashboard_moves_tied_user_up :
  let twin := {| entry_id := "z"; username := "Z"; entry_totalCorrectPicks := 2;
                 entry_totalWinnerBucksWon := entry_totalWinnerBucksWon userX;
                 entry_tieBreakerPoints := 48 |} in
  sortLeaderboard 50 [userX; twin] = [userX; twin] /\
  map row_entry (dashboardRows (Some "z") [userX; twin] true (Some 50)) = [twin; userX].
Proof. split; vm_compute; reflexivity. Qed.

(** X22.  For a pick that is still pending, stored under its own game id,
    and stored games that have both scores once they are completed, the
    outcome that the dashboard displays is the outcome that a settlement run
    over the same games stores for the pick; neither shows or decides
    anything when the game is not stored. *)
Theorem display_agrees_with_settlement
    (games : list Game) (gid : string) (userPick : Pick) (acc : Tally) :
  gameId userPick = gid ->
  outcome userPick = pending ->
  Forall scoresPresent games ->
  displayedOutcome games userPick
  = match findGame games gid with
    | Some _ => Some (displayOf (outcome (fst (settlePick games gid userPick acc))))
    | None => None
    end.
Proof.
  intros Hid Hp Hall. unfold displayedOutcome, settlePick, findGame. rewrite Hid.
  destruct (find _ games) as [g|] eqn:Hg; [|reflexivity]. f_equal.
  assert (Hs : scoresPresent g).
  { apply find_some in Hg as [Hin _]. rewrite Forall_forall in Hall.
    apply Hall. apply list_elem_of_In. exact Hin. }
  unfold outcomeDisplay. rewrite Hp. unfold scoresPresent in Hs.
  destruct (completed g); [|cbn [fst]; rewrite Hp; reflexivity].
  destruct (Hs eq_refl) as [[h Hh] [a Ha]].
  unfold decide_outcome, winnerOf, parseInt, scoreGt, storedGt. rewrite Hh, Ha.
  cbn [default from_option id].
  destruct (a <? h); [|destruct (h <? a)];
    repeat match goal with
           | |- context [truthy ?w] => destruct (truthy w)
           | |- context [String.eqb ?x ?y] => destruct (String.eqb x y)
           end; reflexivity.
Qed.

Lemma display_agrees_with_settlement_witness :
  displayedOutcome gamesA (samplePick "g1" "Bears" 50) = Some DisplayWin.
Proof.
  rewrite (display_agrees_with_settlement gamesA "g1" (samplePick "g1" "Bears" 50) tally0).
  - reflexivity.
  - reflexivity.
  - reflexivity.
  - repeat constructor; eexists; reflexivity.
Defined.

(** On a completed game with a null score the two differ: the dashboard
    shows a win, the settlement leaves the pick pending. *)
Example display_differs_on_null_score :
  displayedOutcome [halfScoredGame] (samplePick "g1" "Bears" 50) = Some DisplayWin /\
  outcome (fst (settlePick [halfScoredGame] "g1" (samplePick "g1" "Bears" 50) tally0))
  = pending.
Proof. split; reflexivity. Qed.

(** X23.  The dashboard reads the week document stored under the week id
    that its own clock gives for the current instant, in a zone less than a
    day away from UTC.  For a document whose reveal time was written by a
    pass of the week of that id, [showOtherPicks] is false: the reveal time
    is the Friday 12:00 UTC after the week's Tuesday, and the week id moves
    on when the wall clock of the browser reaches Wednesday 00:00. *)
Theorem picks_not_revealed_in_own_week (offset t now : Z) (d : WeekDoc) :
  Z.abs offset <= msPerDay ->
  wi_weekId (getCurrentNFLWeekInfo t) = clientWeekId offset now ->
  wd_picksRevealTime d = picksRevealTime (getCurrentNFLWeekInfo t) ->
  showOtherPicks (Some d) now = false.
Proof.
  intros Hoff Hid Hr. rewrite clientWeekId_eq in Hid. apply weekId_inj in Hid.
  unfold showOtherPicks. rewrite Hr, weekInfo_eq. simpl.
  rewrite Hid. clear Hr Hid. rewrite Z.ltb_ge.
  unfold tuesdayDay, getDay, dayNumber, msPerDay in *.
  Z.div_mod_to_equations. lia.
Qed.

(** The theorem in a browser seven hours behind UTC, at the instant at which
    its wall clock shows Tuesday 2024-09-10 10:00. *)
Lemma picks_not_revealed_in_own_week_witness :
  showOtherPicks (Some fetchedWeek) (tue_1000 - sevenHoursBehind) = false.
Proof.
  apply (picks_not_revealed_in_own_week sevenHoursBehind tue_1000
           (tue_1000 - sevenHoursBehind) fetchedWeek).
  - vm_compute. discriminate.
  - vm_compute. reflexivity.
  - reflexivity.
Defined.
